(** * Media transformation pipeline: video splitter and video enhancer

    A shallow embedding of [video_splitter.py] and [enhance_video.py]:
    the file system is a finite map from paths to nodes, the external
    tools (ffmpeg, ffprobe) are an oracle, and every Python function
    that touches the file system or the console is a computation in a
    state-and-exception monad over a [world]. *)

From Stdlib Require Import ZArith QArith String Ascii List Floats DecimalString.
From stdpp Require Import base gmap strings list fin_maps.

Open Scope Z_scope.

(** ** Strings: the pieces of [str] the programs use *)

Module Str.

(** Text is kept as its UTF-8 bytes.  A character is a byte that is no
    continuation byte ([10xxxxxx]) with the continuation bytes after
    it; an ASCII character is a single byte below 128, and no byte of
    another character is below 128.  So the position of an ASCII
    character, as [rfind] gives it, cuts the text between characters. *)

(** [s[i:]], with [i] the position of a byte. *)
Fixpoint drop (i : nat) (s : string) : string :=
  match i, s with
  | O, _ => s
  | S _, EmptyString => EmptyString
  | S i', String _ s' => drop i' s'
  end.

(** [s[:i]], with [i] the position of a byte. *)
Fixpoint take (i : nat) (s : string) : string :=
  match i, s with
  | O, _ => EmptyString
  | S _, EmptyString => EmptyString
  | S i', String c s' => String c (take i' s')
  end.

(** [s.rfind(c)]; [None] stands for Python's [-1]. *)
Fixpoint rfind (c : ascii) (s : string) : option nat :=
  match s with
  | EmptyString => None
  | String a s' =>
      match rfind c s' with
      | Some i => Some (S i)
      | None => if Ascii.eqb a c then Some O else None
      end
  end.

Definition is_continuation (a : ascii) : bool :=
  let n := nat_of_ascii a in (128 <=? n)%nat && (n <? 192)%nat.

(** [len(s)]: the number of characters. *)
Fixpoint len (s : string) : nat :=
  match s with
  | EmptyString => O
  | String a s' => if is_continuation a then len s' else S (len s')
  end.

(** [s[i:]], with [i] a number of characters; the continuation bytes
    met on the way belong to a character that is dropped. *)
Fixpoint drop_chars (i : nat) (s : string) {struct s} : string :=
  match s with
  | EmptyString => EmptyString
  | String a s' =>
      if is_continuation a then drop_chars i s'
      else match i with
           | O => s
           | S i' => drop_chars i' s'
           end
  end.

(** [str.isascii] *)
Fixpoint is_ascii (s : string) : bool :=
  match s with
  | EmptyString => true
  | String a s' => (nat_of_ascii a <? 128)%nat && is_ascii s'
  end.

(** [str.lower] on an ASCII character. *)
Definition lower_ascii (a : ascii) : ascii :=
  let n := nat_of_ascii a in
  if (65 <=? n)%nat && (n <=? 90)%nat then ascii_of_nat (n + 32) else a.

Fixpoint lower_ascii_text (s : string) : string :=
  match s with
  | EmptyString => EmptyString
  | String a s' => String (lower_ascii a) (lower_ascii_text s')
  end.

(** [s.lower()].  In text of ASCII characters only, the letters A-Z
    become a-z and nothing else changes.  For any other text the
    result is what the Unicode tables of the interpreter give:
    [unicode_lower], a parameter (the Kelvin sign U+212A becomes [k],
    a character may become several). *)
Definition lower (unicode_lower : string → string) (s : string) : string :=
  if is_ascii s then lower_ascii_text s else unicode_lower s.

(** [sep.join(parts)] *)
Fixpoint join (sep : string) (parts : list string) : string :=
  match parts with
  | [] => EmptyString
  | [p] => p
  | p :: rest => p +:+ sep +:+ join sep rest
  end.

(** [s[-n:]] for [0 < n <= len(s)]: it is [s[len(s)-n:]], counted in
    characters. *)
Definition last_chars (n : nat) (s : string) : string :=
  drop_chars (len s - n) s.

(** The one-character string [\n]. *)
Definition newline : string := String (ascii_of_nat 10) EmptyString.

(** [s * n] *)
Fixpoint times (s : string) (n : nat) : string :=
  match n with
  | O => EmptyString
  | S n' => s +:+ times s n'
  end.

Arguments times : simpl never.

(** [str(n)] for a Python [int]. *)
Definition of_int (n : Z) : string := NilZero.string_of_int (Z.to_int n).

End Str.

(** ** Paths: [pathlib.PurePath] as the list of its components *)

Abbreviation path := (list string).

Module PurePath.

Definition name (p : path) : string := List.last p EmptyString.

Definition parent (p : path) : path := removelast p.

(** [p / child] *)
Definition joinpath (p : path) (child : string) : path := p ++ [child].

(** [PurePath.suffix]: [i = name.rfind('.')], then [name[i:]] if
    [0 < i < len(name) - 1], else the empty string. *)
Definition suffix_of_name (nm : string) : string :=
  match Str.rfind "."%char nm with
  | Some i =>
      if (0 <? i)%nat && (i <? String.length nm - 1)%nat
      then Str.drop i nm else EmptyString
  | None => EmptyString
  end.

(** [PurePath.stem]: [name[:i]] under the same test, else [name]. *)
Definition stem_of_name (nm : string) : string :=
  match Str.rfind "."%char nm with
  | Some i =>
      if (0 <? i)%nat && (i <? String.length nm - 1)%nat
      then Str.take i nm else nm
  | None => nm
  end.

Definition suffix (p : path) : string := suffix_of_name (name p).
Definition stem (p : path) : string := stem_of_name (name p).

(** [a] is a proper ancestor of [p]. *)
Definition below (a p : path) : Prop := a `prefix_of` p ∧ a ≠ p.

#[export] Instance below_dec a p : Decision (below a p) := _.

End PurePath.

Import PurePath.

(** ** The file system *)

Inductive node :=
  | File (st_size : Z)
  | Dir.

#[export] Instance node_eq_dec : EqDecision node.
Proof. solve_decision. Defined.

Abbreviation filesystem := (gmap (list string) node).

(** Python's exceptions, as far as the two programs can meet them.  All
    but [CalledProcessError], [ValueError] and [SystemExit] are
    subclasses of [OSError]. *)
Inductive exn :=
  | CalledProcessError (returncode : Z)
  | ValueError
  | FileNotFoundError
  | FileExistsError
  | IsADirectoryError
  | NotADirectoryError
  | ShutilError
  | SystemExit (code : Z).

Definition is_OSError (e : exn) : bool :=
  match e with
  | FileNotFoundError | FileExistsError | IsADirectoryError
  | NotADirectoryError | ShutilError => true
  | _ => false
  end.

Inductive result (A : Type) :=
  | Ok (a : A)
  | Raise (e : exn).
Arguments Ok {A} a.
Arguments Raise {A} e.

Module FS.

Definition exists_ (fs : filesystem) (p : path) : bool :=
  bool_decide (is_Some (fs !! p)).

Definition is_file (fs : filesystem) (p : path) : bool :=
  match fs !! p with Some (File _) => true | _ => false end.

Definition is_dir (fs : filesystem) (p : path) : bool :=
  match fs !! p with Some Dir => true | _ => false end.

(** [p.stat().st_size]; the size of a directory is platform dependent
    and is only ever printed, it is taken to be 0. *)
Definition stat_size (fs : filesystem) (p : path) : result Z :=
  match fs !! p with
  | Some (File n) => Ok n
  | Some Dir => Ok 0
  | None => Raise FileNotFoundError
  end.

(** [p.unlink()] *)
Definition unlink (fs : filesystem) (p : path) : result filesystem :=
  match fs !! p with
  | Some (File _) => Ok (delete p fs)
  | Some Dir => Raise IsADirectoryError
  | None => Raise FileNotFoundError
  end.

(** [os.mkdir(p)] *)
Definition os_mkdir (fs : filesystem) (p : path) : result filesystem :=
  match fs !! p with
  | Some _ => Raise FileExistsError
  | None =>
      match fs !! parent p with
      | Some Dir => Ok (<[p := Dir]> fs)
      | Some (File _) => Raise NotADirectoryError
      | None => Raise FileNotFoundError
      end
  end.

(** [Path.mkdir(parents=False, exist_ok=...)]: [os.mkdir], where a
    missing parent is re-raised and any other [OSError] is swallowed
    when [exist_ok] holds and the path is a directory. *)
Definition mkdir_here (exist_ok : bool) (fs : filesystem) (p : path)
  : result filesystem :=
  match os_mkdir fs p with
  | Ok fs' => Ok fs'
  | Raise FileNotFoundError => Raise FileNotFoundError
  | Raise e => if exist_ok && is_dir fs p then Ok fs else Raise e
  end.

(** [Path.mkdir(parents=True, exist_ok=...)], by recursion on the
    reversed component list: on a missing parent the parent is made
    with [parents=True, exist_ok=True] and the directory itself again
    with [parents=False]. *)
Fixpoint mkdir_parents_rev (exist_ok : bool) (fs : filesystem)
    (rp : list string) : result filesystem :=
  let p := rev rp in
  match os_mkdir fs p with
  | Ok fs' => Ok fs'
  | Raise FileNotFoundError =>
      match rp with
      | [] => Raise FileNotFoundError
      | _ :: rp' =>
          match mkdir_parents_rev true fs rp' with
          | Ok fs' => mkdir_here exist_ok fs' p
          | Raise e => Raise e
          end
      end
  | Raise e => if exist_ok && is_dir fs p then Ok fs else Raise e
  end.

Definition mkdir (parents exist_ok : bool) (fs : filesystem) (p : path)
  : result filesystem :=
  if parents then mkdir_parents_rev exist_ok fs (rev p)
  else mkdir_here exist_ok fs p.

(** The entries of the subtree rooted at [src], re-rooted at [dst]. *)
Definition reroot (src dst : path) (fs : filesystem) : filesystem :=
  list_to_map
    ((λ kv : path * node, (dst ++ List.skipn (length src) kv.1, kv.2))
       <$> map_to_list (filter (λ kv : path * node, src `prefix_of` kv.1) fs)).

(** [shutil.move(src, dst)]: into [dst] when [dst] is a directory
    (refused when the entry is already there), else onto [dst]; a
    regular file replaces a regular file at the destination, a
    directory is moved with its subtree to a free destination. *)
Definition shutil_move (fs : filesystem) (src dst : path)
  : result filesystem :=
  let real_dst := if is_dir fs dst then joinpath dst (name src) else dst in
  if is_dir fs dst && exists_ fs real_dst then Raise ShutilError
  else
    match fs !! src with
    | None => Raise FileNotFoundError
    | Some (File n) =>
        if negb (is_dir fs (parent real_dst)) then Raise FileNotFoundError
        else Ok (<[real_dst := File n]> (delete src fs))
    | Some Dir =>
        if negb (is_dir fs (parent real_dst)) then Raise FileNotFoundError
        else if exists_ fs real_dst then Raise FileExistsError
        else if bool_decide (src `prefix_of` real_dst) then Raise ShutilError
        else Ok (reroot src real_dst fs
                   ∪ filter (λ kv : path * node, ¬ src `prefix_of` kv.1) fs)
    end.

(** What a tool leaves at its output path [p] when it writes [n]
    bytes there: a regular file, provided the directory of [p] exists
    and [p] is not itself a directory. *)
Definition write_file (fs : filesystem) (p : path) (n : Z) : filesystem :=
  if is_dir fs (parent p) && negb (is_dir fs p) then <[p := File n]> fs
  else fs.

(** [folder.rglob('*')]: every entry strictly below [folder].  The
    enumeration order of the real walk is unspecified; here it is the
    key order of the map. *)
Definition rglob (fs : filesystem) (folder : path) : list path :=
  if is_dir fs folder
  then filter (λ p, below folder p) (map_to_list fs).*1
  else [].

(** [folder.iterdir()]: the immediate children of a directory. *)
Definition iterdir (fs : filesystem) (folder : path) : result (list path) :=
  match fs !! folder with
  | Some Dir =>
      Ok (filter (λ p, below folder p ∧ parent p = folder) (map_to_list fs).*1)
  | Some (File _) => Raise NotADirectoryError
  | None => Raise FileNotFoundError
  end.

End FS.

(** ** Console output and external commands *)

(** One interpolated field or literal chunk of a printed f-string, or
    one element of an argument vector. *)
Inductive piece :=
  | Lit (s : string)             (* literal text, or an interpolated [str] *)
  | IntP (n : Z)                 (* [{n}] for an [int] *)
  | NumP (x : Q)                 (* [{x}] for a number *)
  | Num2f (x : Q)                (* [{x:.2f}] *)
  | Float2f (x : float)          (* [{x:.2f}] for a parsed [float] *)
  | FloatP (x : float)           (* [str(x)] for a parsed [float] *)
  | PathP (p : path)             (* [str(p)] for a [Path] *)
  | ExnP (e : exn).              (* [{e}] for a caught exception *)

Record completed := Completed_
  { returncode : Z; stdout : string; stderr : string }.

(** What starting an external program can do: the executable is not
    found, or the process runs to completion and, for a tool with an
    output path, may have written [written] bytes there. *)
Inductive outcome :=
  | NotFound
  | Completed (c : completed) (written : option Z).

(** What a run leaves behind for an observer: the lines printed and
    the external commands started, with what became of them. *)
Inductive event :=
  | Print (line : list piece)
  | Run (argv : list piece) (o : outcome).

Record world := World { fs : filesystem; trace : list event }.

Record video_info := VideoInfo
  { width : Z; height : Z; duration : float; bitrate : Z }.

(** The environment of a run: the behaviour of the external tools, as
    an arbitrary function of everything that happened so far, the two
    parsers of their output, and the lower-casing of text that is not
    ASCII. *)
Record oracle := Oracle
  { spawn : world -> list piece -> outcome;
    (* [float(s.strip())]; [None] is [ValueError] *)
    py_float : string -> option float;
    (* [json.loads(s)] and the conversions of [get_video_info]: [None]
       is any exception, [Some None] is an empty stream list *)
    parse_streams : string -> option (option video_info);
    (* [s.lower()] for text with a character outside ASCII *)
    unicode_lower : string -> string }.

(** ** The monad of the programs *)

Definition M (A : Type) : Type := world -> result A * world.

#[export] Instance M_ret : MRet M := λ A a w, (Ok a, w).

#[export] Instance M_bind : MBind M := λ A B f m w,
  match m w with
  | (Ok a, w') => f a w'
  | (Raise e, w') => (Raise e, w')
  end.

Definition raise {A} (e : exn) : M A := λ w, (Raise e, w).

(** [try: body  except ...: handler]; [handler e = None] when no
    [except] clause matches [e]. *)
Definition try_except {A} (body : M A) (handler : exn -> option (M A)) : M A :=
  λ w, match body w with
       | (Ok a, w') => (Ok a, w')
       | (Raise e, w') =>
           match handler e with
           | Some h => h w'
           | None => (Raise e, w')
           end
       end.

Definition print (line : list piece) : M unit :=
  λ w, (Ok tt, World (fs w) (trace w ++ [Print line])).

Definition read_fs {A} (f : filesystem -> A) : M A := λ w, (Ok (f (fs w)), w).

Definition try_fs {A} (f : filesystem -> result A) : M A := λ w, (f (fs w), w).

Definition update_fs (f : filesystem -> result filesystem) : M unit :=
  λ w, match f (fs w) with
       | Ok fs' => (Ok tt, World fs' (trace w))
       | Raise e => (Raise e, w)
       end.

Fixpoint for_each {A} (l : list A) (body : A -> M unit) : M unit :=
  match l with
  | [] => mret tt
  | x :: rest => body x;; for_each rest body
  end.

(** [enumerate(l, start)] *)
Fixpoint enumerate {A} (l : list A) (start : Z) : list (Z * A) :=
  match l with
  | [] => []
  | x :: rest => (start, x) :: enumerate rest (start + 1)
  end.

(** The path a command writes to: ffmpeg's last argument. *)
Definition written_path (argv : list piece) : option path :=
  match argv with
  | Lit "ffmpeg" :: _ =>
      match List.last argv (Lit "") with
      | PathP p => Some p
      | _ => None
      end
  | _ => None
  end.

Definition written_fs (argv : list piece) (written : option Z)
    (fs : filesystem) : filesystem :=
  match written_path argv, written with
  | Some p, Some n => FS.write_file fs p n
  | _, _ => fs
  end.

Section Subprocess.

Context (O : oracle).

(** [subprocess.run(argv, capture_output=True, check=check)] *)
Definition subprocess_run (check : bool) (argv : list piece) : M completed :=
  λ w, match spawn O w argv with
       | NotFound =>
           (Raise FileNotFoundError,
            World (fs w) (trace w ++ [Run argv NotFound]))
       | Completed c written =>
           let w' := World (written_fs argv written (fs w))
                           (trace w ++ [Run argv (Completed c written)]) in
           if check && negb (returncode c =? 0)
           then (Raise (CalledProcessError (returncode c)), w')
           else (Ok c, w')
       end.

End Subprocess.

(** The exit status of the interpreter for the outcome of [main]:
    [sys.exit(n)] gives [n], any other uncaught exception gives 1. *)
Definition exit_status {A} (r : result A) : Z :=
  match r with
  | Ok _ => 0
  | Raise (SystemExit n) => n
  | Raise _ => 1
  end.

Definition Qgtb (a b : Q) : bool := negb (Qle_bool a b).

(** ** video_splitter.py *)

Module Splitter.

Definition TARGET_FOLDER : path := ["D:"; "紫薇"].
Definition SIZE_LIMIT_MB : Q := 200.
Definition ARCHIVE_FOLDER_NAME : string := "原檔_超過200MB".
Definition VIDEO_EXTENSIONS : gset string :=
  {[ ".mp4"; ".avi"; ".mov"; ".mkv"; ".wmv"; ".flv"; ".webm"; ".m4v" ]}.

Section WithOracle.

Context (O : oracle).

Definition get_file_size_mb (file_path : path) : M Q :=
  st_size ← try_fs (λ fs, FS.stat_size fs file_path);
  mret (inject_Z st_size / inject_Z (1024 * 1024))%Q.

(** [cmd], lines 27-32 of [get_video_duration]. *)
Definition duration_cmd (file_path : path) : list piece :=
  [Lit "ffprobe"; Lit "-v"; Lit "error";
   Lit "-show_entries"; Lit "format=duration";
   Lit "-of"; Lit "default=noprint_wrappers=1:nokey=1";
   PathP file_path].

Definition get_video_duration (file_path : path) : M float :=
  try_except
    (result ← subprocess_run O true (duration_cmd file_path);
     match py_float O (stdout result) with
     | Some d => mret d
     | None => raise ValueError
     end)
    (λ e, match e with
          | CalledProcessError _ | ValueError =>
              Some (print [Lit "  ❌ 無法取得影片時長: "; ExnP e];;
                    mret 0%float)
          | _ => None
          end).

Definition part_path (output_dir : path) (file_path : path) (tag : string)
  : path :=
  joinpath output_dir (stem file_path +:+ tag +:+ suffix file_path).

(** Lines 70-74 of [split_video]. *)
Definition announce_plan (duration split_point : float)
    (part1_path part2_path : path) : M unit :=
  print [Lit "  📎 影片時長: "; Float2f duration; Lit " 秒"];;
  print [Lit "  ✂️ 分割點: "; Float2f split_point; Lit " 秒"];;
  print [Lit "  📁 輸出:"];;
  print [Lit "      - "; Lit (name part1_path)];;
  print [Lit "      - "; Lit (name part2_path)].

(** [cmd1], lines 77-82, and [cmd2], lines 85-90. *)
Definition cmd1 (file_path : path) (split_point : float) (part1_path : path)
  : list piece :=
  [Lit "ffmpeg"; Lit "-y"; Lit "-i"; PathP file_path;
   Lit "-t"; FloatP split_point;
   Lit "-c"; Lit "copy";
   PathP part1_path].

Definition cmd2 (file_path : path) (split_point : float) (part2_path : path)
  : list piece :=
  [Lit "ffmpeg"; Lit "-y"; Lit "-i"; PathP file_path;
   Lit "-ss"; FloatP split_point;
   Lit "-c"; Lit "copy";
   PathP part2_path].

(** Lines 93-104 of [split_video]: the two transcoder runs and the
    report of the part sizes. *)
Definition transcode_parts (file_path : path) (split_point : float)
    (part1_path part2_path : path) : M unit :=
  print [Lit "  ⏳ 正在分割第 1 部分..."];;
  subprocess_run O true (cmd1 file_path split_point part1_path);;
  print [Lit "  ⏳ 正在分割第 2 部分..."];;
  subprocess_run O true (cmd2 file_path split_point part2_path);;
  size1 ← get_file_size_mb part1_path;
  size2 ← get_file_size_mb part2_path;
  print [Lit "  ✅ 分割完成!"];;
  print [Lit "      - Part 1: "; Num2f size1; Lit " MB"];;
  print [Lit "      - Part 2: "; Num2f size2; Lit " MB"].

(** Lines 106-113 of [split_video]: make the archive folder and move
    the original into it. *)
Definition archive_original (file_path : path) : M unit :=
  let archive_folder := joinpath (parent file_path) ARCHIVE_FOLDER_NAME in
  update_fs (λ fs, FS.mkdir false true fs archive_folder);;
  let archive_path := joinpath archive_folder (name file_path) in
  update_fs (λ fs, FS.shutil_move fs file_path archive_path);;
  print [Lit "  📦 原始檔案已移動至: "; Lit ARCHIVE_FOLDER_NAME; Lit "/";
         Lit (name file_path)].

Definition remove_if_exists (p : path) : M unit :=
  ex ← read_fs (λ fs, FS.exists_ fs p);
  if ex : bool then update_fs (λ fs, FS.unlink fs p) else mret tt.

(** Lines 118-124 of [split_video]: the body of the handler. *)
Definition cleanup_parts (e : exn) (part1_path part2_path : path) : M bool :=
  print [Lit "  ❌ 分割失敗: "; ExnP e];;
  remove_if_exists part1_path;;
  remove_if_exists part2_path;;
  mret false.

Definition split_video (file_path : path) (output_dir : option path) : M bool :=
  let output_dir := default (parent file_path) output_dir in
  duration ← get_video_duration file_path;
  if (duration <=? 0)%float then mret false
  else
    let split_point := (duration / 2)%float in
    let part1_path := part_path output_dir file_path "_part1" in
    let part2_path := part_path output_dir file_path "_part2" in
    announce_plan duration split_point part1_path part2_path;;
    try_except
      (transcode_parts file_path split_point part1_path part2_path;;
       archive_original file_path;;
       mret true)
      (λ e, match e with
            | CalledProcessError _ =>
                Some (cleanup_parts e part1_path part2_path)
            | _ => None
            end).

(** Lines 146-151 of [scan_and_split]: the loop that fills
    [large_videos]. *)
Fixpoint collect_large_videos (paths : list path) (size_limit_mb : Q)
    (large_videos : list (path * Q)) : M (list (path * Q)) :=
  match paths with
  | [] => mret large_videos
  | file_path :: rest =>
      is_file ← read_fs (λ fs, FS.is_file fs file_path);
      if is_file
         && bool_decide (Str.lower (unicode_lower O) (suffix file_path)
                         ∈ VIDEO_EXTENSIONS)
      then
        size_mb ← get_file_size_mb file_path;
        if Qgtb size_mb size_limit_mb
        then collect_large_videos rest size_limit_mb
               (large_videos ++ [(file_path, size_mb)])
        else collect_large_videos rest size_limit_mb large_videos
      else collect_large_videos rest size_limit_mb large_videos
  end.

Definition scan_large_videos (folder : path) (size_limit_mb : Q)
  : M (list (path * Q)) :=
  paths ← read_fs (λ fs, FS.rglob fs folder);
  collect_large_videos paths size_limit_mb [].

(** Lines 160-161 of [scan_and_split]. *)
Definition announce_job (total : nat) (job : Z * (path * Q)) : M unit :=
  let '(i, (file_path, size_mb)) := job in
  print [Lit "["; IntP i; Lit "/"; IntP (Z.of_nat total); Lit "] 處理: ";
         Lit (name file_path)];;
  print [Lit "  📦 檔案大小: "; Num2f size_mb; Lit " MB"].

(** Lines 159-168 of [scan_and_split]: one turn of the job loop. *)
Definition process_one (total : nat) (job : Z * (path * Q)) : M unit :=
  announce_job total job;;
  success ← split_video job.2.1 None;
  if success : bool then print []
  else print [Lit ("  ⚠️ 跳過此檔案" +:+ Str.newline)].

Definition scan_and_split (folder : path) (size_limit_mb : Q) : M unit :=
  folder_exists ← read_fs (λ fs, FS.exists_ fs folder);
  if negb folder_exists
  then print [Lit "❌ 資料夾不存在: "; PathP folder]
  else
    print [Lit "🔍 掃描資料夾: "; PathP folder];;
    print [Lit "📏 檔案大小限制: "; NumP size_limit_mb; Lit " MB"];;
    print [Lit (Str.times "-" 50)];;
    large_videos ← scan_large_videos folder size_limit_mb;
    match large_videos with
    | [] => print [Lit "✅ 沒有發現大於限制的影片檔案"]
    | _ =>
        print [Lit "📊 發現 "; IntP (Z.of_nat (length large_videos));
               Lit " 個大於 "; NumP size_limit_mb;
               Lit (" MB 的影片:" +:+ Str.newline)];;
        for_each (enumerate large_videos 1)
                 (process_one (length large_videos));;
        print [Lit (Str.times "-" 50)];;
        print [Lit "🎉 處理完成!"]
    end.

Definition check_ffmpeg : M bool :=
  try_except
    (subprocess_run O true [Lit "ffmpeg"; Lit "-version"];; mret true)
    (λ e, match e with
          | CalledProcessError _ | FileNotFoundError => Some (mret false)
          | _ => None
          end).

Definition main : M unit :=
  print [Lit (Str.times "=" 50)];;
  print [Lit "🎬 影片分割程式"];;
  print [Lit (Str.times "=" 50)];;
  ok ← check_ffmpeg;
  if negb ok
  then
    print [Lit "❌ 錯誤: 找不到 ffmpeg"];;
    print [Lit "   請先安裝 ffmpeg: https://ffmpeg.org/download.html"];;
    print [Lit "   或使用 winget: winget install ffmpeg"];;
    raise (SystemExit 1)
  else
    print [Lit ("✅ ffmpeg 已安裝" +:+ Str.newline)];;
    scan_and_split TARGET_FOLDER SIZE_LIMIT_MB.

End WithOracle.

End Splitter.

(** ** enhance_video.py *)

Module Enhancer.

(** The constants [enhance_video.py] imports from [config.py], which
    is not part of the sources: they are a parameter of the program.
    Integer constants are [Z]; the fractional ones (sharpen amount,
    denoise strengths) only ever appear interpolated into an f-string
    and are kept as their [str()] text. *)
Record config := Config
  { INPUT_FOLDER : path;
    OUTPUT_FOLDER : path;
    TARGET_WIDTH : Z;
    TARGET_HEIGHT : Z;
    SCALE_ALGORITHM : string;
    SHARPEN_AMOUNT : string;
    SHARPEN_LUMA_X : Z;
    SHARPEN_LUMA_Y : Z;
    ENABLE_DENOISE : bool;
    DENOISE_LUMA_STRENGTH : string;
    DENOISE_CHROMA_STRENGTH : string;
    VIDEO_CODEC : string;
    ENCODE_PRESET : string;
    CRF_VALUE : Z;
    MAX_BITRATE : Z;
    AUDIO_CODEC : string;
    AUDIO_BITRATE : string;
    VIDEO_EXTENSIONS : gset string;
    OUTPUT_SUFFIX : string;
    OUTPUT_FORMAT : string }.

Section WithConfig.

Context (cfg : config) (O : oracle).

Definition check_ffmpeg : M bool :=
  try_except
    (subprocess_run O true [Lit "ffmpeg"; Lit "-version"];; mret true)
    (λ e, match e with
          | CalledProcessError _ | FileNotFoundError => Some (mret false)
          | _ => None
          end).

(** [get_video_info]: [None] is the empty dictionary. *)
Definition get_video_info (file_path : path) : M (option video_info) :=
  let cmd := [Lit "ffprobe"; Lit "-v"; Lit "error";
              Lit "-select_streams"; Lit "v:0";
              Lit "-show_entries"; Lit "stream=width,height,duration,bit_rate";
              Lit "-of"; Lit "json";
              PathP file_path] in
  try_except
    (result ← subprocess_run O true cmd;
     match parse_streams O (stdout result) with
     | Some info => mret info
     | None => raise ValueError
     end)
    (λ e, match e with
          | SystemExit _ => None
          | _ => Some (print [Lit "  ⚠️ 無法取得影片資訊: "; ExnP e];;
                       mret None)
          end).

Definition scale_filter : string :=
  "scale=" +:+ Str.of_int (TARGET_WIDTH cfg) +:+ ":"
    +:+ Str.of_int (TARGET_HEIGHT cfg) +:+ ":flags=" +:+ SCALE_ALGORITHM cfg.

Definition sharpen_filter : string :=
  "unsharp=" +:+ Str.of_int (SHARPEN_LUMA_X cfg) +:+ ":"
    +:+ Str.of_int (SHARPEN_LUMA_Y cfg) +:+ ":" +:+ SHARPEN_AMOUNT cfg +:+ ":"
    +:+ Str.of_int (SHARPEN_LUMA_X cfg) +:+ ":"
    +:+ Str.of_int (SHARPEN_LUMA_Y cfg) +:+ ":0".

Definition denoise_filter : string :=
  "hqdn3d=" +:+ DENOISE_LUMA_STRENGTH cfg +:+ ":"
    +:+ DENOISE_CHROMA_STRENGTH cfg +:+ ":"
    +:+ DENOISE_LUMA_STRENGTH cfg +:+ ":" +:+ DENOISE_CHROMA_STRENGTH cfg.

Definition build_filter_chain : string :=
  let filters := [] in
  let filters := filters ++ [scale_filter] in
  let filters := filters ++ [sharpen_filter] in
  let filters :=
    if ENABLE_DENOISE cfg then filters ++ [denoise_filter] else filters in
  Str.join "," filters.

(** The argument vector built by [enhance_video]. *)
Definition enhance_cmd (input_path output_path : path) : list piece :=
  let cmd := [Lit "ffmpeg"; Lit "-y";
              Lit "-i"; PathP input_path;
              Lit "-vf"; Lit build_filter_chain;
              Lit "-c:v"; Lit (VIDEO_CODEC cfg);
              Lit "-preset"; Lit (ENCODE_PRESET cfg);
              Lit "-crf"; Lit (Str.of_int (CRF_VALUE cfg));
              Lit "-c:a"; Lit (AUDIO_CODEC cfg);
              Lit "-b:a"; Lit (AUDIO_BITRATE cfg)] in
  let cmd :=
    if 0 <? MAX_BITRATE cfg
    then cmd ++ [Lit "-maxrate"; Lit (Str.of_int (MAX_BITRATE cfg) +:+ "k");
                 Lit "-bufsize"; Lit (Str.of_int (MAX_BITRATE cfg * 2) +:+ "k")]
    else cmd in
  cmd ++ [PathP output_path].

(** [stderr[-500:] if len(stderr) > 500 else stderr] *)
Definition stderr_tail (stderr : string) : string :=
  if (500 <? Str.len stderr)%nat then Str.last_chars 500 stderr
  else stderr.

Definition enhance_video (input_path output_path : path) : M bool :=
  let filter_chain := build_filter_chain in
  let cmd := enhance_cmd input_path output_path in
  try_except
    (print [Lit "  ⏳ 正在處理中..."];;
     print [Lit "     濾鏡: "; Lit filter_chain];;
     process ← subprocess_run O false cmd;
     if returncode process =? 0 then mret true
     else
       print [Lit "  ❌ FFmpeg 錯誤:"];;
       print [Lit (stderr_tail (stderr process))];;
       mret false)
    (λ e, match e with
          | CalledProcessError _ =>
              Some (print [Lit "  ❌ 處理失敗: "; ExnP e];; mret false)
          | _ => None
          end).

Definition get_output_filename (input_path : path) : path :=
  let stem := stem input_path in
  let ext := if bool_decide (OUTPUT_FORMAT cfg = EmptyString)
             then suffix input_path else OUTPUT_FORMAT cfg in
  joinpath (OUTPUT_FOLDER cfg) (stem +:+ OUTPUT_SUFFIX cfg +:+ ext).

Definition print_info (label_res label_rate : string) (info : video_info)
  : M unit :=
  print [Lit label_res; IntP (width info); Lit " x "; IntP (height info)];;
  if bitrate info =? 0 then mret tt
  else print [Lit label_rate; IntP (bitrate info); Lit " kbps"].

(** Lines 224-251 of [scan_and_enhance]: one turn of the job loop; the
    result is the job's contribution to (success_count, fail_count). *)
Definition process_one (total : nat) (job : Z * path) : M bool :=
  let '(i, video_path) := job in
  print [Lit Str.newline; Lit "["; IntP i; Lit "/"; IntP (Z.of_nat total);
         Lit "] 處理: "; Lit (name video_path)];;
  info ← get_video_info video_path;
  match info with
  | Some info => print_info "  📐 原始解析度: " "  📊 原始位元率: " info
  | None => mret tt
  end;;
  let output_path := get_output_filename video_path in
  print [Lit "  📁 輸出: "; Lit (name output_path)];;
  ok ← enhance_video video_path output_path;
  if ok : bool then
    output_info ← get_video_info output_path;
    match output_info with
    | Some output_info =>
        print [Lit "  ✅ 處理完成!"];;
        print_info "     輸出解析度: " "     輸出位元率: " output_info
    | None => print [Lit "  ✅ 處理完成!"]
    end;;
    mret true
  else mret false.

(** The job loop with its two counters. *)
Fixpoint process_all (total : nat) (jobs : list (Z * path))
    (success_count fail_count : Z) : M (Z * Z) :=
  match jobs with
  | [] => mret (success_count, fail_count)
  | job :: rest =>
      ok ← process_one total job;
      if ok : bool then process_all total rest (success_count + 1) fail_count
      else process_all total rest success_count (fail_count + 1)
  end.

Definition is_video (fs : filesystem) (file_path : path) : bool :=
  FS.is_file fs file_path
  && bool_decide (Str.lower (unicode_lower O) (suffix file_path)
                  ∈ VIDEO_EXTENSIONS cfg).

Definition scan_and_enhance : M unit :=
  let input_folder := INPUT_FOLDER cfg in
  let output_folder := OUTPUT_FOLDER cfg in
  input_exists ← read_fs (λ fs, FS.exists_ fs input_folder);
  if negb input_exists
  then
    update_fs (λ fs, FS.mkdir true false fs input_folder);;
    print [Lit "📁 已建立輸入資料夾: "; PathP input_folder];;
    print [Lit "   請將要處理的影片放入此資料夾後重新執行程式"]
  else
    update_fs (λ fs, FS.mkdir true true fs output_folder);;
    entries ← try_fs (λ fs, FS.iterdir fs input_folder);
    videos ← read_fs (λ fs, filter (λ p, is_video fs p = true) entries);
    match videos with
    | [] =>
        print [Lit "⚠️ 輸入資料夾中沒有找到影片檔案"];;
        print [Lit "   路徑: "; PathP input_folder];;
        print [Lit "   支援格式: ";
               Lit (Str.join ", " (elements (VIDEO_EXTENSIONS cfg)))]
    | _ =>
        print [Lit "📊 找到 "; IntP (Z.of_nat (length videos));
               Lit (" 個影片待處理" +:+ Str.newline)];;
        print [Lit "🎯 目標解析度: "; IntP (TARGET_WIDTH cfg); Lit " x ";
               IntP (TARGET_HEIGHT cfg)];;
        print [Lit "🔧 縮放算法: "; Lit (SCALE_ALGORITHM cfg)];;
        print [Lit "✨ 銳化強度: "; Lit (SHARPEN_AMOUNT cfg)];;
        print [Lit "🔇 降噪: ";
               Lit (if ENABLE_DENOISE cfg then "啟用" else "停用")];;
        print [Lit "📦 編碼品質 (CRF): "; IntP (CRF_VALUE cfg)];;
        print [Lit (Str.times "-" 50)];;
        counts ← process_all (length videos) (enumerate videos 1) 0 0;
        print [Lit (Str.newline +:+ Str.times "=" 50)];;
        print [Lit "🎉 處理完成!"];;
        print [Lit "   成功: "; IntP counts.1; Lit " 個"];;
        (if 0 <? counts.2
         then print [Lit "   失敗: "; IntP counts.2; Lit " 個"]
         else mret tt);;
        print [Lit Str.newline; Lit "📂 輸出資料夾: "; PathP output_folder]
    end.

Definition main : M unit :=
  print [Lit (Str.times "=" 50)];;
  print [Lit "🎬 影片畫質提升程式 (CPU 版)"];;
  print [Lit (Str.times "=" 50)];;
  ok ← check_ffmpeg;
  if negb ok
  then
    print [Lit (Str.newline +:+ "❌ 錯誤: 找不到 ffmpeg")];;
    print [Lit "   請先安裝 ffmpeg:"];;
    print [Lit "   方法1: winget install ffmpeg"];;
    print [Lit "   方法2: 從 https://ffmpeg.org/download.html 下載"];;
    print [Lit "   安裝後請確保 ffmpeg 在系統 PATH 中"];;
    raise (SystemExit 1)
  else
    print [Lit ("✅ FFmpeg 已安裝" +:+ Str.newline)];;
    scan_and_enhance.

End WithConfig.

End Enhancer.

(** ** Observing a run *)

(** The events a computation added when it took [w] to [w']. *)
Definition new_events (w w' : world) : list event :=
  drop (length (trace w)) (trace w').

(** Every event the computation adds satisfies [P], however it ends. *)
Definition emits {A} (P : event → Prop) (m : M A) : Prop :=
  ∀ w, ∃ l, trace (m w).2 = trace w ++ l ∧ Forall P l.

(** Every exception the computation can end with satisfies [P]. *)
Definition raises_only {A} (P : exn → Prop) (m : M A) : Prop :=
  ∀ w e w', m w = (Raise e, w') → P e.

(** The first external command among the events, with its outcome. *)
Definition first_run (l : list event) : option (list piece * outcome) :=
  head (omap (λ e, match e with
                   | Run argv o => Some (argv, o)
                   | Print _ => None
                   end) l).

(** The version check found a working transcoder. *)
Definition tool_available (o : outcome) : bool :=
  match o with
  | Completed c _ => returncode c =? 0
  | NotFound => false
  end.

(** An invocation of the transcoder on a file ([ffmpeg -y ...], as
    opposed to the [ffmpeg -version] of [check_ffmpeg]). *)
Definition is_transcoder_run (e : event) : bool :=
  match e with
  | Run (Lit "ffmpeg" :: Lit "-y" :: _) _ => true
  | _ => false
  end.

(** The exit code of a transcoder invocation that ran. *)
Definition transcoder_exit (e : event) : option Z :=
  match e with
  | Run (Lit "ffmpeg" :: Lit "-y" :: _) (Completed c _) => Some (returncode c)
  | _ => None
  end.

(** Some transcoder invocation among the events exited non-zero. *)
Definition transcode_failed (l : list event) : Prop :=
  ∃ e rc, e ∈ l ∧ transcoder_exit e = Some rc ∧ rc ≠ 0.

(** The file an external command works on: the argument after [-i] for
    the transcoder, the last argument for the inspector. *)
Definition input_of (argv : list piece) : option path :=
  match argv with
  | Lit "ffmpeg" :: Lit "-y" :: Lit "-i" :: PathP p :: _ => Some p
  | Lit "ffprobe" :: rest =>
      match List.last rest (Lit "") with
      | PathP p => Some p
      | _ => None
      end
  | _ => None
  end.

(** The file of the job an event starts: each split job begins with
    the duration probe of its file. *)
Definition job_started (e : event) : option path :=
  match e with
  | Run (Lit "ffprobe" :: rest) _ =>
      match List.last rest (Lit "") with
      | PathP p => Some p
      | _ => None
      end
  | _ => None
  end.

(** An event that starts no job and, if it is a command, works on
    the file [p]. *)
Definition within_job (p : path) (e : event) : Prop :=
  job_started e = None
  ∧ ∀ argv o, e = Run argv o → input_of argv = Some p.

(** The scan condition of the splitter, read off the file system. *)
Definition is_large_video (O : oracle) (fs : filesystem) (folder : path)
    (size_limit_mb : Q) (p : path) : Prop :=
  FS.is_dir fs folder = true ∧ below folder p
  ∧ ∃ n, fs !! p = Some (File n)
         ∧ Str.lower (unicode_lower O) (suffix p) ∈ Splitter.VIDEO_EXTENSIONS
         ∧ (size_limit_mb * inject_Z (1024 * 1024) < inject_Z n)%Q.

(** ** Sample runs *)

Module Sample.

Definition MiB : Z := 1024 * 1024.

Definition videos : path := ["videos"].
Definition movie : path := ["videos"; "movie.mp4"].
Definition clip : path := ["videos"; "clip.mkv"].
Definition part1 : path := ["videos"; "movie_part1.mp4"].
Definition part2 : path := ["videos"; "movie_part2.mp4"].
Definition archive : path := ["videos"; Splitter.ARCHIVE_FOLDER_NAME].
Definition archived_movie : path :=
  ["videos"; Splitter.ARCHIVE_FOLDER_NAME; "movie.mp4"].

(** A folder with one video of 500 MiB and a small text file. *)
Definition tree : filesystem :=
  list_to_map [([], Dir); (videos, Dir); (movie, File (500 * MiB));
               (["videos"; "notes.txt"], File 12)].

(** The same folder with a second large video, and a regular file
    where the archive folder would go. *)
Definition blocked_tree : filesystem :=
  <[archive := File 0]> (<[clip := File (300 * MiB)]> tree).

Definition start : world := World tree [].
Definition blocked_start : world := World blocked_tree [].

(** The folder with the second large video and nothing in the way. *)
Definition two_videos : world := World (<[clip := File (300 * MiB)]> tree) [].

(** Tools that answer by the program and its first option alone. *)
Definition spawn_with (probe transcode : outcome) (_ : world)
    (argv : list piece) : outcome :=
  match argv with
  | Lit "ffprobe" :: _ => probe
  | Lit "ffmpeg" :: Lit "-version" :: _ =>
      Completed (Completed_ 0 "ffmpeg version 6.0" "") None
  | Lit "ffmpeg" :: _ => transcode
  | _ => NotFound
  end.

Definition float_of (s : string) : option float :=
  if String.eqb s "3600.000000" then Some 3600%float else None.

(** The samples have names of ASCII characters only, so no other text
    is ever lower-cased in them. *)
Definition ascii_names (s : string) : string := s.

Definition one_hour : outcome :=
  Completed (Completed_ 0 "3600.000000" "") None.

(** The transcoder writes 250 MiB and exits 0. *)
Definition tools_ok : oracle :=
  Oracle (spawn_with one_hour
            (Completed (Completed_ 0 "" "") (Some (250 * MiB))))
         float_of (λ _, None) ascii_names.

(** The transcoder writes 1 MiB and exits 1. *)
Definition transcoder_fails : oracle :=
  Oracle (spawn_with one_hour
            (Completed (Completed_ 1 "" "Conversion failed!") (Some MiB)))
         float_of (λ _, None) ascii_names.

(** The inspector knows no duration. *)
Definition no_duration : oracle :=
  Oracle (spawn_with (Completed (Completed_ 0 "N/A" "") None) NotFound)
         float_of (λ _, None) ascii_names.

(** An interpreter whose tables lower-case the Kelvin sign (U+212A),
    as Python's do, and a video whose extension is written with it. *)
Definition kelvin_lower (s : string) : string :=
  if String.eqb s ".mKv" then ".mkv" else s.

Definition kelvin_tools : oracle :=
  Oracle (spawn_with one_hour
            (Completed (Completed_ 0 "" "") (Some (250 * MiB))))
         float_of (λ _, None) kelvin_lower.

Definition kelvin_clip : path := ["videos"; "clip.mKv"].

Definition kelvin_start : world :=
  World (<[kelvin_clip := File (500 * MiB)]> tree) [].

(** The inspector is not installed; the transcoder is. *)
Definition inspector_missing : oracle :=
  Oracle (spawn_with NotFound
            (Completed (Completed_ 0 "" "") (Some (250 * MiB))))
         float_of (λ _, None) ascii_names.

(** An enhancement profile and a studio with one input video. *)
Definition profile : Enhancer.config :=
  Enhancer.Config ["input"] ["output"] 3840 2160 "lanczos" "1.0" 5 5 false
    "4" "3" "libx264" "slow" 18 0 "aac" "192k" {[ ".mp4" ]} "_enhanced" ".mp4".

Definition studio : world :=
  World (list_to_map [([], Dir); (["input"], Dir); (["output"], Dir);
                      (["input"; "a.mp4"], File (10 * MiB))]) [].

Definition enhanced : path := ["output"; "a_enhanced.mp4"].

End Sample.

(** ** Observing the file system *)

(** Whatever the computation does, and however it ends, it takes the
    file system to one that [R] relates to it. *)
Definition evolves {A : Type} (R : filesystem → filesystem → Prop) (m : M A) : Prop :=
  ∀ w, R (fs w) (fs (m w).2).

(** The paths the split job of the candidate [c] can write, remove or
    move: [c] and what lies below it, its two part paths, and the
    archive folder beside it with what lies below. *)
Definition touched_by_job (c q : path) : Prop :=
  c `prefix_of` q
  ∨ q = Splitter.part_path (parent c) c "_part1"
  ∨ q = Splitter.part_path (parent c) c "_part2"
  ∨ joinpath (parent c) Splitter.ARCHIVE_FOLDER_NAME `prefix_of` q.

(** The entry at [q] is what it was. *)
Definition same_at (q : path) (fs fs' : filesystem) : Prop :=
  fs' !! q = fs !! q.

(** If [q] held [x], it still does. *)
Definition kept_at (q : path) (x : node) (fs fs' : filesystem) : Prop :=
  fs !! q = Some x → fs' !! q = Some x.

(** An absent entry stays absent. *)
Definition gone_at (q : path) (fs fs' : filesystem) : Prop :=
  fs !! q = None → fs' !! q = None.

(** Nothing is removed, and nothing is changed but regular files
    directly in [out], which may be replaced by regular files. *)
Definition overwrites_only_in (out : path) (fs fs' : filesystem) : Prop :=
  ∀ q x, fs !! q = Some x →
         fs' !! q = Some x
         ∨ (parent q = out ∧ ∃ n m, x = File n ∧ fs' !! q = Some (File m)).

(** ** export_all_code.py *)

Module ExportCode.

(** [s.replace(old, new)] for one-character [old] and [new]. *)
Fixpoint replace_char (old new : ascii) (s : string) : string :=
  match s with
  | EmptyString => EmptyString
  | String a s' =>
      String (if Ascii.eqb a old then new else a) (replace_char old new s')
  end.

(** The anchor of a file, lines 45 and 52:
    [str(rel_path).replace("/", "-").replace("\\", "-").replace(".", "-")]. *)
Definition anchor_of (rel_path : string) : string :=
  replace_char "." "-"
    (replace_char "\" "-" (replace_char "/" "-" rel_path)).

(** [s.endswith('\n')] *)
Fixpoint ends_with_newline (s : string) : bool :=
  match s with
  | EmptyString => false
  | String a EmptyString => Ascii.eqb a (ascii_of_nat 10)
  | String _ s' => ends_with_newline s'
  end.

(** What reading one source file gives: its text, or an exception with
    its message. *)
Inductive read_result :=
  | Content (text : string)
  | Unreadable (message : string).

(** How [collect_py_files_to_md] ends: the output file is written with
    these chunks, or the unassigned local [content] is read. *)
Inductive export_result :=
  | Written (md_content : list string)
  | UnboundLocalError.

(** Lines 43-46: the table of contents. *)
Fixpoint toc (py_files : list (string * read_result)) (i : Z) : list string :=
  match py_files with
  | [] => []
  | (rel_path, _) :: rest =>
      (Str.of_int i +:+ ". [" +:+ rel_path +:+ "](#" +:+ anchor_of rel_path
         +:+ ")" +:+ Str.newline)
      :: toc rest (i + 1)
  end.

(** Lines 50-68: the loop over the files; [content] is the local
    variable of that name, [None] while it is unassigned. *)
Fixpoint file_sections (py_files : list (string * read_result))
    (content : option string) (md_content : list string) : export_result :=
  match py_files with
  | [] => Written md_content
  | (rel_path, read) :: rest =>
      let anchor := anchor_of rel_path in
      let md_content :=
        md_content
          ++ [Str.newline +:+ "## " +:+ rel_path +:+ " {#" +:+ anchor +:+ "}"
                +:+ Str.newline;
              "**路徑**: `" +:+ rel_path +:+ "`" +:+ Str.newline +:+ Str.newline;
              "```python" +:+ Str.newline] in
      let '(content, md_content) :=
        match read with
        | Content text => (Some text, md_content ++ [text])
        | Unreadable e =>
            (content,
             md_content ++ ["# 讀取失敗: " +:+ e +:+ Str.newline])
        end in
      match content with
      | None => UnboundLocalError
      | Some text =>
          let md_content :=
            if ends_with_newline text then md_content
            else md_content ++ [Str.newline] in
          file_sections rest (Some text)
            (md_content ++ ["```" +:+ Str.newline;
                            Str.newline +:+ "---" +:+ Str.newline])
      end
  end.

(** [collect_py_files_to_md]: [source_name] is [source_path.name],
    [generated] the time stamp of line 37 and [py_files] the sorted
    [*.py] files below the source folder, each with its path relative
    to the folder as a string and with what reading it gives. *)
Definition collect_py_files_to_md (source_name generated : string)
    (py_files : list (string * read_result)) : export_result :=
  let md_content :=
    ["# " +:+ source_name +:+ " 程式碼整合" +:+ Str.newline;
     "產生時間: " +:+ generated +:+ Str.newline;
     "共 " +:+ Str.of_int (Z.of_nat (length py_files)) +:+ " 個檔案"
       +:+ Str.newline;
     "---" +:+ Str.newline;
     "## 目錄" +:+ Str.newline] in
  let md_content := md_content ++ toc py_files 1 in
  let md_content := md_content ++ [Str.newline +:+ "---" +:+ Str.newline] in
  file_sections py_files None md_content.

End ExportCode.

(** ** move_data.py *)

Module MoveData.

(** [format_view_count_simple]; [//] is floor division. *)
Definition format_view_count_simple (count : Z) : string :=
  if 1000000 <=? count then Str.of_int (count / 1000000) +:+ "M"
  else if 1000 <=? count then Str.of_int (count / 1000) +:+ "K"
  else Str.of_int count.

(** [min(l)] and [max(l)] of a non-empty list of integers. *)
Definition py_min (first : Z) (rest : list Z) : Z := fold_left Z.min rest first.
Definition py_max (first : Z) (rest : list Z) : Z := fold_left Z.max rest first.

(** An item of [analysis_results.json]: an object with integer fields. *)
Abbreviation item := (gmap string Z).

(** [get_view_count_range]; [load] is [json.load] on the opened file,
    with the exception it or [open] raises. *)
Definition get_view_count_range (load : path → result (list item))
    (json_path : path) : result (Z * Z) :=
  match load json_path with
  | Raise e => Raise e
  | Ok data =>
      let view_counts := omap (λ it : item, it !! "viewCount") data in
      match view_counts with
      | [] => Raise ValueError
      | first :: rest => Ok (py_min first rest, py_max first rest)
      end
  end.

(** [create_target_folder_name]; [date_str] is
    [datetime.now().strftime(DATE_FORMAT)]. *)
Definition create_target_folder_name (date_str : string)
    (min_views max_views : Z) : string :=
  let min_str := format_view_count_simple min_views in
  let max_str := format_view_count_simple max_views in
  date_str +:+ "_" +:+ min_str +:+ "-" +:+ max_str.

(** [s.rfind(c)] as Python gives it, [-1] when [c] does not occur. *)
Definition rfind_index (c : ascii) (s : string) : Z :=
  match Str.rfind c s with
  | Some i => Z.of_nat i
  | None => -1
  end.

Fixpoint all_dots (s : string) : bool :=
  match s with
  | EmptyString => true
  | String a s' => Ascii.eqb a "." && all_dots s'
  end.

(** [os.path.splitext(p)[1]], by [genericpath._splitext]: the text
    from the last dot on, if that dot comes after the last separator
    and after some character of the file name that is no dot; [sep]
    and [altsep] are those of the platform. *)
Definition splitext_ext (sep : ascii) (altsep : option ascii) (p : string)
  : string :=
  let sepIndex := rfind_index sep p in
  let sepIndex :=
    match altsep with
    | Some a => Z.max sepIndex (rfind_index a p)
    | None => sepIndex
    end in
  let dotIndex := rfind_index "." p in
  if sepIndex <? dotIndex then
    let filenameIndex := sepIndex + 1 in
    let leading := Str.take (Z.to_nat (dotIndex - filenameIndex))
                     (Str.drop (Z.to_nat filenameIndex) p) in
    if all_dots leading then EmptyString
    else Str.drop (Z.to_nat dotIndex) p
  else EmptyString.

(** [is_video_file]; [VIDEO_EXTENSIONS] comes from [config.py], which
    is not part of the sources, and [unicode_lower] is [s.lower()] for
    text with a character outside ASCII. *)
Definition is_video_file (unicode_lower : string → string) (sep : ascii)
    (altsep : option ascii) (VIDEO_EXTENSIONS : gset string)
    (filename : string) : bool :=
  let ext := Str.lower unicode_lower (splitext_ext sep altsep filename) in
  bool_decide (ext ∈ VIDEO_EXTENSIONS).

(** *** The move itself *)

(** [f"{n:,}"]: the digits of an integer in groups of three. *)
Fixpoint group_rev (rev_digits : list ascii) : list ascii :=
  match rev_digits with
  | a :: b :: c :: rest =>
      match rest with
      | [] => [a; b; c]
      | _ :: _ => a :: b :: c :: ","%char :: group_rev rest
      end
  | _ => rev_digits
  end.

Definition with_commas (n : Z) : string :=
  let digits := list_ascii_of_string (Str.of_int (Z.abs n)) in
  let grouped := string_of_list_ascii (rev (group_rev (rev digits))) in
  if n <? 0 then "-" +:+ grouped else grouped.

(** [os.listdir(p)]: the names of the entries of a directory. *)
Definition listdir (fs : filesystem) (p : path) : result (list string) :=
  match FS.iterdir fs p with
  | Ok entries => Ok (name <$> entries)
  | Raise e => Raise e
  end.

(** [os.rmdir(p)]: removes an empty directory; a directory that is not
    empty is refused ([ENOTEMPTY], or [EEXIST] as here). *)
Definition rmdir (fs : filesystem) (p : path) : result filesystem :=
  match fs !! p with
  | Some Dir =>
      match filter (λ q, below p q) (map_to_list fs).*1 with
      | [] => Ok (delete p fs)
      | _ :: _ => Raise FileExistsError
      end
  | Some (File _) => Raise NotADirectoryError
  | None => Raise FileNotFoundError
  end.

(** The constants [move_data.py] imports from [config.py], which is
    not part of the sources; the names of folders and of the analysis
    file are single path components. *)
Record config := Config
  { SOURCE_FOLDER : path;
    TARGET_ROOT_FOLDER : path;
    VIDEO_EXTENSIONS : gset string;
    VIDEO_SUBFOLDER_NAME : string;
    DATA_SUBFOLDER_NAME : string;
    CLEAR_SOURCE_AFTER_MOVE : bool;
    ANALYSIS_JSON_FILENAME : string }.

(** What the program takes from its surroundings: the content of the
    analysis file as [json.load] gives it, the date
    [datetime.now().strftime(DATE_FORMAT)] (a single path component),
    the separators of [os.path], and [s.lower()] for text with a
    character outside ASCII. *)
Record environment := Environment
  { load : path → result (list item);
    today : string;
    sep : ascii;
    altsep : option ascii;
    to_lower : string → string }.

(** The dictionary [stats]. *)
Record stats := Stats
  { videos_moved : Z;
    data_folders_moved : Z;
    files_moved : Z;
    target_folder : path }.

(** A loop that carries a value from turn to turn. *)
Fixpoint for_fold {A S : Type} (l : list A) (body : A → S → M S) (s : S)
  : M S :=
  match l with
  | [] => mret s
  | x :: rest => s' ← body x s; for_fold rest body s'
  end.

Section WithConfig.

Context (cfg : config) (E : environment).

(** Lines 206-220: one file of a subfolder. *)
Definition move_one_file (video_folder data_subfolder item_path : path)
    (file : string) (st : stats) : M stats :=
  let file_path := joinpath item_path file in
  is_file ← read_fs (λ fs, FS.is_file fs file_path);
  if is_file : bool then
    if is_video_file (to_lower E) (sep E) (altsep E) (VIDEO_EXTENSIONS cfg)
         file then
      let dest_path := joinpath video_folder file in
      update_fs (λ fs, FS.shutil_move fs file_path dest_path);;
      print [Lit "🎬 搬移影片: "; Lit file; Lit " -> Video/"];;
      mret (Stats (videos_moved st + 1) (data_folders_moved st)
                  (files_moved st) (target_folder st))
    else
      let dest_path := joinpath data_subfolder file in
      update_fs (λ fs, FS.shutil_move fs file_path dest_path);;
      mret (Stats (videos_moved st) (data_folders_moved st)
                  (files_moved st + 1) (target_folder st))
  else mret st.

(** Lines 188-226: one entry of the source folder. *)
Definition move_item (source_folder video_folder data_folder : path)
    (item : string) (st : stats) : M stats :=
  let item_path := joinpath source_folder item in
  if bool_decide (item = ANALYSIS_JSON_FILENAME cfg) then
    let dest_path := joinpath data_folder item in
    update_fs (λ fs, FS.shutil_move fs item_path dest_path);;
    print [Lit "📄 搬移 "; Lit item; Lit " -> DATA/"];;
    mret (Stats (videos_moved st) (data_folders_moved st)
                (files_moved st + 1) (target_folder st))
  else
    is_dir ← read_fs (λ fs, FS.is_dir fs item_path);
    if is_dir : bool then
      let data_subfolder := joinpath data_folder item in
      update_fs (λ fs, FS.mkdir true true fs data_subfolder);;
      files ← try_fs (λ fs, listdir fs item_path);
      st ← for_fold files
             (move_one_file video_folder data_subfolder item_path) st;
      let st := Stats (videos_moved st) (data_folders_moved st + 1)
                      (files_moved st) (target_folder st) in
      remaining ← try_fs (λ fs, listdir fs item_path);
      match remaining with
      | [] => update_fs (λ fs, rmdir fs item_path)
      | _ :: _ => mret tt
      end;;
      mret st
    else mret st.

(** [move_data]; [os.makedirs] is [FS.mkdir] with [parents] set: the
    missing ancestors are made, then the directory itself. *)
Definition move_data (source_folder target_root : path) : M stats :=
  let st := Stats 0 0 0 [] in
  source_exists ← read_fs (λ fs, FS.exists_ fs source_folder);
  if negb source_exists then raise FileNotFoundError
  else
    target_exists ← read_fs (λ fs, FS.exists_ fs target_root);
    if negb target_exists then raise FileNotFoundError
    else
      let json_path := joinpath source_folder (ANALYSIS_JSON_FILENAME cfg) in
      json_exists ← read_fs (λ fs, FS.exists_ fs json_path);
      if negb json_exists then raise FileNotFoundError
      else
        range ← try_fs (λ _, get_view_count_range (load E) json_path);
        let '(min_views, max_views) := range in
        print [Lit "📊 觀看數範圍: "; Lit (with_commas min_views); Lit " ~ ";
               Lit (with_commas max_views)];;
        let folder_name :=
          create_target_folder_name (today E) min_views max_views in
        let target_folder := joinpath target_root folder_name in
        folder_exists ← read_fs (λ fs, FS.exists_ fs target_folder);
        (if folder_exists : bool
         then print [Lit "⚠️  目標資料夾已存在，將繼續使用: "; PathP target_folder]
         else
           update_fs (λ fs, FS.mkdir true false fs target_folder);;
           print [Lit "📁 建立目標資料夾: "; PathP target_folder]);;
        let st := Stats (videos_moved st) (data_folders_moved st)
                        (files_moved st) target_folder in
        let video_folder := joinpath target_folder (VIDEO_SUBFOLDER_NAME cfg) in
        let data_folder := joinpath target_folder (DATA_SUBFOLDER_NAME cfg) in
        update_fs (λ fs, FS.mkdir true true fs video_folder);;
        update_fs (λ fs, FS.mkdir true true fs data_folder);;
        print [Lit "📁 建立子資料夾: "; Lit (VIDEO_SUBFOLDER_NAME cfg); Lit ", ";
               Lit (DATA_SUBFOLDER_NAME cfg)];;
        items ← try_fs (λ fs, listdir fs source_folder);
        st ← for_fold items (move_item source_folder video_folder data_folder)
               st;
        print [Lit (Str.newline +:+ "✅ 搬移完成!")];;
        print [Lit "   - 影片: "; IntP (videos_moved st); Lit " 個"];;
        print [Lit "   - 資料夾: "; IntP (data_folders_moved st); Lit " 個"];;
        print [Lit "   - 其他檔案: "; IntP (files_moved st); Lit " 個"];;
        mret st.

(** [main]; its result is the exit status of the program. *)
Definition main : M Z :=
  print [Lit (Str.times "=" 60)];;
  print [Lit "📦 YouTube 分析資料搬移程式"];;
  print [Lit (Str.times "=" 60)];;
  print [Lit (Str.newline +:+ "來源: "); PathP (SOURCE_FOLDER cfg)];;
  print [Lit "目標: "; PathP (TARGET_ROOT_FOLDER cfg); Lit Str.newline];;
  try_except
    (st ← move_data (SOURCE_FOLDER cfg) (TARGET_ROOT_FOLDER cfg);
     (if CLEAR_SOURCE_AFTER_MOVE cfg then
        remaining ← try_fs (λ fs, listdir fs (SOURCE_FOLDER cfg));
        match remaining with
        | [] => print [Lit (Str.newline +:+ "🧹 來源資料夾已清空")]
        | _ :: _ =>
            print [Lit (Str.newline +:+ "⚠️  來源資料夾中仍有 ");
                   IntP (Z.of_nat (length remaining)); Lit " 個項目未搬移"]
        end
      else mret tt);;
     print [Lit (Str.newline +:+ "📍 目標資料夾: "); PathP (target_folder st)];;
     mret 0)
    (λ e, match e with
          | SystemExit _ => None
          | _ => Some (print [Lit (Str.newline +:+ "❌ 錯誤: "); ExnP e];;
                       mret 1)
          end).

End WithConfig.

End MoveData.

(** ** More sample runs *)

Module Fixtures.

(** The transcoder is installed, the inspector is not. *)
Definition no_inspector : oracle :=
  Oracle (Sample.spawn_with NotFound
            (Completed (Completed_ 0 "" "") (Some (250 * Sample.MiB))))
         Sample.float_of (λ _, None) Sample.ascii_names.

Definition notes : path := ["videos"; "notes.txt"].

(** A machine with nothing but its root directory. *)
Definition bare : world := World {[ [] := Dir ]} [].

(** One source file that lacks its last newline. *)
Definition one_file : list (string * ExportCode.read_result) :=
  [("pkg/a.py", ExportCode.Content "x = 1")].

(** The data mover: its constants, an analysis file of three items of
    which one has no view count, and a source folder of two channels. *)
Definition mover_config : MoveData.config :=
  MoveData.Config ["src"] ["out"] {[ ".mp4" ]} "Video" "DATA" true
    "analysis_results.json".

Definition mover_env : MoveData.environment :=
  MoveData.Environment
    (λ _, Ok [ {[ "viewCount" := 1500 ]}; ∅; {[ "viewCount" := 2100000 ]} ])
    "251217" "/" None Sample.ascii_names.

Definition export : world :=
  World (list_to_map
           [([], Dir); (["src"], Dir); (["out"], Dir);
            (["src"; "analysis_results.json"], File 10);
            (["src"; "ch1"], Dir); (["src"; "ch1"; "v.mp4"], File 100);
            (["src"; "ch1"; "info.txt"], File 5);
            (["src"; "ch1"; "deep"], Dir);
            (["src"; "ch1"; "deep"; "x.txt"], File 1);
            (["src"; "ch2"], Dir); (["src"; "ch2"; "w.mp4"], File 200);
            (["src"; "readme.txt"], File 7)])
        [].

(** The sample export when the target folder of the day holds a video
    called [v.mp4] already. *)
Definition taken : world :=
  World (<[ ["out"; "251217_1K-2M"; "Video"; "v.mp4"] := File 999 ]>
           (<[ ["out"; "251217_1K-2M"; "Video"] := Dir ]>
              (<[ ["out"; "251217_1K-2M"] := Dir ]> (fs export))))
        [].

End Fixtures.

(** * Properties *)

(** ** Strings and paths *)

Module StrFacts.

Import Str.

Lemma app_cons a s t : String a s +:+ t = String a (s +:+ t).
Proof. reflexivity. Qed.

Lemma app_assoc s t u : (s +:+ t) +:+ u = s +:+ t +:+ u.
Proof. induction s as [|a s IH]; [done|]. by rewrite !app_cons, IH. Qed.

Lemma app_nil_r s : s +:+ "" = s.
Proof. induction s as [|a s IH]; [done|]. by rewrite app_cons, IH. Qed.

Lemma length_app s t :
  String.length (s +:+ t) = (String.length s + String.length t)%nat.
Proof. induction s as [|a s IH]; [done|]. rewrite app_cons. simpl. by rewrite IH. Qed.

Lemma take_drop i s : take i s +:+ drop i s = s.
Proof.
  revert s. induction i as [|i IH]; intros [|a s]; try done.
  simpl. by rewrite app_cons, IH.
Qed.

Lemma length_drop i s : String.length (drop i s) = (String.length s - i)%nat.
Proof. revert s. induction i as [|i IH]; intros [|a s]; simpl; auto with lia. Qed.

Lemma length_take i s :
  (i ≤ String.length s)%nat → String.length (take i s) = i.
Proof.
  revert s. induction i as [|i IH]; intros [|a s] Hi; simpl in *; auto with lia.
Qed.

Lemma rfind_lt c s i : rfind c s = Some i → (i < String.length s)%nat.
Proof.
  revert i. induction s as [|a s IH]; intros i; simpl; [done|].
  destruct (rfind c s) as [j|].
  - intros [= <-]. specialize (IH j eq_refl). lia.
  - destruct (Ascii.eqb a c); intros [= <-]. lia.
Qed.

Lemma rfind_app c s t :
  rfind c (s +:+ t) =
    match rfind c t with
    | Some j => Some (String.length s + j)%nat
    | None => rfind c s
    end.
Proof.
  induction s as [|a s IH].
  - change ("" +:+ t) with t. by destruct (rfind c t).
  - rewrite app_cons. simpl. rewrite IH. by destruct (rfind c t).
Qed.

(** The slice that starts at the last occurrence holds no later one. *)
Lemma rfind_drop c s i : rfind c s = Some i → rfind c (drop i s) = Some O.
Proof.
  revert i. induction s as [|a s IH]; intros i; simpl; [done|].
  destruct (rfind c s) as [j|] eqn:Hj.
  - intros [= <-]. simpl. by apply IH.
  - destruct (Ascii.eqb a c) eqn:Ha; intros [= <-]. simpl. by rewrite Hj, Ha.
Qed.

Lemma lower_empty (unicode_lower : string → string) :
  lower unicode_lower "" = "".
Proof. reflexivity. Qed.

(** Dropping characters takes that many off the length. *)
Lemma len_drop_chars (i : nat) (s : string) :
  len (drop_chars i s) = (len s - i)%nat.
Proof.
  revert i. induction s as [|a s IH]; intros i; [done|].
  cbn [drop_chars len]. destruct (is_continuation a) eqn:Ha; [apply IH|].
  destruct i as [|i]; [cbn [len]; rewrite Ha; lia|].
  rewrite IH. lia.
Qed.

(** What is left is an end of the text. *)
Lemma drop_chars_end (i : nat) (s : string) :
  ∃ dropped, s = dropped +:+ drop_chars i s.
Proof.
  revert i. induction s as [|a s IH]; intros i; [by exists ""|].
  cbn [drop_chars]. destruct (is_continuation a).
  - destruct (IH i) as [d Hd]. exists (String a d).
    rewrite app_cons. by rewrite <- Hd.
  - destruct i as [|i]; [by exists ""|].
    destruct (IH i) as [d Hd]. exists (String a d).
    rewrite app_cons. by rewrite <- Hd.
Qed.

(** In text of ASCII characters every byte is a character. *)
Lemma len_ascii (s : string) : is_ascii s = true → len s = String.length s.
Proof.
  induction s as [|a s IH]; [done|]. cbn [is_ascii len String.length].
  intros [Ha Hs]%andb_true_iff. unfold is_continuation.
  apply Nat.ltb_lt in Ha.
  replace (128 <=? nat_of_ascii a)%nat with false
    by (symmetry; apply Nat.leb_gt; lia).
  cbn [andb]. by rewrite IH.
Qed.

End StrFacts.

Module PathFacts.

Import Str StrFacts.

Lemma name_joinpath d x : name (joinpath d x) = x.
Proof. unfold name, joinpath. apply last_last. Qed.

Lemma parent_joinpath d x : parent (joinpath d x) = d.
Proof. unfold parent, joinpath. apply removelast_last. Qed.

Lemma stem_suffix nm : stem_of_name nm +:+ suffix_of_name nm = nm.
Proof.
  unfold stem_of_name, suffix_of_name.
  destruct (rfind "." nm) as [i|]; [|apply app_nil_r].
  destruct (_ && _); [apply take_drop | apply app_nil_r].
Qed.

(** A name with a tag spliced in before its suffix is a different name. *)
Lemma tagged_name_ne nm tag :
  tag ≠ "" → stem_of_name nm +:+ tag +:+ suffix_of_name nm ≠ nm.
Proof.
  intros Htag Heq. apply (f_equal String.length) in Heq.
  rewrite <- (stem_suffix nm) in Heq at 3. rewrite !length_app in Heq.
  destruct tag; [done|]. simpl in Heq. lia.
Qed.

(** A non-empty suffix starts at the only dot it holds and has at
    least one character after it; the stem before it is not empty. *)
Lemma suffix_shape nm :
  suffix_of_name nm ≠ "" →
  rfind "." (suffix_of_name nm) = Some O
  ∧ (2 ≤ String.length (suffix_of_name nm))%nat
  ∧ (1 ≤ String.length (stem_of_name nm))%nat.
Proof.
  unfold suffix_of_name, stem_of_name.
  destruct (rfind "." nm) as [i|] eqn:Hi; [|done].
  destruct (_ && _) eqn:Hc; [|done]. intros _.
  apply andb_true_iff in Hc as [H0 H1].
  apply Nat.ltb_lt in H0. apply Nat.ltb_lt in H1.
  split; [by apply rfind_drop|]. rewrite length_drop, length_take; lia.
Qed.

(** Splicing a dot-free tag in before a non-empty suffix keeps the
    suffix. *)
Lemma suffix_tagged nm tag :
  suffix_of_name nm ≠ "" → rfind "." tag = None →
  suffix_of_name (stem_of_name nm +:+ tag +:+ suffix_of_name nm)
  = suffix_of_name nm.
Proof.
  intros Hne Htag. destruct (suffix_shape nm Hne) as (Hdot & Hlen & Hstem).
  set (sfx := suffix_of_name nm) in *. set (stm := stem_of_name nm) in *.
  unfold suffix_of_name at 1.
  rewrite !rfind_app, Hdot. rewrite !length_app.
  set (i := (String.length stm + (String.length tag + 0))%nat).
  replace ((0 <? i)%nat) with true by (symmetry; apply Nat.ltb_lt; lia).
  replace (i <? String.length stm + (String.length tag + String.length sfx) - 1)%nat
    with true by (symmetry; apply Nat.ltb_lt; lia).
  simpl. rewrite <- app_assoc.
  replace i with (String.length (stm +:+ tag)) by (rewrite length_app; lia).
  generalize (stm +:+ tag). intros s. induction s as [|a s IH]; [done|].
  by rewrite app_cons.
Qed.

Lemma part_names_differ stm sfx :
  stm +:+ "_part1" +:+ sfx ≠ stm +:+ "_part2" +:+ sfx.
Proof. intros Heq. by apply (inj _) in Heq. Qed.

(** A path with a last component is its parent joined with its name. *)
Lemma joinpath_parent_name (p : path) :
  p ≠ [] → joinpath (parent p) (name p) = p.
Proof.
  intros Hp. unfold joinpath, parent, name. symmetry.
  by apply app_removelast_last.
Qed.

Lemma length_joinpath (p : path) (x : string) :
  length (joinpath p x) = S (length p).
Proof. unfold joinpath. rewrite List.length_app. simpl. lia. Qed.

Lemma below_nonempty (folder p : path) : below folder p → p ≠ [].
Proof.
  intros [[k ->] Hne] Hnil. apply app_eq_nil in Hnil as [-> ->]. done.
Qed.

(** The folder of a file below [folder] is [folder] or below it. *)
Lemma below_parent (folder p : path) :
  below folder p → folder `prefix_of` parent p.
Proof.
  intros [[k ->] Hne]. unfold parent.
  destruct k as [|x k]; [by rewrite List.app_nil_r in Hne|].
  rewrite removelast_app by done. by apply prefix_app_r.
Qed.

Lemma below_joinpath (folder q : path) (x : string) :
  folder `prefix_of` q → below folder (joinpath q x).
Proof.
  intros Hpre. split; [by apply prefix_app_r|].
  intros Heq. apply prefix_length in Hpre.
  apply (f_equal length) in Heq. rewrite length_joinpath in Heq. lia.
Qed.

Lemma prefix_joinpath (folder q : path) (x : string) :
  folder `prefix_of` q → folder `prefix_of` joinpath q x.
Proof. apply prefix_app_r. Qed.

Lemma suffix_joinpath (q : path) (x : string) :
  suffix (joinpath q x) = suffix_of_name x.
Proof. unfold suffix. by rewrite name_joinpath. Qed.

End PathFacts.

(** ** The file system operations *)

Module FSFacts.

Import FS.

Lemma write_file_lookup_ne (fs : filesystem) (p : path) (n : Z) (q : path) :
  q ≠ p → write_file fs p n !! q = fs !! q.
Proof.
  intros Hne. unfold write_file. destruct (_ && _); [|done].
  by rewrite lookup_insert_ne.
Qed.

(** A write never makes or unmakes a directory. *)
Lemma write_file_is_dir (fs : filesystem) (p : path) (n : Z) (q : path) :
  is_dir (write_file fs p n) q = is_dir fs q.
Proof.
  unfold write_file. destruct (is_dir fs (parent p) && negb (is_dir fs p)) eqn:Hc;
    [|done].
  apply andb_true_iff in Hc as [_ Hp]. apply negb_true_iff in Hp.
  unfold is_dir in *. destruct (decide (p = q)) as [->|Hne].
  - rewrite lookup_insert_eq. by rewrite Hp.
  - by rewrite lookup_insert_ne.
Qed.

Lemma write_file_lookup (fs : filesystem) (p : path) (n : Z) :
  write_file fs p n !! p = Some (File n) ∨ write_file fs p n !! p = fs !! p.
Proof.
  unfold write_file. destruct (_ && _); [left|by right].
  by rewrite lookup_insert_eq.
Qed.

Lemma written_fs_lookup_ne (argv : list piece) (wr : option Z)
    (fs : filesystem) (q : path) :
  written_path argv ≠ Some q → written_fs argv wr fs !! q = fs !! q.
Proof.
  intros Hne. unfold written_fs. destruct (written_path argv) as [p|]; [|done].
  destruct wr; [|done]. apply write_file_lookup_ne. congruence.
Qed.

Lemma written_fs_is_dir (argv : list piece) (wr : option Z)
    (fs : filesystem) (q : path) :
  is_dir (written_fs argv wr fs) q = is_dir fs q.
Proof.
  unfold written_fs. destruct (written_path argv); [|done].
  destruct wr; [|done]. apply write_file_is_dir.
Qed.

(** A command removes nothing. *)
Lemma written_fs_keeps (argv : list piece) (wr : option Z)
    (fs : filesystem) (p : path) :
  is_Some (fs !! p) → is_Some (written_fs argv wr fs !! p).
Proof.
  intros Hp. unfold written_fs. destruct (written_path argv) as [q|]; [|done].
  destruct wr as [n|]; [|done]. unfold write_file.
  destruct (_ && _); [|done]. destruct (decide (q = p)) as [->|Hne].
  - by rewrite lookup_insert_eq.
  - by rewrite lookup_insert_ne.
Qed.

Lemma written_fs_no_output (argv : list piece) (wr : option Z)
    (fs : filesystem) :
  written_path argv = None → written_fs argv wr fs = fs.
Proof. intros H. unfold written_fs. by rewrite H. Qed.

Lemma is_dir_false_delete (fs : filesystem) (p q : path) :
  is_dir (delete p fs) q = false ∨ is_dir (delete p fs) q = is_dir fs q.
Proof.
  unfold is_dir. destruct (decide (p = q)) as [->|Hne].
  - left. by rewrite lookup_delete_eq.
  - right. by rewrite lookup_delete_ne.
Qed.

Lemma exists_spec (fs : filesystem) (p : path) :
  exists_ fs p = true ↔ is_Some (fs !! p).
Proof. unfold exists_. apply bool_decide_eq_true. Qed.

Lemma exists_false (fs : filesystem) (p : path) :
  exists_ fs p = false ↔ fs !! p = None.
Proof.
  unfold exists_. rewrite bool_decide_eq_false. symmetry. apply eq_None_not_Some.
Qed.

(** Every failing operation leaves the file system as it was (the
    operations are functions of the file system; this records which
    exceptions they can raise). *)
Lemma mkdir_here_OSError (exist_ok : bool) (fs : filesystem) (p : path)
    (e : exn) :
  mkdir_here exist_ok fs p = Raise e → is_OSError e = true.
Proof.
  unfold mkdir_here, os_mkdir.
  destruct (fs !! p) as [[]|]; [destruct (_ && _); by intros [= <-]..|].
  destruct (fs !! parent p) as [[]|]; try done.
  - destruct (_ && _); by intros [= <-].
  - by intros [= <-].
Qed.

Lemma shutil_move_OSError (fs : filesystem) (src dst : path) (e : exn) :
  shutil_move fs src dst = Raise e → is_OSError e = true.
Proof.
  unfold shutil_move. destruct (_ && _); [by intros [= <-]|].
  destruct (fs !! src) as [[n|]|]; [| |by intros [= <-]].
  - destruct (negb _); [by intros [= <-]|done].
  - destruct (negb _); [by intros [= <-]|].
    destruct (exists_ _ _); [by intros [= <-]|].
    destruct (bool_decide _); [by intros [= <-]|done].
Qed.

(** Making a directory that is absent, or that is there already. *)
Lemma mkdir_here_ok (fs fs' : filesystem) (p : path) :
  mkdir_here true fs p = Ok fs' →
  (fs' = fs ∧ fs !! p = Some Dir)
  ∨ (fs' = <[p := Dir]> fs ∧ fs !! p = None ∧ fs !! parent p = Some Dir).
Proof.
  unfold mkdir_here, os_mkdir, is_dir.
  destruct (fs !! p) as [[n|]|] eqn:Hp; simpl; try done.
  - intros [= <-]. by left.
  - destruct (fs !! parent p) as [[]|]; try done. intros [= <-]. by right.
Qed.

(** Moving a regular file. *)
Lemma shutil_move_file (fs fs' : filesystem) (src dst : path) (n : Z) :
  fs !! src = Some (File n) →
  shutil_move fs src dst = Ok fs' →
  ∃ real_dst,
    (real_dst = dst ∨ real_dst = joinpath dst (name src))
    ∧ is_dir fs real_dst = false
    ∧ fs' = <[real_dst := File n]> (delete src fs).
Proof.
  intros Hsrc. unfold shutil_move. rewrite Hsrc.
  destruct (is_dir fs dst) eqn:Hdst; simpl.
  - destruct (exists_ fs (joinpath dst (name src))) eqn:Hex; [done|].
    destruct (negb _); [done|]. intros [= <-].
    exists (joinpath dst (name src)). split; [by right|]. split; [|done].
    apply exists_false in Hex. unfold is_dir. by rewrite Hex.
  - destruct (negb _); [done|]. intros [= <-].
    exists dst. split; [by left|]. by split.
Qed.

Lemma is_dir_insert_dir (fs : filesystem) (p q : path) :
  is_dir fs q = true → is_dir (<[p := Dir]> fs) q = true.
Proof.
  unfold is_dir. destruct (decide (p = q)) as [->|Hne].
  - by rewrite lookup_insert_eq.
  - by rewrite lookup_insert_ne.
Qed.

Lemma stat_size_OSError (fs : filesystem) (p : path) (e : exn) :
  stat_size fs p = Raise e → is_OSError e = true.
Proof.
  unfold stat_size. destruct (fs !! p) as [[]|]; try done. by intros [= <-].
Qed.

Lemma unlink_OSError (fs : filesystem) (p : path) (e : exn) :
  unlink fs p = Raise e → is_OSError e = true.
Proof.
  unfold unlink. destruct (fs !! p) as [[]|]; try done; by intros [= <-].
Qed.

Lemma os_mkdir_OSError (fs : filesystem) (p : path) (e : exn) :
  os_mkdir fs p = Raise e → is_OSError e = true.
Proof.
  unfold os_mkdir. destruct (fs !! p); [by intros [= <-]|].
  destruct (fs !! parent p) as [[]|]; try done; by intros [= <-].
Qed.

Lemma mkdir_parents_rev_OSError (exist_ok : bool) (fs : filesystem)
    (rp : list string) (e : exn) :
  mkdir_parents_rev exist_ok fs rp = Raise e → is_OSError e = true.
Proof.
  revert exist_ok fs e. induction rp as [|x rp IH]; intros exist_ok fs e; simpl.
  - destruct (os_mkdir fs []) as [fs'|e1] eqn:Hmk; [done|].
    pose proof (os_mkdir_OSError _ _ _ Hmk) as Hos.
    destruct e1; try done; try (destruct (_ && _); [done|]); by intros [= <-].
  - destruct (os_mkdir fs (rev rp ++ [x])) as [fs'|e1] eqn:Hmk; [done|].
    pose proof (os_mkdir_OSError _ _ _ Hmk) as Hos.
    destruct e1; try done;
      try (destruct (_ && _); [done|]; by intros [= <-]).
    destruct (mkdir_parents_rev true fs rp) as [fs'|e2] eqn:Hrec.
    + apply mkdir_here_OSError.
    + intros [= <-]. by eapply IH.
Qed.

Lemma mkdir_OSError (parents exist_ok : bool) (fs : filesystem) (p : path)
    (e : exn) :
  mkdir parents exist_ok fs p = Raise e → is_OSError e = true.
Proof.
  unfold mkdir. destruct parents.
  - apply mkdir_parents_rev_OSError.
  - apply mkdir_here_OSError.
Qed.

Lemma iterdir_OSError (fs : filesystem) (p : path) (e : exn) :
  iterdir fs p = Raise e → is_OSError e = true.
Proof.
  unfold iterdir. destruct (fs !! p) as [[]|]; try done; by intros [= <-].
Qed.

End FSFacts.

(** ** Traces *)

Module TraceFacts.

Lemma new_events_app (w w' : world) (l : list event) :
  trace w' = trace w ++ l → new_events w w' = l.
Proof. intros H. unfold new_events. rewrite H. by rewrite drop_app_length. Qed.

Lemma emits_mono {A} (P Q : event → Prop) (m : M A) :
  (∀ e, P e → Q e) → emits P m → emits Q m.
Proof.
  intros HPQ Hm w. destruct (Hm w) as (l & Hl & HP).
  exists l. split; [done|]. eapply Forall_impl; eauto.
Qed.

Lemma emits_ret {A} (P : event → Prop) (a : A) : emits P (mret a).
Proof. intros w. exists []. by rewrite app_nil_r. Qed.

Lemma emits_raise {A} (P : event → Prop) (e : exn) : emits P (@raise A e).
Proof. intros w. exists []. by rewrite app_nil_r. Qed.

Lemma emits_print (P : event → Prop) (line : list piece) :
  P (Print line) → emits P (print line).
Proof. intros HP w. exists [Print line]. split; [done|]. by constructor. Qed.

Lemma emits_read_fs {A} (P : event → Prop) (f : filesystem → A) :
  emits P (read_fs f).
Proof. intros w. exists []. by rewrite app_nil_r. Qed.

Lemma emits_try_fs {A} (P : event → Prop) (f : filesystem → result A) :
  emits P (try_fs f).
Proof. intros w. exists []. by rewrite app_nil_r. Qed.

Lemma emits_update_fs (P : event → Prop) (f : filesystem → result filesystem) :
  emits P (update_fs f).
Proof.
  intros w. exists []. rewrite app_nil_r. unfold update_fs.
  by destruct (f (fs w)).
Qed.

Lemma emits_bind {A B} (P : event → Prop) (m : M A) (f : A → M B) :
  emits P m → (∀ a, emits P (f a)) → emits P (m ≫= f).
Proof.
  intros Hm Hf w. destruct (Hm w) as (l & Hl & HP).
  unfold mbind, M_bind. destruct (m w) as [[a|e] w1]; simpl in *.
  - destruct (Hf a w1) as (l' & Hl' & HP'). exists (l ++ l').
    rewrite Hl', Hl, <- (assoc_L (++)). split; [done|]. by apply Forall_app.
  - by exists l.
Qed.

Lemma emits_try_except {A} (P : event → Prop) (body : M A)
    (handler : exn → option (M A)) :
  emits P body → (∀ e h, handler e = Some h → emits P h) →
  emits P (try_except body handler).
Proof.
  intros Hm Hh w. destruct (Hm w) as (l & Hl & HP).
  unfold try_except. destruct (body w) as [[a|e] w1]; simpl in *.
  - by exists l.
  - destruct (handler e) as [h|] eqn:He; [|by exists l].
    destruct (Hh e h He w1) as (l' & Hl' & HP'). exists (l ++ l').
    rewrite Hl', Hl, <- (assoc_L (++)). split; [done|]. by apply Forall_app.
Qed.

Lemma emits_for_each {A} (P : event → Prop) (l : list A) (body : A → M unit) :
  (∀ x, x ∈ l → emits P (body x)) → emits P (for_each l body).
Proof.
  induction l as [|x l IH]; intros Hbody; simpl; [apply emits_ret|].
  apply emits_bind; [apply Hbody; left|].
  intros _. apply IH. intros y Hy. apply Hbody. by right.
Qed.

Lemma emits_subprocess_run (O : oracle) (P : event → Prop) (check : bool)
    (argv : list piece) :
  (∀ o, P (Run argv o)) → emits P (subprocess_run O check argv).
Proof.
  intros HP w. unfold subprocess_run.
  destruct (spawn O w argv) as [|c wr].
  - exists [Run argv NotFound]. split; [done|]. by constructor.
  - exists [Run argv (Completed c wr)].
    split; [by destruct (_ && _)|]. by constructor.
Qed.

(** What a computation that only adds events of one kind leaves behind. *)
Lemma emits_new_events {A} (P : event → Prop) (m : M A) (w : world) :
  emits P m → Forall P (new_events w (m w).2).
Proof.
  intros Hm. destruct (Hm w) as (l & Hl & HP). by rewrite (new_events_app _ _ l).
Qed.

Lemma new_events_trans (w1 w2 w3 : world) (l1 l2 : list event) :
  trace w2 = trace w1 ++ l1 → trace w3 = trace w2 ++ l2 →
  new_events w1 w3 = l1 ++ l2.
Proof.
  intros H1 H2. apply new_events_app. by rewrite H2, H1, <- (assoc_L (++)).
Qed.

Lemma transcode_failed_app (l1 l2 : list event) :
  transcode_failed (l1 ++ l2) ↔ transcode_failed l1 ∨ transcode_failed l2.
Proof.
  unfold transcode_failed. split.
  - intros (e & rc & [He|He]%elem_of_app & Hx); [left|right]; by exists e, rc.
  - intros [(e & rc & He & Hx)|(e & rc & He & Hx)]; exists e, rc;
      (split; [apply elem_of_app; auto|done]).
Qed.

Lemma transcode_failed_quiet (l : list event) :
  Forall (λ e, transcoder_exit e = None) l → ¬ transcode_failed l.
Proof.
  intros Hall (e & rc & He & Hrc & _).
  rewrite Forall_forall in Hall. specialize (Hall e He). congruence.
Qed.

End TraceFacts.

(** ** The monad *)

Module MonadFacts.

Lemma bind_ok {A B} (m : M A) (f : A → M B) (w w1 : world) (a : A) :
  m w = (Ok a, w1) → (m ≫= f) w = f a w1.
Proof. intros H. unfold mbind, M_bind. by rewrite H. Qed.

Lemma bind_raise {A B} (m : M A) (f : A → M B) (w w1 : world) (e : exn) :
  m w = (Raise e, w1) → (m ≫= f) w = (Raise e, w1).
Proof. intros H. unfold mbind, M_bind. by rewrite H. Qed.

Lemma bind_print {B} (line : list piece) (f : unit → M B) (w : world) :
  (print line ≫= f) w = f tt (World (fs w) (trace w ++ [Print line])).
Proof. reflexivity. Qed.

Lemma try_except_ok {A} (body : M A) (handler : exn → option (M A))
    (w w1 : world) (a : A) :
  body w = (Ok a, w1) → try_except body handler w = (Ok a, w1).
Proof. intros H. unfold try_except. by rewrite H. Qed.

Lemma try_except_caught {A} (body : M A) (handler : exn → option (M A))
    (w w1 : world) (e : exn) (h : M A) :
  body w = (Raise e, w1) → handler e = Some h →
  try_except body handler w = h w1.
Proof. intros H He. unfold try_except. by rewrite H, He. Qed.

Lemma try_except_escapes {A} (body : M A) (handler : exn → option (M A))
    (w w1 : world) (e : exn) :
  body w = (Raise e, w1) → handler e = None →
  try_except body handler w = (Raise e, w1).
Proof. intros H He. unfold try_except. by rewrite H, He. Qed.

Lemma try_except_bind_ok {A B} (m : M A) (f : A → M B)
    (handler : exn → option (M B)) (w w1 : world) (a : A) :
  m w = (Ok a, w1) →
  try_except (m ≫= f) handler w = try_except (f a) handler w1.
Proof. intros H. unfold try_except, mbind, M_bind. by rewrite H. Qed.

Lemma try_except_bind_raise {A B} (m : M A) (f : A → M B)
    (handler : exn → option (M B)) (w w1 : world) (e : exn) :
  m w = (Raise e, w1) →
  try_except (m ≫= f) handler w =
    match handler e with
    | Some h => h w1
    | None => (Raise e, w1)
    end.
Proof. intros H. unfold try_except, mbind, M_bind. by rewrite H. Qed.

(** A loop whose first turn raises stops there. *)
Lemma for_each_raise {A} (x : A) (rest : list A) (body : A → M unit)
    (w w1 : world) (e : exn) :
  body x w = (Raise e, w1) → for_each (x :: rest) body w = (Raise e, w1).
Proof. intros H. simpl. by apply bind_raise. Qed.

(** A loop whose first turn returns goes on with the rest. *)
Lemma for_each_next {A} (x : A) (rest : list A) (body : A → M unit)
    (w w1 : world) :
  body x w = (Ok tt, w1) → for_each (x :: rest) body w = for_each rest body w1.
Proof. intros H. simpl. by rewrite (bind_ok _ _ _ _ _ H). Qed.

(** *** Which exceptions a computation can raise *)

Lemma raises_only_mono {A} (P Q : exn → Prop) (m : M A) :
  (∀ e, P e → Q e) → raises_only P m → raises_only Q m.
Proof. intros HPQ Hm w e w' H. eauto. Qed.

Lemma raises_only_ret {A} (P : exn → Prop) (a : A) : raises_only P (mret a).
Proof. by intros w e w' H. Qed.

Lemma raises_only_raise {A} (P : exn → Prop) (e : exn) :
  P e → raises_only P (@raise A e).
Proof. intros HP w e' w' H. by injection H as <- _. Qed.

Lemma raises_only_print (P : exn → Prop) (line : list piece) :
  raises_only P (print line).
Proof. by intros w e w' H. Qed.

Lemma raises_only_read_fs {A} (P : exn → Prop) (f : filesystem → A) :
  raises_only P (read_fs f).
Proof. by intros w e w' H. Qed.

Lemma raises_only_try_fs {A} (P : exn → Prop) (f : filesystem → result A) :
  (∀ fs e, f fs = Raise e → P e) → raises_only P (try_fs f).
Proof. intros Hf w e w' H. injection H as H _. eauto. Qed.

Lemma raises_only_update_fs (P : exn → Prop)
    (f : filesystem → result filesystem) :
  (∀ fs e, f fs = Raise e → P e) → raises_only P (update_fs f).
Proof.
  intros Hf w e w' H. unfold update_fs in H.
  destruct (f (fs w)) as [fs'|e'] eqn:Hfs; [done|].
  injection H as <- _. eauto.
Qed.

Lemma raises_only_bind {A B} (P : exn → Prop) (m : M A) (f : A → M B) :
  raises_only P m → (∀ a, raises_only P (f a)) → raises_only P (m ≫= f).
Proof.
  intros Hm Hf w e w' H. unfold mbind, M_bind in H.
  destruct (m w) as [[a|e1] w1] eqn:Hmw.
  - by eapply Hf.
  - injection H as <- _. by eapply Hm.
Qed.

Lemma raises_only_try_except {A} (P Q : exn → Prop) (body : M A)
    (handler : exn → option (M A)) :
  raises_only Q body →
  (∀ e, Q e → match handler e with
              | Some h => raises_only P h
              | None => P e
              end) →
  raises_only P (try_except body handler).
Proof.
  intros Hbody Hh w e w' H. unfold try_except in H.
  destruct (body w) as [[a|e1] w1] eqn:Hb; [done|].
  specialize (Hh e1 (Hbody _ _ _ Hb)).
  destruct (handler e1) as [h|].
  - by eapply Hh.
  - by injection H as <- _.
Qed.

Lemma raises_only_for_each {A} (P : exn → Prop) (l : list A)
    (body : A → M unit) :
  (∀ x, raises_only P (body x)) → raises_only P (for_each l body).
Proof.
  intros Hbody. induction l as [|x l IH]; simpl; [apply raises_only_ret|].
  apply raises_only_bind; [apply Hbody|]. by intros _.
Qed.

Lemma raises_only_subprocess_run (O : oracle) (P : exn → Prop) (check : bool)
    (argv : list piece) :
  P FileNotFoundError →
  (check = true → ∀ rc, P (CalledProcessError rc)) →
  raises_only P (subprocess_run O check argv).
Proof.
  intros Hnf Hcpe w e w' H. unfold subprocess_run in H.
  destruct (spawn O w argv) as [|c wr]; [by injection H as <- _|].
  destruct check; simpl in H; [|done].
  destruct (negb _); [|done]. injection H as <- _. by apply Hcpe.
Qed.

End MonadFacts.

(** ** The splitter *)

Module SplitterFacts.

Import Splitter TraceFacts MonadFacts FSFacts PathFacts.

Section WithOracle.

Context (O : oracle).

(** The duration probe leaves the file system alone, however it ends. *)
Lemma get_video_duration_fs (file_path : path) (w : world) :
  fs (get_video_duration O file_path w).2 = fs w.
Proof.
  unfold get_video_duration, try_except, mbind, M_bind, subprocess_run.
  destruct (spawn O w (duration_cmd file_path)) as [|c wr]; [done|].
  destruct (true && negb (returncode c =? 0)); simpl; [done|].
  destruct (py_float O (stdout c)); done.
Qed.

(** Its only external command is the inspector, run on [file_path]. *)
Lemma get_video_duration_events (file_path : path) (w : world) :
  ∃ l, trace (get_video_duration O file_path w).2 = trace w ++ l
       ∧ omap job_started l = [file_path]
       ∧ Forall (λ e, is_transcoder_run e = false) l
       ∧ Forall (λ e, ∀ argv o, e = Run argv o
                                → input_of argv = Some file_path) l.
Proof.
  assert (Hrun : ∀ o argv o',
            Run (duration_cmd file_path) o = Run argv o' →
            input_of argv = Some file_path).
  { intros o argv o' Heq. injection Heq as <- _. reflexivity. }
  assert (Hprint : ∀ line argv o',
            Print line = Run argv o' → input_of argv = Some file_path).
  { intros line argv o' Heq. discriminate Heq. }
  unfold get_video_duration, try_except, mbind, M_bind, subprocess_run.
  destruct (spawn O w (duration_cmd file_path)) as [|c wr].
  { eexists [_]. split; [done|]. split; [done|]. split.
    - by apply Forall_singleton.
    - apply Forall_singleton. apply Hrun. }
  destruct (true && negb (returncode c =? 0)); simpl.
  { eexists [_; _]. rewrite <- (assoc_L (++)).
    split; [done|]. split; [done|]. split.
    - by apply Forall_cons_2; [|apply Forall_singleton].
    - apply Forall_cons_2; [apply Hrun|]. apply Forall_singleton, Hprint. }
  destruct (py_float O (stdout c)); simpl.
  { eexists [_]. split; [done|]. split; [done|]. split.
    - by apply Forall_singleton.
    - apply Forall_singleton. apply Hrun. }
  eexists [_; _]. rewrite <- (assoc_L (++)).
  split; [done|]. split; [done|]. split.
  - by apply Forall_cons_2; [|apply Forall_singleton].
  - apply Forall_cons_2; [apply Hrun|]. apply Forall_singleton, Hprint.
Qed.

(** An inspector that exits non-zero, or whose output is not a number,
    makes the probe return 0. *)
Lemma get_video_duration_unavailable (file_path : path) (w : world)
    (c : completed) (wr : option Z) :
  spawn O w (duration_cmd file_path) = Completed c wr →
  returncode c ≠ 0 ∨ py_float O (stdout c) = None →
  (get_video_duration O file_path w).1 = Ok 0%float.
Proof.
  intros Hs Hbad.
  unfold get_video_duration, try_except, mbind, M_bind, subprocess_run.
  rewrite Hs. destruct (returncode c =? 0) eqn:Hrc; simpl; [|done].
  apply Z.eqb_eq in Hrc. destruct Hbad as [?|Hp]; [done|]. by rewrite Hp.
Qed.

(** Closes [Forall (λ e, transcoder_exit e = None ∨ ... = Some 0) l] for
    an explicit list [l], using the exit codes known from the context. *)
Ltac quiet :=
  repeat (apply Forall_cons_2;
          [first [left; reflexivity | right; simpl; congruence]|]);
  apply Forall_nil_2.

(** The five lines of the plan. *)
Lemma announce_plan_run (d sp : float) (p1 p2 : path) (w : world) :
  ∃ l, announce_plan d sp p1 p2 w = (Ok tt, World (fs w) (trace w ++ l))
       ∧ Forall (λ e, transcoder_exit e = None) l.
Proof.
  eexists [_; _; _; _; _]. split.
  - unfold announce_plan, mbind, M_bind, print. simpl.
    by rewrite <- !(assoc_L (++)).
  - by repeat constructor.
Qed.

(** The transcode block touches the two part paths only, makes no
    directory, and either raises [CalledProcessError] or has seen no
    transcoder failure. *)
Lemma transcode_parts_outcome (file_path : path) (sp : float)
    (p1 p2 : path) (w : world) :
  let r := transcode_parts O file_path sp p1 p2 w in
  (∀ q, q ≠ p1 → q ≠ p2 → fs r.2 !! q = fs w !! q)
  ∧ (∀ q, FS.is_dir (fs r.2) q = FS.is_dir (fs w) q)
  ∧ ∃ l, trace r.2 = trace w ++ l
         ∧ ((∃ rc, r.1 = Raise (CalledProcessError rc))
            ∨ ¬ transcode_failed l).
Proof.
  assert (Hquiet : ∀ l, Forall (λ e, transcoder_exit e = None
                                     ∨ transcoder_exit e = Some 0) l →
                        ¬ transcode_failed l).
  { intros l Hall (e & rc & He & Hrc & Hne).
    rewrite Forall_forall in Hall. destruct (Hall e He); congruence. }
  assert (Ho1 : written_path (cmd1 file_path sp p1) = Some p1) by done.
  assert (Ho2 : written_path (cmd2 file_path sp p2) = Some p2) by done.
  unfold transcode_parts, get_file_size_mb, try_fs, print, subprocess_run,
    mbind, M_bind, mret, M_ret. simpl.
  destruct (spawn O _ (cmd1 file_path sp p1)) as [|c1 wr1]; simpl.
  { split; [done|]. split; [done|]. eexists [_; _].
    rewrite <- (assoc_L (++)). split; [done|]. right. apply Hquiet.
    quiet. }
  destruct (returncode c1 =? 0) eqn:Hrc1; simpl.
  2:{ split; [|split].
      - intros q Hq1 _. apply written_fs_lookup_ne. congruence.
      - intros q. apply written_fs_is_dir.
      - eexists [_; _]. rewrite <- (assoc_L (++)). split; [done|].
        left. by eexists. }
  apply Z.eqb_eq in Hrc1.
  destruct (spawn O _ (cmd2 file_path sp p2)) as [|c2 wr2]; simpl.
  { split; [|split].
    - intros q Hq1 _. apply written_fs_lookup_ne. congruence.
    - intros q. apply written_fs_is_dir.
    - eexists [_; _; _; _]. rewrite <- !(assoc_L (++)). split; [done|].
      right. apply Hquiet. quiet. }
  assert (Hframe : ∀ q, q ≠ p1 → q ≠ p2 →
            written_fs (cmd2 file_path sp p2) wr2
              (written_fs (cmd1 file_path sp p1) wr1 (fs w)) !! q = fs w !! q).
  { intros q Hq1 Hq2.
    rewrite written_fs_lookup_ne by congruence.
    apply written_fs_lookup_ne. congruence. }
  assert (Hdir : ∀ q,
            FS.is_dir (written_fs (cmd2 file_path sp p2) wr2
              (written_fs (cmd1 file_path sp p1) wr1 (fs w))) q
            = FS.is_dir (fs w) q).
  { intros q. by rewrite !written_fs_is_dir. }
  destruct (returncode c2 =? 0) eqn:Hrc2; simpl.
  2:{ split; [done|]. split; [done|].
      eexists [_; _; _; _]. rewrite <- !(assoc_L (++)). split; [done|].
      left. by eexists. }
  apply Z.eqb_eq in Hrc2.
  set (fs3 := written_fs (cmd2 file_path sp p2) wr2
                (written_fs (cmd1 file_path sp p1) wr1 (fs w))) in *.
  destruct (FS.stat_size fs3 p1) as [n1|e1]; simpl.
  2:{ split; [done|]. split; [done|].
      eexists [_; _; _; _]. rewrite <- !(assoc_L (++)). split; [done|].
      right. apply Hquiet. quiet. }
  destruct (FS.stat_size fs3 p2) as [n2|e2]; simpl.
  2:{ split; [done|]. split; [done|].
      eexists [_; _; _; _]. rewrite <- !(assoc_L (++)). split; [done|].
      right. apply Hquiet. quiet. }
  split; [done|]. split; [done|].
  eexists [_; _; _; _; _; _; _]. rewrite <- !(assoc_L (++)). split; [done|].
  right. apply Hquiet. quiet.
Qed.

Lemma part_path_ne_source (out file_path : path) (tag : string) :
  tag ≠ "" → part_path out file_path tag ≠ file_path.
Proof.
  intros Htag Heq. apply (f_equal name) in Heq.
  unfold part_path in Heq. rewrite name_joinpath in Heq.
  by apply (tagged_name_ne (name file_path) tag).
Qed.

Lemma part_paths_differ (out file_path : path) :
  part_path out file_path "_part1" ≠ part_path out file_path "_part2".
Proof.
  unfold part_path, joinpath. intros Heq. apply (inj _) in Heq.
  injection Heq as Heq. by apply part_names_differ in Heq.
Qed.

Lemma remove_if_exists_ok (p : path) (w : world) :
  FS.is_dir (fs w) p = false →
  remove_if_exists p w = (Ok tt, World (delete p (fs w)) (trace w)).
Proof.
  intros Hdir. unfold remove_if_exists, mbind, M_bind, read_fs, update_fs.
  unfold FS.exists_, FS.unlink, FS.is_dir in *.
  destruct (fs w !! p) as [[n|]|] eqn:Hp; try done.
  - rewrite bool_decide_eq_true_2 by eauto. cbv beta. by rewrite Hp.
  - rewrite bool_decide_eq_false_2 by (by intros [? ?]).
    rewrite delete_id by done. by destruct w.
Qed.

(** The handler removes both parts, whichever of them exist, and
    touches nothing else. *)
Lemma cleanup_parts_ok (e : exn) (p1 p2 : path) (w : world) :
  FS.is_dir (fs w) p1 = false → FS.is_dir (fs w) p2 = false →
  ∃ l, cleanup_parts e p1 p2 w
       = (Ok false, World (delete p2 (delete p1 (fs w))) (trace w ++ l)).
Proof.
  intros H1 H2. eexists [_].
  unfold cleanup_parts, mbind, M_bind, print.
  rewrite remove_if_exists_ok by done. simpl.
  rewrite remove_if_exists_ok; [done|]. simpl.
  by destruct (is_dir_false_delete (fs w) p1 p2) as [->| ->].
Qed.

(** The handler never reports success. *)
Lemma cleanup_parts_result (e : exn) (p1 p2 : path) (w : world) :
  (cleanup_parts e p1 p2 w).1 = Ok false
  ∨ ∃ e', (cleanup_parts e p1 p2 w).1 = Raise e'.
Proof.
  unfold cleanup_parts, mbind, M_bind, print.
  destruct (remove_if_exists p1 _) as [[[]|e1] w1]; [|right; by eexists].
  destruct (remove_if_exists p2 _) as [[[]|e2] w2]; [by left|right; by eexists].
Qed.

Lemma remove_if_exists_emits (P : event → Prop) (p : path) :
  emits P (remove_if_exists p).
Proof.
  apply emits_bind; [apply emits_read_fs|].
  intros []; [apply emits_update_fs | apply emits_ret].
Qed.

Lemma archive_original_emits (P : event → Prop) (file_path : path) :
  (∀ line, P (Print line)) → emits P (archive_original file_path).
Proof.
  intros HP. unfold archive_original.
  apply emits_bind; [apply emits_update_fs|]. intros _.
  apply emits_bind; [apply emits_update_fs|]. intros _.
  by apply emits_print.
Qed.

Lemma cleanup_parts_emits (P : event → Prop) (e : exn) (p1 p2 : path) :
  (∀ line, P (Print line)) → emits P (cleanup_parts e p1 p2).
Proof.
  intros HP. unfold cleanup_parts.
  apply emits_bind; [by apply emits_print|]. intros _.
  apply emits_bind; [apply remove_if_exists_emits|]. intros _.
  apply emits_bind; [apply remove_if_exists_emits|]. intros _.
  apply emits_ret.
Qed.

(** What follows the transcode block in [split_video], with the
    handler around it, runs no external command. *)
Lemma after_transcode_emits (P : event → Prop) (file_path p1 p2 : path) :
  (∀ line, P (Print line)) →
  emits P (try_except
             (archive_original file_path;; mret true)
             (λ e, match e with
                   | CalledProcessError _ => Some (cleanup_parts e p1 p2)
                   | _ => None
                   end)).
Proof.
  intros HP. apply emits_try_except.
  - apply emits_bind; [by apply archive_original_emits|].
    intros _. apply emits_ret.
  - intros e h He. destruct e; simplify_eq. by apply cleanup_parts_emits.
Qed.

(** C1. Split-job atomicity: when the duration probe of a split job
    yields a positive duration and one of the two trim-and-copy
    transcoder invocations exits non-zero, the job reports failure,
    neither part path exists afterwards and the source file is at its
    original path as before (so the parts and the original are never
    all missing).  The part paths are output files: neither is
    occupied by a directory, which the transcoder could not write and
    [unlink] could not remove. *)
Theorem split_failure_cleans_up (file_path : path) (output_dir : option path)
    (w w1 w' : world) (d : float) (r : result bool) :
  let out := default (parent file_path) output_dir in
  let part1_path := part_path out file_path "_part1" in
  let part2_path := part_path out file_path "_part2" in
  get_video_duration O file_path w = (Ok d, w1) →
  (d <=? 0)%float = false →
  FS.is_dir (fs w) part1_path = false →
  FS.is_dir (fs w) part2_path = false →
  split_video O file_path output_dir w = (r, w') →
  transcode_failed (new_events w w') →
  r = Ok false
  ∧ fs w' !! part1_path = None
  ∧ fs w' !! part2_path = None
  ∧ fs w' !! file_path = fs w !! file_path.
Proof.
  intros out p1 p2 Hprobe Hd Hdir1 Hdir2 Hrun Hfailed.
  assert (Hne1 : file_path ≠ p1).
  { intros Heq. by apply (part_path_ne_source out file_path "_part1"). }
  assert (Hne2 : file_path ≠ p2).
  { intros Heq. by apply (part_path_ne_source out file_path "_part2"). }
  pose proof (get_video_duration_fs file_path w) as Hfs1.
  destruct (get_video_duration_events file_path w)
    as (l1 & Hl1 & _ & Hq1 & _).
  rewrite Hprobe in Hfs1, Hl1. simpl in Hfs1, Hl1.
  unfold split_video in Hrun. rewrite (bind_ok _ _ _ _ _ Hprobe), Hd in Hrun.
  fold out p1 p2 in Hrun.
  destruct (announce_plan_run d (d / 2)%float p1 p2 w1) as (l2 & Hplan & Hq2).
  rewrite (bind_ok _ _ _ _ _ Hplan) in Hrun.
  set (w2 := World (fs w1) (trace w1 ++ l2)) in *.
  destruct (transcode_parts_outcome file_path (d / 2)%float p1 p2 w2)
    as (Hframe & Hdirs & l3 & Hl3 & Hcase).
  destruct (transcode_parts O file_path (d / 2)%float p1 p2 w2)
    as [res w3] eqn:Hparts.
  simpl in Hframe, Hdirs, Hl3, Hcase.
  assert (Hquiet12 : ¬ transcode_failed (l1 ++ l2)).
  { apply transcode_failed_quiet, Forall_app. split; [|done].
    eapply Forall_impl; [exact Hq1|]. intros [line|argv o]; [done|].
    unfold is_transcoder_run, transcoder_exit.
    repeat case_match; congruence. }
  destruct Hcase as [[rc ->]|Hquiet3].
  - (* one invocation failed: the handler runs *)
    rewrite (try_except_bind_raise _ _ _ _ _ _ Hparts) in Hrun.
    destruct (cleanup_parts_ok (CalledProcessError rc) p1 p2 w3)
      as (l4 & Hclean).
    { rewrite Hdirs. simpl. by rewrite Hfs1. }
    { rewrite Hdirs. simpl. by rewrite Hfs1. }
    rewrite Hclean in Hrun. injection Hrun as <- <-. simpl.
    split; [done|]. split; [|split].
    + rewrite lookup_delete_ne
        by apply not_eq_sym, (part_paths_differ out file_path).
      apply lookup_delete_eq.
    + apply lookup_delete_eq.
    + rewrite !lookup_delete_ne by congruence.
      rewrite Hframe by done. simpl. by rewrite Hfs1.
  - (* no invocation failed: the premise does not hold *)
    exfalso. revert Hfailed.
    assert (Htail : ∃ l4, trace w' = trace w3 ++ l4
                          ∧ Forall (λ e, transcoder_exit e = None) l4).
    { destruct (after_transcode_emits (λ e, transcoder_exit e = None)
                  file_path p1 p2 (λ _, eq_refl) w3) as (l4 & Hl4 & Hq4).
      destruct res as [[]|e].
      - rewrite (try_except_bind_ok _ _ _ _ _ _ Hparts) in Hrun.
        rewrite Hrun in Hl4. by exists l4.
      - rewrite (try_except_bind_raise _ _ _ _ _ _ Hparts) in Hrun.
        destruct (cleanup_parts_emits (λ e, transcoder_exit e = None)
                    e p1 p2 (λ _, eq_refl) w3) as (l5 & Hl5 & Hq5).
        destruct e; try (injection Hrun as _ <-; exists [];
                         by rewrite app_nil_r).
        rewrite Hrun in Hl5. by exists l5. }
    destruct Htail as (l4 & Hl4 & Hq4).
    rewrite (new_events_app w w' ((l1 ++ l2) ++ l3 ++ l4)).
    + rewrite (transcode_failed_app (l1 ++ l2)), (transcode_failed_app l3).
      intros [?|[?|?]]; [done|done|]. by apply (transcode_failed_quiet l4).
    + rewrite Hl4, Hl3. simpl. rewrite Hl1. by rewrite <- !(assoc_L (++)).
Qed.

(** The two lines that open a job. *)
Lemma announce_job_run (total : nat) (job : Z * (path * Q)) (w : world) :
  ∃ l, announce_job total job w = (Ok tt, World (fs w) (trace w ++ l))
       ∧ Forall (λ e, ∃ line, e = Print line) l.
Proof.
  destruct job as [i [file_path size_mb]]. eexists [_; _]. split.
  - unfold announce_job, mbind, M_bind, print. simpl.
    by rewrite <- !(assoc_L (++)).
  - repeat constructor; by eexists.
Qed.

(** Without the inspector the probe, and with it the split job, ends
    with [FileNotFoundError] after the one attempt to start it. *)
Lemma split_video_no_inspector (c : path) (output_dir : option path)
    (w : world) :
  spawn O w (duration_cmd c) = NotFound →
  split_video O c output_dir w
  = (Raise FileNotFoundError,
     World (fs w) (trace w ++ [Run (duration_cmd c) NotFound])).
Proof.
  intros Hs. unfold split_video. apply bind_raise.
  unfold get_video_duration. apply try_except_escapes; [|done].
  apply bind_raise. unfold subprocess_run. by rewrite Hs.
Qed.

(** C3 (amended). A split job whose duration probe returns a
    duration that is not positive fails at once: [split_video] returns
    [False] in the world the probe left, in which the file system is
    unchanged (no output file, the original untouched) and no
    transcoder was invoked; the job loop goes on with the next
    candidate.  An inspector that runs and exits non-zero or prints no
    number makes the probe return 0, which is such a duration.  An
    inspector that cannot be started is another matter: the probe
    returns no duration, [FileNotFoundError] leaves [split_video] and
    the job loop, which ends there without a turn for the candidates
    that are left; the file system is unchanged then too and no
    transcoder was invoked. *)
Theorem unsplittable_job_skipped (file_path : path)
    (output_dir : option path) :
  (∀ (w w1 : world) (d : float),
      get_video_duration O file_path w = (Ok d, w1) →
      (d <=? 0)%float = true →
      split_video O file_path output_dir w = (Ok false, w1)
      ∧ fs w1 = fs w
      ∧ Forall (λ e, is_transcoder_run e = false) (new_events w w1)
      ∧ (∀ (total : nat) (i : Z) (size_mb : Q)
           (rest : list (Z * (path * Q))) (w0 : world),
            announce_job total (i, (file_path, size_mb)) w0 = (Ok tt, w) →
            ∃ w2, fs w2 = fs w0
                  ∧ for_each ((i, (file_path, size_mb)) :: rest)
                      (process_one O total) w0
                    = for_each rest (process_one O total) w2))
  ∧ (∀ (v : world) (c : completed) (wr : option Z),
        spawn O v (duration_cmd file_path) = Completed c wr →
        returncode c ≠ 0 ∨ py_float O (stdout c) = None →
        (get_video_duration O file_path v).1 = Ok 0%float
        ∧ (0 <=? 0)%float = true)
  ∧ (∀ v : world,
        spawn O v (duration_cmd file_path) = NotFound →
        let v1 := World (fs v)
                    (trace v ++ [Run (duration_cmd file_path) NotFound]) in
        get_video_duration O file_path v = (Raise FileNotFoundError, v1)
        ∧ split_video O file_path output_dir v = (Raise FileNotFoundError, v1)
        ∧ ∀ (total : nat) (i : Z) (size_mb : Q)
            (rest : list (Z * (path * Q))) (w0 : world),
            announce_job total (i, (file_path, size_mb)) w0 = (Ok tt, v) →
            for_each ((i, (file_path, size_mb)) :: rest)
              (process_one O total) w0
            = (Raise FileNotFoundError, v1)).
Proof.
  split; [|split].
  - intros w w1 d Hprobe Hd.
    assert (Hsplit : ∀ od, split_video O file_path od w = (Ok false, w1)).
    { intros od. unfold split_video.
      by rewrite (bind_ok _ _ _ _ _ Hprobe), Hd. }
    pose proof (get_video_duration_fs file_path w) as Hfs.
    rewrite Hprobe in Hfs. simpl in Hfs.
    split; [apply Hsplit|]. split; [done|]. split.
    + destruct (get_video_duration_events file_path w)
        as (l & Hl & _ & Hq & _).
      rewrite Hprobe in Hl. simpl in Hl. by rewrite (new_events_app _ _ l).
    + intros total i size_mb rest w0 Hjob.
      destruct (announce_job_run total (i, (file_path, size_mb)) w0)
        as (l & Hl & _).
      rewrite Hjob in Hl. injection Hl as Hw.
      eexists (World (fs w1) (trace w1 ++ [_])). split.
      * simpl. rewrite Hfs, Hw. done.
      * apply for_each_next. unfold process_one.
        rewrite (bind_ok _ _ _ _ _ Hjob). simpl.
        by rewrite (bind_ok _ _ _ _ _ (Hsplit None)).
  - intros v c wr Hs Hbad. split; [|done].
    by apply (get_video_duration_unavailable file_path v c wr).
  - intros v Hs v1. split; [|split].
    + unfold get_video_duration. apply try_except_escapes; [|done].
      apply bind_raise. unfold subprocess_run. by rewrite Hs.
    + by apply split_video_no_inspector.
    + intros total i size_mb rest w0 Hjob. apply for_each_raise.
      unfold process_one. rewrite (bind_ok _ _ _ _ _ Hjob). cbn [snd fst].
      apply bind_raise. by apply split_video_no_inspector.
Qed.

(** *** The success path and the archival *)

Lemma transcode_parts_ok_parts (file_path : path) (sp : float)
    (p1 p2 : path) (w w3 : world) :
  transcode_parts O file_path sp p1 p2 w = (Ok tt, w3) →
  is_Some (fs w3 !! p1) ∧ is_Some (fs w3 !! p2).
Proof.
  unfold transcode_parts, get_file_size_mb, try_fs, print, subprocess_run,
    mbind, M_bind, mret, M_ret. simpl.
  destruct (spawn O _ (cmd1 file_path sp p1)) as [|c1 wr1]; simpl; [done|].
  destruct (returncode c1 =? 0); simpl; [|done].
  destruct (spawn O _ (cmd2 file_path sp p2)) as [|c2 wr2]; simpl; [done|].
  destruct (returncode c2 =? 0); simpl; [|done].
  set (fs3 := written_fs (cmd2 file_path sp p2) wr2
                (written_fs (cmd1 file_path sp p1) wr1 (fs w))).
  unfold FS.stat_size.
  destruct (fs3 !! p1) as [[n1|]|] eqn:H1; simpl; try done;
    destruct (fs3 !! p2) as [[n2|]|] eqn:H2; simpl; try done;
    intros [= <-]; simpl; rewrite H1, H2; eauto.
Qed.

(** A failed archival raises an [OSError], prints nothing and removes
    nothing. *)
Lemma archive_original_raise (file_path : path) (w3 w4 : world) (e : exn) :
  archive_original file_path w3 = (Raise e, w4) →
  is_OSError e = true ∧ trace w4 = trace w3 ∧ fs w3 ⊆ fs w4.
Proof.
  unfold archive_original, update_fs, print, mbind, M_bind, FS.mkdir.
  destruct (FS.mkdir_here true (fs w3) _) as [fsa|e1] eqn:Hmk; simpl.
  2:{ intros [= <- <-]. split; [by eapply mkdir_here_OSError|]. done. }
  destruct (FS.shutil_move fsa _ _) as [fsb|e2] eqn:Hmv; simpl; [done|].
  intros [= <- <-]. split; [by eapply shutil_move_OSError|].
  split; [done|]. simpl.
  apply mkdir_here_ok in Hmk as [[-> _]|(-> & Hnone & _)]; [done|].
  by apply insert_subseteq.
Qed.

(** A successful archival of a regular file: the file is in the
    archive folder, gone from its own path, and every directory is
    still a directory. *)
Lemma archive_original_ok (file_path : path) (w3 w4 : world) (n : Z) :
  fs w3 !! file_path = Some (File n) →
  archive_original file_path w3 = (Ok tt, w4) →
  let archive_path :=
    joinpath (joinpath (parent file_path) ARCHIVE_FOLDER_NAME)
             (name file_path) in
  ∃ dest,
    (dest = archive_path ∨ dest = joinpath archive_path (name file_path))
    ∧ fs w4 !! dest = Some (File n)
    ∧ (∀ q, q ≠ dest → q ≠ file_path →
            fs w3 !! q = None ∨ fs w4 !! q = fs w3 !! q)
    ∧ (dest ≠ file_path → fs w4 !! file_path = None)
    ∧ (∀ q, FS.is_dir (fs w3) q = true → FS.is_dir (fs w4) q = true).
Proof.
  intros Hsrc. unfold archive_original, update_fs, print, mbind, M_bind,
    FS.mkdir.
  destruct (FS.mkdir_here true (fs w3) _) as [fsa|e1] eqn:Hmk; simpl; [|done].
  destruct (FS.shutil_move fsa _ _) as [fsb|e2] eqn:Hmv; simpl; [|done].
  intros [= <-]. simpl.
  assert (Hfsa : fsa !! file_path = Some (File n)
                 ∧ (∀ q, fs w3 !! q = None ∨ fsa !! q = fs w3 !! q)
                 ∧ (∀ q, FS.is_dir (fs w3) q = true → FS.is_dir fsa q = true)).
  { apply mkdir_here_ok in Hmk as [[-> _]|(-> & Hnone & _)].
    - split; [done|]. split; [by right|done].
    - split; [|split].
      + rewrite lookup_insert_ne; [done|]. intros Heq.
        rewrite Heq in Hnone. congruence.
      + intros q. destruct (decide (q = joinpath (parent file_path)
                                         ARCHIVE_FOLDER_NAME)) as [->|Hq].
        * by left.
        * right. by rewrite lookup_insert_ne.
      + intros q. apply is_dir_insert_dir. }
  destruct Hfsa as (Hsrc' & Hlook & Hdirs).
  destruct (shutil_move_file _ _ _ _ _ Hsrc' Hmv)
    as (dest & Hdest & Hnd & ->).
  exists dest. split; [done|]. split; [by rewrite lookup_insert_eq|].
  split; [|split].
  - intros q Hq1 Hq2. rewrite lookup_insert_ne, lookup_delete_ne by done.
    apply Hlook.
  - intros Hne. rewrite lookup_insert_ne by done. apply lookup_delete_eq.
  - intros q Hq. apply Hdirs in Hq. unfold FS.is_dir in *.
    rewrite lookup_insert_ne by (intros <-; by rewrite Hq in Hnd).
    rewrite lookup_delete_ne by (intros <-; by rewrite Hsrc' in Hq). done.
Qed.

(** How [split_video] comes to return [True]. *)
Lemma split_video_true_inv (file_path : path) (output_dir : option path)
    (w w' : world) :
  split_video O file_path output_dir w = (Ok true, w') →
  let out := default (parent file_path) output_dir in
  let p1 := part_path out file_path "_part1" in
  let p2 := part_path out file_path "_part2" in
  ∃ d w1 w2 w3,
    get_video_duration O file_path w = (Ok d, w1)
    ∧ (d <=? 0)%float = false
    ∧ announce_plan d (d / 2)%float p1 p2 w1 = (Ok tt, w2)
    ∧ transcode_parts O file_path (d / 2)%float p1 p2 w2 = (Ok tt, w3)
    ∧ archive_original file_path w3 = (Ok tt, w').
Proof.
  intros Hrun out p1 p2. unfold split_video in Hrun. fold out p1 p2 in Hrun.
  unfold mbind at 1, M_bind at 1 in Hrun.
  destruct (get_video_duration O file_path w) as [[d|e] w1] eqn:Hprobe;
    [|done].
  destruct (d <=? 0)%float eqn:Hd; [done|].
  destruct (announce_plan_run d (d / 2)%float p1 p2 w1) as (l2 & Hplan & _).
  rewrite (bind_ok _ _ _ _ _ Hplan) in Hrun.
  exists d, w1, (World (fs w1) (trace w1 ++ l2)).
  destruct (transcode_parts O file_path (d / 2)%float p1 p2
              (World (fs w1) (trace w1 ++ l2))) as [[[]|e] w3] eqn:Hparts.
  - rewrite (try_except_bind_ok _ _ _ _ _ _ Hparts) in Hrun.
    exists w3. repeat (split; [done|]).
    unfold try_except, mbind, M_bind in Hrun.
    destruct (archive_original file_path w3) as [[[]|e] w4] eqn:Harch.
    + by injection Hrun as <-.
    + destruct e as [rc| | | | | | |]; try done.
      apply (f_equal fst) in Hrun. simpl in Hrun.
      destruct (cleanup_parts_result (CalledProcessError rc) p1 p2 w4)
        as [H|[e' H]]; rewrite H in Hrun; done.
  - rewrite (try_except_bind_raise _ _ _ _ _ _ Hparts) in Hrun.
    destruct e as [rc| | | | | | |]; try done.
    apply (f_equal fst) in Hrun. simpl in Hrun.
    destruct (cleanup_parts_result (CalledProcessError rc) p1 p2 w3)
      as [H|[e' H]]; rewrite H in Hrun; done.
Qed.

(** C4 (amended). When both transcoder invocations of a split job
    succeed and the archival then fails -- the archive folder cannot
    be made or the original cannot be moved -- the [OSError] is not
    caught: it escapes [split_video], nothing is printed about it, the
    job loop stops at this job and the run ends with it (exit status
    1).  Nothing is removed: the original is still at its path and
    both part files are in place. *)
Theorem archival_failure_aborts_run (file_path : path)
    (w w1 w2 w3 w4 : world) (d : float) (e : exn) :
  let p1 := part_path (parent file_path) file_path "_part1" in
  let p2 := part_path (parent file_path) file_path "_part2" in
  get_video_duration O file_path w = (Ok d, w1) →
  (d <=? 0)%float = false →
  announce_plan d (d / 2)%float p1 p2 w1 = (Ok tt, w2) →
  transcode_parts O file_path (d / 2)%float p1 p2 w2 = (Ok tt, w3) →
  archive_original file_path w3 = (Raise e, w4) →
  split_video O file_path None w = (Raise e, w4)
  ∧ is_OSError e = true
  ∧ trace w4 = trace w3
  ∧ fs w3 ⊆ fs w4
  ∧ (∀ x, fs w !! file_path = Some x → fs w4 !! file_path = Some x)
  ∧ is_Some (fs w4 !! p1)
  ∧ is_Some (fs w4 !! p2)
  ∧ (∀ (total : nat) (i : Z) (size_mb : Q) (rest : list (Z * (path * Q)))
       (w0 : world),
        announce_job total (i, (file_path, size_mb)) w0 = (Ok tt, w) →
        for_each ((i, (file_path, size_mb)) :: rest) (process_one O total) w0
        = (Raise e, w4))
  ∧ exit_status (@Raise unit e) = 1.
Proof.
  intros p1 p2 Hprobe Hd Hplan Hparts Harch.
  destruct (archive_original_raise _ _ _ _ Harch) as (Hos & Htr & Hsub).
  assert (Hsplit : split_video O file_path None w = (Raise e, w4)).
  { unfold split_video. simpl. fold p1 p2.
    rewrite (bind_ok _ _ _ _ _ Hprobe), Hd, (bind_ok _ _ _ _ _ Hplan).
    rewrite (try_except_bind_ok _ _ _ _ _ _ Hparts).
    apply try_except_escapes; [by apply bind_raise|]. by destruct e. }
  split; [done|]. split; [done|]. split; [done|]. split; [done|].
  destruct (transcode_parts_outcome file_path (d / 2)%float p1 p2 w2)
    as (Hframe & _). rewrite Hparts in Hframe. simpl in Hframe.
  destruct (transcode_parts_ok_parts _ _ _ _ _ _ Hparts) as [[x1 H1] [x2 H2]].
  split; [|split; [|split; [|split]]].
  - intros x Hx. eapply lookup_weaken; [|exact Hsub].
    rewrite Hframe.
    + destruct (announce_plan_run d (d / 2)%float p1 p2 w1) as (l & Hl & _).
      rewrite Hplan in Hl. injection Hl as ->. simpl.
      pose proof (get_video_duration_fs file_path w) as Hfs.
      rewrite Hprobe in Hfs. simpl in Hfs. by rewrite Hfs.
    + intros Heq. by apply (part_path_ne_source (parent file_path)
                              file_path "_part1").
    + intros Heq. by apply (part_path_ne_source (parent file_path)
                              file_path "_part2").
  - exists x1. by eapply lookup_weaken.
  - exists x2. by eapply lookup_weaken.
  - intros total i size_mb rest w0 Hjob. apply for_each_raise.
    unfold process_one. rewrite (bind_ok _ _ _ _ _ Hjob). simpl.
    by apply bind_raise.
  - by destruct e.
Qed.

(** *** The exceptions of a job *)

Lemma get_video_duration_raises (file_path : path) :
  raises_only (λ e, is_OSError e = true) (get_video_duration O file_path).
Proof.
  unfold get_video_duration.
  apply (raises_only_try_except _
           (λ e, e = FileNotFoundError ∨ e = ValueError
                 ∨ ∃ rc, e = CalledProcessError rc)).
  - apply raises_only_bind.
    + apply raises_only_subprocess_run; [by left|]. intros _ rc. right. right.
      by exists rc.
    + intros c. destruct (py_float O (stdout c)); [apply raises_only_ret|].
      apply raises_only_raise. right. by left.
  - intros e [->|[->|[rc ->]]]; [done|..];
      (apply raises_only_bind; [apply raises_only_print|]);
      intros _; apply raises_only_ret.
Qed.

Lemma get_file_size_mb_raises (p : path) :
  raises_only (λ e, is_OSError e = true) (get_file_size_mb p).
Proof.
  apply raises_only_bind.
  - apply raises_only_try_fs. intros fs e. apply stat_size_OSError.
  - intros n. apply raises_only_ret.
Qed.

Lemma transcode_parts_raises (file_path : path) (sp : float) (p1 p2 : path) :
  raises_only (λ e, is_OSError e = true ∨ ∃ rc, e = CalledProcessError rc)
              (transcode_parts O file_path sp p1 p2).
Proof.
  assert (Hrun : ∀ argv,
            raises_only (λ e, is_OSError e = true
                              ∨ ∃ rc, e = CalledProcessError rc)
                        (subprocess_run O true argv)).
  { intros argv. apply raises_only_subprocess_run; [by left|].
    intros _ rc. right. by exists rc. }
  assert (Hsize : ∀ p,
            raises_only (λ e, is_OSError e = true
                              ∨ ∃ rc, e = CalledProcessError rc)
                        (get_file_size_mb p)).
  { intros p. eapply raises_only_mono; [|apply get_file_size_mb_raises].
    intros e He. by left. }
  unfold transcode_parts.
  apply raises_only_bind; [apply raises_only_print|]. intros _.
  apply raises_only_bind; [apply Hrun|]. intros _.
  apply raises_only_bind; [apply raises_only_print|]. intros _.
  apply raises_only_bind; [apply Hrun|]. intros _.
  apply raises_only_bind; [apply Hsize|]. intros size1.
  apply raises_only_bind; [apply Hsize|]. intros size2.
  apply raises_only_bind; [apply raises_only_print|]. intros _.
  apply raises_only_bind; [apply raises_only_print|]. intros _.
  apply raises_only_print.
Qed.

Lemma cleanup_parts_raises (e : exn) (p1 p2 : path) :
  raises_only (λ e, is_OSError e = true) (cleanup_parts e p1 p2).
Proof.
  assert (Hrm : ∀ p, raises_only (λ e, is_OSError e = true)
                                 (remove_if_exists p)).
  { intros p. apply raises_only_bind; [apply raises_only_read_fs|].
    intros []; [|apply raises_only_ret].
    apply raises_only_update_fs. intros fs e'. apply unlink_OSError. }
  unfold cleanup_parts.
  apply raises_only_bind; [apply raises_only_print|]. intros _.
  apply raises_only_bind; [apply Hrm|]. intros _.
  apply raises_only_bind; [apply Hrm|]. intros _.
  apply raises_only_ret.
Qed.

(** Whatever escapes a job is an [OSError]: a missing inspector or
    transcoder executable, a part that cannot be examined or removed,
    a failed archival. *)
Lemma split_video_raises (file_path : path) (output_dir : option path) :
  raises_only (λ e, is_OSError e = true) (split_video O file_path output_dir).
Proof.
  unfold split_video.
  apply raises_only_bind; [apply get_video_duration_raises|]. intros d.
  destruct (d <=? 0)%float; [apply raises_only_ret|].
  apply raises_only_bind.
  { unfold announce_plan.
    repeat (apply raises_only_bind; [apply raises_only_print|]; intros _).
    apply raises_only_print. }
  intros _.
  apply (raises_only_try_except _
           (λ e, is_OSError e = true ∨ ∃ rc, e = CalledProcessError rc)).
  - apply raises_only_bind; [apply transcode_parts_raises|]. intros _.
    apply raises_only_bind; [|intros _; apply raises_only_ret].
    intros w e w' H. left. by apply archive_original_raise in H as [? _].
  - intros e [He|[rc ->]]; [by destruct e|]. apply cleanup_parts_raises.
Qed.

Lemma process_one_raises (total : nat) (job : Z * (path * Q)) :
  raises_only (λ e, is_OSError e = true) (process_one O total job).
Proof.
  unfold process_one.
  apply raises_only_bind.
  { destruct job as [i [file_path size_mb]]. unfold announce_job.
    apply raises_only_bind; [apply raises_only_print|]. intros _.
    apply raises_only_print. }
  intros _. apply raises_only_bind; [apply split_video_raises|].
  intros []; apply raises_only_print.
Qed.

(** *** The events of a job *)

Lemma within_job_print (p : path) (line : list piece) :
  within_job p (Print line).
Proof. split; [done|]. intros argv o Heq. discriminate Heq. Qed.

Lemma within_job_cmd1 (p : path) (sp : float) (p1 : path) (o : outcome) :
  within_job p (Run (cmd1 p sp p1) o).
Proof. split; [done|]. intros argv o' Heq. injection Heq as <- _. done. Qed.

Lemma within_job_cmd2 (p : path) (sp : float) (p2 : path) (o : outcome) :
  within_job p (Run (cmd2 p sp p2) o).
Proof. split; [done|]. intros argv o' Heq. injection Heq as <- _. done. Qed.

Lemma get_file_size_mb_emits (P : event → Prop) (p : path) :
  emits P (get_file_size_mb p).
Proof.
  apply emits_bind; [apply emits_try_fs|]. intros n. apply emits_ret.
Qed.

Lemma transcode_parts_emits (file_path : path) (sp : float) (p1 p2 : path) :
  emits (within_job file_path) (transcode_parts O file_path sp p1 p2).
Proof.
  unfold transcode_parts.
  apply emits_bind; [apply emits_print, within_job_print|]. intros _.
  apply emits_bind; [apply emits_subprocess_run, within_job_cmd1|]. intros _.
  apply emits_bind; [apply emits_print, within_job_print|]. intros _.
  apply emits_bind; [apply emits_subprocess_run, within_job_cmd2|]. intros _.
  apply emits_bind; [apply get_file_size_mb_emits|]. intros size1.
  apply emits_bind; [apply get_file_size_mb_emits|]. intros size2.
  apply emits_bind; [apply emits_print, within_job_print|]. intros _.
  apply emits_bind; [apply emits_print, within_job_print|]. intros _.
  apply emits_print, within_job_print.
Qed.

Lemma omap_job_started_within (p : path) (l : list event) :
  Forall (within_job p) l → omap job_started l = [].
Proof.
  induction 1 as [|e l [He _] _ IH]; [done|]. simpl. by rewrite He.
Qed.

(** A job starts with the probe of its file, and every command it
    runs works on that file. *)
Lemma split_video_events (file_path : path) (output_dir : option path)
    (w : world) :
  ∃ l, trace (split_video O file_path output_dir w).2 = trace w ++ l
       ∧ omap job_started l = [file_path]
       ∧ Forall (λ e, ∀ argv o, e = Run argv o
                                → input_of argv = Some file_path) l.
Proof.
  destruct (get_video_duration_events file_path w)
    as (l1 & Hl1 & Hj1 & _ & Ha1).
  unfold split_video, mbind at 1, M_bind at 1.
  destruct (get_video_duration O file_path w) as [[d|e] w1]; simpl in *;
    [|by exists l1].
  destruct (d <=? 0)%float; [by exists l1|].
  match goal with
  | |- context [ (?k w1).2 ] =>
      assert (Hk : emits (within_job file_path) k)
  end.
  { apply emits_bind.
    - unfold announce_plan.
      repeat (apply emits_bind; [apply emits_print, within_job_print|];
              intros _).
      apply emits_print, within_job_print.
    - intros _. apply emits_try_except.
      + apply emits_bind; [apply transcode_parts_emits|]. intros _.
        apply emits_bind;
          [apply archive_original_emits, within_job_print|].
        intros _. apply emits_ret.
      + intros e h He. destruct e; simplify_eq.
        apply cleanup_parts_emits, within_job_print. }
  destruct (Hk w1) as (l2 & Hl2 & Hw2). exists (l1 ++ l2).
  split; [by rewrite Hl2, Hl1, <- (assoc_L (++))|]. split.
  - by rewrite omap_app, Hj1, (omap_job_started_within file_path l2).
  - apply Forall_app. split; [done|].
    eapply Forall_impl; [exact Hw2|]. by intros e [_ He].
Qed.

Lemma process_one_events (total : nat) (job : Z * (path * Q)) (w : world) :
  ∃ l, trace (process_one O total job w).2 = trace w ++ l
       ∧ omap job_started l = [job.2.1]
       ∧ Forall (λ e, ∀ argv o, e = Run argv o
                                → input_of argv = Some job.2.1) l.
Proof.
  destruct (announce_job_run total job w) as (l0 & Hl0 & Hp0).
  unfold process_one. rewrite (bind_ok _ _ _ _ _ Hl0).
  set (w0 := World (fs w) (trace w ++ l0)).
  destruct (split_video_events job.2.1 None w0) as (l1 & Hl1 & Hj1 & Ha1).
  assert (Hprints : omap job_started l0 = []
                    ∧ Forall (λ e, ∀ argv o, e = Run argv o
                                     → input_of argv = Some job.2.1) l0).
  { clear -Hp0. induction Hp0 as [|e l [line ->] _ [IH1 IH2]]; [done|].
    split; [done|]. constructor; [|done]. intros argv o Heq. discriminate Heq. }
  destruct Hprints as [Hj0 Ha0].
  unfold mbind, M_bind.
  destruct (split_video O job.2.1 None w0) as [[[]|e] w1]; simpl in *.
  - eexists (l0 ++ l1 ++ [_]). rewrite Hl1. simpl.
    split; [by rewrite <- !(assoc_L (++))|]. split.
    + by rewrite !omap_app, Hj0, Hj1.
    + rewrite !Forall_app. split; [done|]. split; [done|].
      apply Forall_singleton. intros argv o Heq. discriminate Heq.
  - eexists (l0 ++ l1 ++ [_]). rewrite Hl1. simpl.
    split; [by rewrite <- !(assoc_L (++))|]. split.
    + by rewrite !omap_app, Hj0, Hj1.
    + rewrite !Forall_app. split; [done|]. split; [done|].
      apply Forall_singleton. intros argv o Heq. discriminate Heq.
  - exists (l0 ++ l1). rewrite Hl1. simpl.
    split; [by rewrite <- !(assoc_L (++))|]. split.
    + by rewrite !omap_app, Hj0, Hj1.
    + by rewrite !Forall_app.
Qed.

(** The job loop starts its jobs in list order, all of them unless a
    job raises, and runs commands on listed files only. *)
Lemma job_loop_events (total : nat) (jobs : list (path * Q)) (start : Z)
    (w : world) :
  let run := for_each (enumerate jobs start) (process_one O total) w in
  ∃ l, trace run.2 = trace w ++ l
       ∧ omap job_started l `prefix_of` jobs.*1
       ∧ (run.1 = Ok tt → omap job_started l = jobs.*1)
       ∧ Forall (λ e, ∀ argv o, e = Run argv o
                                → ∃ p, input_of argv = Some p ∧ p ∈ jobs.*1) l.
Proof.
  revert start w. induction jobs as [|job jobs IH]; intros start w; simpl.
  { exists []. rewrite app_nil_r. by repeat split. }
  destruct (process_one_events total (start, job) w) as (l1 & Hl1 & Hj1 & Ha1).
  simpl in Hj1, Ha1.
  assert (Ha1' : Forall (λ e, ∀ argv o, e = Run argv o
                    → ∃ p, input_of argv = Some p ∧ p ∈ job.1 :: jobs.*1) l1).
  { eapply Forall_impl; [exact Ha1|]. intros e He argv o Heq.
    exists job.1. split; [by eapply He|by left]. }
  unfold mbind, M_bind.
  destruct (process_one O total (start, job) w) as [[[]|e] w1]; simpl in *.
  - destruct (IH (start + 1) w1) as (l2 & Hl2 & Hpre & Hall & Ha2).
    exists (l1 ++ l2). split; [by rewrite Hl2, Hl1, <- (assoc_L (++))|].
    rewrite omap_app, Hj1. simpl. split; [by apply prefix_cons|].
    split; [intros Hok; by rewrite (Hall Hok)|].
    apply Forall_app. split; [done|].
    eapply Forall_impl; [exact Ha2|]. intros ev He argv o Heq.
    destruct (He argv o Heq) as (p & Hp & Hin). exists p. split; [done|].
    by right.
  - exists l1. split; [done|]. rewrite Hj1.
    split; [apply prefix_cons, prefix_nil|]. by split.
Qed.

End WithOracle.

(** *** The scan *)

Section Scan.

Context (O : oracle).

Lemma Qgtb_size_mb (n : Z) (size_limit_mb : Q) :
  Qgtb (inject_Z n / inject_Z (1024 * 1024)) size_limit_mb = true
  ↔ (size_limit_mb * inject_Z (1024 * 1024) < inject_Z n)%Q.
Proof.
  unfold Qgtb. rewrite negb_true_iff, <- not_true_iff_false, Qle_bool_iff.
  destruct size_limit_mb as [a b].
  unfold Qle, Qlt, Qdiv, Qmult, Qinv, inject_Z. simpl.
  rewrite Pos.mul_1_r. lia.
Qed.

Lemma rglob_spec (fs : filesystem) (folder p : path) :
  p ∈ FS.rglob fs folder
  ↔ FS.is_dir fs folder = true ∧ below folder p ∧ is_Some (fs !! p).
Proof.
  unfold FS.rglob. destruct (FS.is_dir fs folder).
  - rewrite list_elem_of_filter, list_elem_of_fmap. split.
    + intros (Hb & [q n] & -> & Hq%elem_of_map_to_list). eauto.
    + intros (_ & Hb & n & Hn). split; [done|].
      exists (p, n). split; [done|]. by apply elem_of_map_to_list.
  - split; [by intros ?%elem_of_nil|by intros [? _]].
Qed.

Lemma collect_large_videos_run (paths : list path) (size_limit_mb : Q)
    (acc : list (path * Q)) (w : world) :
  ∃ found,
    collect_large_videos O paths size_limit_mb acc w = (Ok (acc ++ found), w)
    ∧ ∀ p, p ∈ found.*1
           ↔ p ∈ paths
             ∧ ∃ n, fs w !! p = Some (File n)
                    ∧ Str.lower (unicode_lower O) (suffix p) ∈ VIDEO_EXTENSIONS
                    ∧ (size_limit_mb * inject_Z (1024 * 1024) < inject_Z n)%Q.
Proof.
  revert acc. induction paths as [|p0 paths IH]; intros acc.
  { exists []. rewrite app_nil_r. split; [done|].
    intros p. split; [by intros ?%elem_of_nil|by intros [?%elem_of_nil _]]. }
  assert (Hskip : ∀ found : list (path * Q),
    (∀ p, p ∈ found.*1
          ↔ p ∈ paths
            ∧ ∃ n, fs w !! p = Some (File n)
                   ∧ Str.lower (unicode_lower O) (suffix p) ∈ VIDEO_EXTENSIONS
                   ∧ (size_limit_mb * inject_Z (1024 * 1024) < inject_Z n)%Q) →
    ¬ (∃ n, fs w !! p0 = Some (File n)
            ∧ Str.lower (unicode_lower O) (suffix p0) ∈ VIDEO_EXTENSIONS
            ∧ (size_limit_mb * inject_Z (1024 * 1024) < inject_Z n)%Q) →
    ∀ p, p ∈ found.*1
         ↔ p ∈ p0 :: paths
           ∧ ∃ n, fs w !! p = Some (File n)
                  ∧ Str.lower (unicode_lower O) (suffix p) ∈ VIDEO_EXTENSIONS
                  ∧ (size_limit_mb * inject_Z (1024 * 1024) < inject_Z n)%Q).
  { intros found Hfound Hnot p. rewrite Hfound, elem_of_cons.
    split; [intros [? ?]; auto|]. intros [[->|?] ?]; [done|auto]. }
  simpl. unfold read_fs, get_file_size_mb, try_fs, FS.is_file, FS.stat_size,
    mbind, M_bind, mret, M_ret. simpl.
  destruct (fs w !! p0) as [[n|]|] eqn:Hp0; simpl; rewrite ?Hp0; simpl.
  - destruct (decide (Str.lower (unicode_lower O) (suffix p0) ∈ VIDEO_EXTENSIONS)) as [Hext|Hext].
    + rewrite bool_decide_eq_true_2 by done. simpl. rewrite Hp0. simpl.
      destruct (Qgtb (inject_Z n / inject_Z (1024 * 1024)) size_limit_mb)
        eqn:Hgt.
      * destruct (IH (acc ++ [(p0, (inject_Z n / inject_Z (1024 * 1024))%Q)]))
          as (found & Hrun & Hfound).
        exists ((p0, (inject_Z n / inject_Z (1024 * 1024))%Q) :: found).
        split; [by rewrite Hrun, <- (assoc_L (++))|].
        intros p. rewrite fmap_cons, !elem_of_cons, Hfound. simpl.
        apply Qgtb_size_mb in Hgt. split.
        -- intros [->|[? ?]]; [|by auto]. split; [by left|]. by exists n.
        -- intros [[->|?] ?]; auto.
      * destruct (IH acc) as (found & Hrun & Hfound). exists found.
        split; [done|]. apply Hskip; [done|]. intros (n' & Hn' & _ & Hlt).
        simplify_eq. apply Qgtb_size_mb in Hlt. congruence.
    + rewrite bool_decide_eq_false_2 by done.
      destruct (IH acc) as (found & Hrun & Hfound). exists found.
      split; [done|]. apply Hskip; [done|]. by intros (n' & _ & ? & _).
  - destruct (IH acc) as (found & Hrun & Hfound). exists found.
    split; [done|]. apply Hskip; [done|]. by intros (n' & ? & _).
  - destruct (IH acc) as (found & Hrun & Hfound). exists found.
    split; [done|]. apply Hskip; [done|]. by intros (n' & ? & _).
Qed.

(** The scan reads the file system and changes nothing; it finds
    exactly the large videos below the folder. *)
Lemma scan_large_videos_run (folder : path) (size_limit_mb : Q) (w : world) :
  ∃ large_videos,
    scan_large_videos O folder size_limit_mb w = (Ok large_videos, w)
    ∧ ∀ p, p ∈ large_videos.*1
           ↔ is_large_video O (fs w) folder size_limit_mb p.
Proof.
  unfold scan_large_videos, mbind, M_bind, read_fs.
  destruct (collect_large_videos_run (FS.rglob (fs w) folder)
              size_limit_mb [] w) as (found & Hrun & Hfound).
  exists found. split; [done|]. intros p.
  rewrite Hfound, rglob_spec. unfold is_large_video. split.
  - intros ((Hd & Hb & _) & Hrest). exact (conj Hd (conj Hb Hrest)).
  - intros (Hd & Hb & n & Hn & Hrest).
    exact (conj (conj Hd (conj Hb (mk_is_Some _ _ Hn)))
                (ex_intro _ n (conj Hn Hrest))).
Qed.

(** C8. In split mode a path is a candidate exactly when the
    recursive walk of the root folder reaches it, it is a regular
    file, its lower-cased extension is in the allow-list and its size
    in bytes exceeds the limit in MB times 1024 * 1024; the scan
    itself changes nothing.  With the default limit of 200 MB the
    threshold is 209715200 bytes, and a file of exactly that size is
    not a candidate. *)
Theorem split_candidates (folder : path) (size_limit_mb : Q) (w : world) :
  (∃ large_videos,
      scan_large_videos O folder size_limit_mb w = (Ok large_videos, w)
      ∧ ∀ p, p ∈ large_videos.*1
             ↔ p ∈ FS.rglob (fs w) folder
               ∧ ∃ n, fs w !! p = Some (File n)
                      ∧ Str.lower (unicode_lower O) (suffix p) ∈ VIDEO_EXTENSIONS
                      ∧ (size_limit_mb * inject_Z (1024 * 1024)
                         < inject_Z n)%Q)
  ∧ (∃ large_videos,
        scan_large_videos O folder SIZE_LIMIT_MB w = (Ok large_videos, w)
        ∧ ∀ p n, fs w !! p = Some (File n) →
                 p ∈ large_videos.*1
                 ↔ p ∈ FS.rglob (fs w) folder
                   ∧ Str.lower (unicode_lower O) (suffix p) ∈ VIDEO_EXTENSIONS
                   ∧ 200 * 1024 * 1024 < n).
Proof.
  split.
  - destruct (scan_large_videos_run folder size_limit_mb w)
      as (lv & Hrun & Hlv).
    exists lv. split; [done|]. intros p.
    rewrite Hlv, rglob_spec. unfold is_large_video. split.
    + intros (Hd & Hb & n & Hn & Hrest).
      exact (conj (conj Hd (conj Hb (mk_is_Some _ _ Hn)))
                  (ex_intro _ n (conj Hn Hrest))).
    + intros ((Hd & Hb & _) & Hrest). exact (conj Hd (conj Hb Hrest)).
  - destruct (scan_large_videos_run folder SIZE_LIMIT_MB w)
      as (lv & Hrun & Hlv).
    exists lv. split; [done|]. intros p n Hp.
    rewrite Hlv, rglob_spec. unfold is_large_video.
    assert (Hthr : ∀ m, (SIZE_LIMIT_MB * inject_Z (1024 * 1024) < inject_Z m)%Q
                        ↔ 200 * 1024 * 1024 < m).
    { intros m. unfold SIZE_LIMIT_MB, Qlt, Qmult, inject_Z. simpl. lia. }
    split.
    + intros (Hd & Hb & m & Hm & Hext & Hlt).
      assert (m = n) as -> by congruence.
      exact (conj (conj Hd (conj Hb (mk_is_Some _ _ Hp)))
                  (conj Hext (proj1 (Hthr n) Hlt))).
    + intros ((Hd & Hb & _) & Hext & Hlt).
      exact (conj Hd (conj Hb (ex_intro _ n
               (conj Hp (conj Hext (proj2 (Hthr n) Hlt)))))).
Qed.

(** The scan depends on the file system only. *)
Lemma collect_large_videos_fs (paths : list path) (size_limit_mb : Q)
    (acc : list (path * Q)) (w v : world) :
  fs v = fs w →
  (collect_large_videos O paths size_limit_mb acc v).1
  = (collect_large_videos O paths size_limit_mb acc w).1.
Proof.
  intros Hfs. revert acc. induction paths as [|p0 paths IH]; intros acc; [done|].
  simpl. unfold read_fs, get_file_size_mb, try_fs, mbind, M_bind, mret, M_ret.
  simpl. rewrite Hfs. destruct (FS.is_file (fs w) p0 && _); [|apply IH].
  rewrite Hfs. destruct (FS.stat_size (fs w) p0) as [n|e]; [|done].
  destruct (Qgtb _ _); apply IH.
Qed.

Lemma scan_large_videos_fs (folder : path) (size_limit_mb : Q)
    (large_videos : list (path * Q)) (w v : world) :
  fs v = fs w →
  scan_large_videos O folder size_limit_mb w = (Ok large_videos, w) →
  scan_large_videos O folder size_limit_mb v = (Ok large_videos, v).
Proof.
  intros Hfs Hw.
  destruct (scan_large_videos_run folder size_limit_mb v) as (lv & Hv & _).
  rewrite Hv. f_equal.
  assert (Heq : (scan_large_videos O folder size_limit_mb v).1
                = (scan_large_videos O folder size_limit_mb w).1).
  { unfold scan_large_videos, mbind, M_bind, read_fs. rewrite Hfs.
    by apply collect_large_videos_fs. }
  by rewrite Hv, Hw in Heq.
Qed.

End Scan.

Section Batch.

Context (O : oracle).

(** The events of a run of the batch, against the list the scan of
    the starting file system gives. *)
Lemma scan_and_split_events (folder : path) (size_limit_mb : Q) (w : world)
    (lv : list (path * Q)) :
  scan_large_videos O folder size_limit_mb w = (Ok lv, w) →
  (∀ p, p ∈ lv.*1 ↔ is_large_video O (fs w) folder size_limit_mb p) →
  let run := scan_and_split O folder size_limit_mb w in
  ∃ l, trace run.2 = trace w ++ l
       ∧ omap job_started l `prefix_of` lv.*1
       ∧ (run.1 = Ok tt → omap job_started l = lv.*1)
       ∧ Forall (λ e, ∀ argv o, e = Run argv o
                    → ∃ p, input_of argv = Some p ∧ p ∈ lv.*1) l.
Proof.
  intros Hscan Hlv.
  assert (Hprints : ∀ l : list event,
            Forall (λ e, ∃ line, e = Print line) l →
            omap job_started l = []
            ∧ Forall (λ e, ∀ argv o, e = Run argv o
                         → ∃ p, input_of argv = Some p ∧ p ∈ lv.*1) l).
  { induction 1 as [|e l [line ->] _ [IH1 IH2]]; [done|].
    split; [done|]. constructor; [|done]. intros argv o Heq. discriminate Heq. }
  simpl. destruct (scan_and_split O folder size_limit_mb w) as [r w'] eqn:Hrun.
  simpl. unfold scan_and_split in Hrun.
  unfold mbind at 1, M_bind at 1, read_fs at 1 in Hrun.
  destruct (FS.exists_ (fs w) folder) eqn:Hex; simpl in Hrun.
  2:{ (* the folder is absent: one line, no job *)
      assert (Hnil : lv.*1 = []).
      { destruct lv as [|[p q] lv]; [done|].
        destruct (proj1 (Hlv p)) as (Hd & _); [by left|].
        apply exists_false in Hex. unfold FS.is_dir in Hd.
        by rewrite Hex in Hd. }
      unfold print in Hrun. injection Hrun as <- <-.
      eexists. split; [done|]. rewrite Hnil.
      split; [done|]. split; [done|].
      apply Forall_singleton. intros argv o Heq. discriminate Heq. }
  do 3 unfold mbind at 1, M_bind at 1, print at 1 in Hrun. simpl in Hrun.
  match type of Hrun with
  | context [ World (fs w) ?t ] => set (w3 := World (fs w) t) in Hrun
  end.
  rewrite (bind_ok _ _ _ _ _
             (scan_large_videos_fs O folder size_limit_mb lv w w3 eq_refl Hscan))
    in Hrun.
  destruct lv as [|job lv].
  { unfold print in Hrun. injection Hrun as <- <-.
    eexists. split.
    - simpl. by rewrite <- !(assoc_L (++)).
    - simpl. split; [done|]. split; [done|].
      apply (Hprints [_; _; _; _]). repeat constructor; by eexists. }
  set (jobs := job :: lv) in *.
  rewrite bind_print in Hrun.
  match type of Hrun with
  | context [ World (fs w3) ?t ] => set (w4 := World (fs w3) t) in Hrun
  end.
  destruct (job_loop_events O (length jobs) jobs 1 w4)
    as (l & Hl & Hpre & Hall & Hcmd).
  unfold mbind at 1, M_bind at 1 in Hrun.
  destruct (for_each (enumerate jobs 1) (process_one O (length jobs)) w4)
    as [[[]|e] w5]; simpl in Hl, Hall.
  - rewrite !bind_print in Hrun. unfold print in Hrun.
    injection Hrun as <- <-.
    eexists. split.
    + simpl. rewrite Hl. simpl.
      rewrite <- !(assoc_L (++)). simpl. reflexivity.
    + destruct (Hprints [Print [Lit (Str.times "-" 50)];
                         Print [Lit "🎉 處理完成!"]]) as [Hj2 Ha2].
      { repeat constructor; by eexists. }
      simpl. rewrite omap_app, Hj2, app_nil_r.
      split; [done|]. split; [by intros _; apply Hall|].
      repeat (constructor; [by intros argv o Heq; discriminate Heq|]).
      apply Forall_app. by split.
  - injection Hrun as <- <-.
    eexists. split.
    + simpl. rewrite Hl. simpl.
      rewrite <- !(assoc_L (++)). simpl. reflexivity.
    + simpl. split; [done|]. split; [done|].
      repeat (constructor; [by intros argv o Heq; discriminate Heq|]).
      done.
Qed.


Lemma scan_and_split_raises (folder : path) (size_limit_mb : Q) :
  raises_only (λ e, is_OSError e = true)
              (scan_and_split O folder size_limit_mb).
Proof.
  unfold scan_and_split.
  apply raises_only_bind; [apply raises_only_read_fs|].
  intros []; simpl; [|apply raises_only_print].
  do 3 (apply raises_only_bind; [apply raises_only_print|]; intros _).
  apply raises_only_bind.
  { intros w e w' H.
    destruct (scan_large_videos_run O folder size_limit_mb w) as (lv & Hlv & _).
    by rewrite Hlv in H. }
  intros [|job lv]; [apply raises_only_print|].
  apply raises_only_bind; [apply raises_only_print|]. intros _.
  apply raises_only_bind.
  { apply raises_only_for_each. intros job'. apply process_one_raises. }
  intros _. apply raises_only_bind; [apply raises_only_print|]. intros _.
  apply raises_only_print.
Qed.

Lemma check_ffmpeg_run (w : world) :
  let cmd := [Lit "ffmpeg"; Lit "-version"] in
  check_ffmpeg O w
  = (Ok (tool_available (spawn O w cmd)),
     World (fs w) (trace w ++ [Run cmd (spawn O w cmd)])).
Proof.
  unfold check_ffmpeg, try_except, mbind, M_bind, subprocess_run. simpl.
  destruct (spawn O w _) as [|c wr]; simpl; [done|].
  by destruct (returncode c =? 0).
Qed.

(** What [main] comes to: its first command is the version check; if
    that fails the program exits with status 1, and otherwise it ends
    as the batch ends, normally or with an [OSError], and normally
    when the target folder is absent. *)
Lemma splitter_main_outcome (w : world) :
  let r := main O w in
  ∃ o, first_run (new_events w r.2) = Some ([Lit "ffmpeg"; Lit "-version"], o)
       ∧ (tool_available o = false → r.1 = Raise (SystemExit 1))
       ∧ (tool_available o = true →
          (r.1 = Ok tt ∨ ∃ e, r.1 = Raise e ∧ is_OSError e = true)
          ∧ (FS.exists_ (fs w) TARGET_FOLDER = false → r.1 = Ok tt)).
Proof.
  simpl. destruct (main O w) as [r w'] eqn:Hrun. simpl.
  unfold main in Hrun. rewrite !bind_print in Hrun. cbn [fs trace] in Hrun.
  unfold mbind at 1, M_bind at 1 in Hrun. rewrite check_ffmpeg_run in Hrun.
  cbn [fs trace] in Hrun.
  match type of Hrun with
  | context [ tool_available ?x ] => set (o := x) in Hrun
  end.
  exists o. destruct (tool_available o) eqn:Hok; simpl in Hrun.
  - rewrite bind_print in Hrun. cbn [fs trace] in Hrun.
    match type of Hrun with
    | scan_and_split O _ _ ?v = _ => set (wc := v) in Hrun
    end.
    destruct (scan_large_videos_run O TARGET_FOLDER SIZE_LIMIT_MB wc)
      as (lv & Hscan & Hlv).
    destruct (scan_and_split_events TARGET_FOLDER SIZE_LIMIT_MB wc lv
                Hscan Hlv) as (l & Hl & _).
    simpl in Hl. rewrite Hrun in Hl. simpl in Hl.
    split; [|split; [done|]].
    + erewrite new_events_app; [|rewrite Hl;
        rewrite <- !(assoc_L (++)); simpl; reflexivity].
      reflexivity.
    + intros _. split.
      * destruct r as [[]|e]; [by left|right].
        exists e. split; [done|].
        by eapply (scan_and_split_raises TARGET_FOLDER SIZE_LIMIT_MB).
      * intros Hex. unfold scan_and_split, mbind, M_bind, read_fs in Hrun.
        simpl in Hrun. rewrite Hex in Hrun. simpl in Hrun.
        by injection Hrun as <- _.
  - rewrite !bind_print in Hrun. unfold raise in Hrun.
    injection Hrun as <- <-. split; [|by split].
    erewrite new_events_app; [|simpl; rewrite <- !(assoc_L (++)); simpl;
                                reflexivity].
    reflexivity.
Qed.

Lemma video_extension_nonempty (unicode_lower : string → string)
    (sfx : string) :
  Str.lower unicode_lower sfx ∈ VIDEO_EXTENSIONS → sfx ≠ "".
Proof.
  intros Hin ->. revert Hin. change (Str.lower unicode_lower "") with "".
  apply (bool_decide_unpack _). by vm_compute.
Qed.

(** C2 (amended). After a successful split of a candidate, a re-scan
    of the same root does not find the original at its original path;
    it does find the archived original, which the archive folder does
    not hide and which kept its size and extension; and it finds a
    part file exactly when that part is larger than the limit. *)
Theorem rescan_after_split (folder : path) (size_limit_mb : Q)
    (file_path : path) (w w' : world) (n : Z) :
  is_large_video O (fs w) folder size_limit_mb file_path →
  fs w !! file_path = Some (File n) →
  split_video O file_path None w = (Ok true, w') →
  let archive_path :=
    joinpath (joinpath (parent file_path) ARCHIVE_FOLDER_NAME)
             (name file_path) in
  ∃ rescan,
    scan_large_videos O folder size_limit_mb w' = (Ok rescan, w')
    ∧ (file_path ∉ rescan.*1)
    ∧ (∃ dest,
          (dest = archive_path ∨ dest = joinpath archive_path (name file_path))
          ∧ fs w' !! dest = Some (File n)
          ∧ dest ∈ rescan.*1)
    ∧ (∀ tag, tag = "_part1" ∨ tag = "_part2" →
         let part := part_path (parent file_path) file_path tag in
         part ∈ rescan.*1
         ↔ ∃ m, fs w' !! part = Some (File m)
                ∧ (size_limit_mb * inject_Z (1024 * 1024) < inject_Z m)%Q).
Proof.
  intros Hcand Hfile Hsplit archive_path.
  destruct Hcand as (Hroot & Hbelow & n' & Hn' & Hext & Hsize).
  assert (n' = n) as -> by congruence.
  destruct (split_video_true_inv O _ _ _ _ Hsplit)
    as (d & w1 & w2 & w3 & Hprobe & Hd & Hplan & Hparts & Harch).
  simpl in Hplan, Hparts.
  set (p1 := part_path (parent file_path) file_path "_part1") in *.
  set (p2 := part_path (parent file_path) file_path "_part2") in *.
  (* the file system when the archival starts *)
  assert (Hfs2 : fs w2 = fs w).
  { destruct (announce_plan_run d (d / 2)%float p1 p2 w1) as (l & Hl & _).
    rewrite Hplan in Hl. injection Hl as ->. simpl.
    pose proof (get_video_duration_fs O file_path w) as Hfs.
    by rewrite Hprobe in Hfs. }
  destruct (transcode_parts_outcome O file_path (d / 2)%float p1 p2 w2)
    as (Hframe & Hdirs & _). rewrite Hparts in Hframe, Hdirs.
  simpl in Hframe, Hdirs. rewrite Hfs2 in Hframe, Hdirs.
  assert (Hsrc3 : fs w3 !! file_path = Some (File n)).
  { rewrite Hframe; [done|..]; intros Heq.
    - by apply (part_path_ne_source (parent file_path) file_path "_part1").
    - by apply (part_path_ne_source (parent file_path) file_path "_part2"). }
  destruct (archive_original_ok _ _ _ _ Hsrc3 Harch)
    as (dest & Hdest & Hfound & _ & Hgone & Hkeep).
  fold archive_path in Hdest.
  pose proof (below_nonempty _ _ Hbelow) as Hne.
  pose proof (below_parent _ _ Hbelow) as Hpre.
  assert (Hlen : length file_path = S (length (parent file_path))).
  { rewrite <- (joinpath_parent_name file_path Hne) at 1.
    apply length_joinpath. }
  assert (Hdest_ne : dest ≠ file_path).
  { intros Heq. apply (f_equal length) in Heq. rewrite Hlen in Heq.
    destruct Hdest as [-> | ->]; unfold archive_path in Heq;
      rewrite !length_joinpath in Heq; lia. }
  assert (Hroot' : FS.is_dir (fs w') folder = true).
  { apply Hkeep. by rewrite Hdirs. }
  destruct (scan_large_videos_run O folder size_limit_mb w')
    as (rescan & Hrescan & Hin).
  exists rescan. split; [done|]. split; [|split].
  - rewrite Hin. intros (_ & _ & m & Hm & _).
    rewrite (Hgone Hdest_ne) in Hm. done.
  - exists dest. split; [done|]. split; [done|]. rewrite Hin.
    split; [done|]. split.
    + destruct Hdest as [-> | ->]; unfold archive_path;
        by repeat (apply below_joinpath || apply prefix_joinpath).
    + exists n. split; [done|]. split; [|done].
      assert (suffix dest = suffix file_path) as ->; [|done].
      destruct Hdest as [-> | ->]; unfold archive_path;
        by rewrite suffix_joinpath.
  - intros tag Htag part. rewrite Hin. unfold is_large_video. split.
    + intros (_ & _ & m & Hm & _ & Hlt). by exists m.
    + intros (m & Hm & Hlt). split; [done|].
      split; [by apply below_joinpath|]. exists m. split; [done|].
      split; [|done]. unfold part, part_path. rewrite suffix_joinpath.
      unfold stem, suffix in *.
      rewrite suffix_tagged; [done| |by destruct Htag as [-> | ->]].
      by eapply video_extension_nonempty.
Qed.

End Batch.

End SplitterFacts.

(** ** The enhancer *)

Module EnhancerFacts.

Import Enhancer TraceFacts MonadFacts FSFacts PathFacts StrFacts.

Section WithConfig.

Context (cfg : config) (O : oracle).

(** C5. The filter chain is the scale stage, then the sharpen stage
    with chroma amount 0, then the denoise stage exactly when denoise
    is enabled, with the luma and chroma strengths given twice; for
    3840x2160, "lanczos", amount 1.0 and no denoise it is
    scale=3840:2160:flags=lanczos,unsharp=lx:ly:1.0:lx:ly:0. *)
Theorem filter_chain_order :
  let lx := Str.of_int (SHARPEN_LUMA_X cfg) in
  let ly := Str.of_int (SHARPEN_LUMA_Y cfg) in
  build_filter_chain cfg =
    "scale=" +:+ Str.of_int (TARGET_WIDTH cfg) +:+ ":"
      +:+ Str.of_int (TARGET_HEIGHT cfg) +:+ ":flags=" +:+ SCALE_ALGORITHM cfg
      +:+ ",unsharp=" +:+ lx +:+ ":" +:+ ly +:+ ":" +:+ SHARPEN_AMOUNT cfg
      +:+ ":" +:+ lx +:+ ":" +:+ ly +:+ ":0"
      +:+ (if ENABLE_DENOISE cfg
           then ",hqdn3d=" +:+ DENOISE_LUMA_STRENGTH cfg +:+ ":"
                  +:+ DENOISE_CHROMA_STRENGTH cfg +:+ ":"
                  +:+ DENOISE_LUMA_STRENGTH cfg +:+ ":"
                  +:+ DENOISE_CHROMA_STRENGTH cfg
           else "")
  ∧ (TARGET_WIDTH cfg = 3840 → TARGET_HEIGHT cfg = 2160 →
     SCALE_ALGORITHM cfg = "lanczos" → SHARPEN_AMOUNT cfg = "1.0" →
     ENABLE_DENOISE cfg = false →
     build_filter_chain cfg =
       "scale=3840:2160:flags=lanczos,unsharp=" +:+ lx +:+ ":" +:+ ly
         +:+ ":1.0:" +:+ lx +:+ ":" +:+ ly +:+ ":0").
Proof.
  intros lx ly.
  assert (Hchain : build_filter_chain cfg =
    "scale=" +:+ Str.of_int (TARGET_WIDTH cfg) +:+ ":"
      +:+ Str.of_int (TARGET_HEIGHT cfg) +:+ ":flags=" +:+ SCALE_ALGORITHM cfg
      +:+ ",unsharp=" +:+ lx +:+ ":" +:+ ly +:+ ":" +:+ SHARPEN_AMOUNT cfg
      +:+ ":" +:+ lx +:+ ":" +:+ ly +:+ ":0"
      +:+ (if ENABLE_DENOISE cfg
           then ",hqdn3d=" +:+ DENOISE_LUMA_STRENGTH cfg +:+ ":"
                  +:+ DENOISE_CHROMA_STRENGTH cfg +:+ ":"
                  +:+ DENOISE_LUMA_STRENGTH cfg +:+ ":"
                  +:+ DENOISE_CHROMA_STRENGTH cfg
           else "")).
  { unfold build_filter_chain, scale_filter, sharpen_filter, denoise_filter.
    fold lx ly. destruct (ENABLE_DENOISE cfg); simpl;
      rewrite !app_assoc; reflexivity. }
  split; [exact Hchain|].
  intros Hw Hh Halg Hamt Hden. rewrite Hchain, Hw, Hh, Halg, Hamt, Hden.
  reflexivity.
Qed.

(** What [enhance_video] does, by the outcome of its one command. *)
Lemma enhance_video_run (input_path output_path : path) (w : world) :
  let cmd := enhance_cmd cfg input_path output_path in
  let l0 := [Print [Lit "  ⏳ 正在處理中..."];
             Print [Lit "     濾鏡: "; Lit (build_filter_chain cfg)]] in
  let o := spawn O (World (fs w) (trace w ++ l0)) cmd in
  enhance_video cfg O input_path output_path w =
    match o with
    | NotFound =>
        (Raise FileNotFoundError,
         World (fs w) (trace w ++ l0 ++ [Run cmd o]))
    | Completed c written =>
        if returncode c =? 0
        then (Ok true,
              World (written_fs cmd written (fs w))
                    (trace w ++ l0 ++ [Run cmd o]))
        else (Ok false,
              World (written_fs cmd written (fs w))
                    (trace w ++ l0
                       ++ [Run cmd o;
                           Print [Lit "  ❌ FFmpeg 錯誤:"];
                           Print [Lit (stderr_tail (stderr c))]]))
    end.
Proof.
  simpl. unfold enhance_video, try_except.
  rewrite !bind_print. cbn [fs trace].
  unfold mbind, M_bind, subprocess_run.
  rewrite <- !(assoc_L (++)). simpl.
  destruct (spawn O _ (enhance_cmd cfg input_path output_path)) as [|c wr];
    simpl.
  - by rewrite <- !(assoc_L (++)).
  - destruct (returncode c =? 0); simpl; by rewrite <- !(assoc_L (++)).
Qed.

(** The kept tail is the end of the text, 500 characters of it or all
    of it when there are no more; the count is in characters, not in
    bytes. *)
Lemma stderr_tail_spec (stderr : string) :
  (∃ dropped, stderr = dropped +:+ stderr_tail stderr)
  ∧ Str.len (stderr_tail stderr) = Nat.min 500 (Str.len stderr)
  ∧ ((Str.len stderr ≤ 500)%nat → stderr_tail stderr = stderr).
Proof.
  unfold stderr_tail, Str.last_chars.
  destruct (500 <? Str.len stderr)%nat eqn:Hlen.
  - apply Nat.ltb_lt in Hlen. split; [apply drop_chars_end|].
    split; [rewrite len_drop_chars; lia|lia].
  - apply Nat.ltb_ge in Hlen. split; [by exists ""|]. split; [lia|done].
Qed.

(** C6. The executor reports success exactly when the transcoder
    process ran and exited with code 0, whatever it wrote or did not
    write at the output path; when the process exits non-zero the
    executor reports failure and the diagnostic it prints, after the
    error header, is the tail of the captured stderr: its last 500
    characters, or all of it when it has no more than 500, where a
    character of the decoded text counts once however many bytes its
    encoding has. *)
Theorem enhance_success_is_exit_code (input_path output_path : path)
    (w : world) :
  let cmd := enhance_cmd cfg input_path output_path in
  let r := enhance_video cfg O input_path output_path w in
  ∃ l0 o rest,
    new_events w r.2 = l0 ++ [Run cmd o] ++ rest
    ∧ Forall (λ e, ∃ line, e = Print line) l0
    ∧ (r.1 = Ok true ↔ ∃ c written, o = Completed c written
                                     ∧ returncode c = 0)
    ∧ (∀ c written, o = Completed c written → returncode c ≠ 0 →
         r.1 = Ok false
         ∧ rest = [Print [Lit "  ❌ FFmpeg 錯誤:"];
                   Print [Lit (stderr_tail (stderr c))]]
         ∧ (∃ dropped, stderr c = dropped +:+ stderr_tail (stderr c))
         ∧ Str.len (stderr_tail (stderr c)) = Nat.min 500 (Str.len (stderr c))
         ∧ ((Str.len (stderr c) ≤ 500)%nat
            → stderr_tail (stderr c) = stderr c)).
Proof.
  cbv zeta. rewrite enhance_video_run. cbv zeta.
  match goal with
  | |- context [ spawn O ?v ?a ] => set (o := spawn O v a)
  end.
  eexists [_; _], o. destruct o as [|c wr].
  - exists []. cbn [fst snd].
    split; [by apply new_events_app|].
    split; [repeat constructor; by eexists|]. split; [|done].
    split; [done|]. by intros (c & wr & ? & _).
  - destruct (returncode c =? 0) eqn:Hrc.
    + apply Z.eqb_eq in Hrc. exists []. cbn [fst snd].
      split; [by apply new_events_app|].
      split; [repeat constructor; by eexists|]. split.
      * split; [|done]. intros _. by exists c, wr.
      * intros c' wr' [= <- <-] Hne. done.
    + apply Z.eqb_neq in Hrc. eexists [_; _]. cbn [fst snd].
      split; [by apply new_events_app|].
      split; [repeat constructor; by eexists|]. split.
      * split; [done|]. intros (c' & wr' & [= <- <-] & Hz). done.
      * intros c' wr' [= <- <-] _. split; [done|]. split; [done|].
        apply stderr_tail_spec.
Qed.

(** C9 (amended). A failed enhance job is not cleaned up: when the
    transcoder exits non-zero the executor reports failure and leaves
    the file system exactly as the transcoder left it, so whatever the
    transcoder wrote at the precomputed output path is still there,
    and no file that existed before the job is removed. *)
Theorem failed_enhance_keeps_partial_output (input_path output_path : path)
    (w : world) (c : completed) (written : option Z) :
  let cmd := enhance_cmd cfg input_path output_path in
  let r := enhance_video cfg O input_path output_path w in
  Run cmd (Completed c written) ∈ new_events w r.2 →
  returncode c ≠ 0 →
  r.1 = Ok false
  ∧ fs r.2 = written_fs cmd written (fs w)
  ∧ (∀ n, written = Some n →
          FS.is_dir (fs w) (parent output_path) = true →
          FS.is_dir (fs w) output_path = false →
          fs r.2 !! output_path = Some (File n))
  ∧ (∀ p, is_Some (fs w !! p) → is_Some (fs r.2 !! p)).
Proof.
  cbv zeta. rewrite enhance_video_run. cbv zeta.
  set (cmd := enhance_cmd cfg input_path output_path).
  assert (Hout : written_path cmd = Some output_path).
  { unfold cmd, enhance_cmd. by destruct (0 <? MAX_BITRATE cfg). }
  match goal with
  | |- context [ spawn O ?v ?a ] => set (o := spawn O v a)
  end.
  intros Hin Hrc.
  assert (Ho : o = Completed c written).
  { destruct o as [|c' wr']; [|destruct (returncode c' =? 0)];
      cbn [snd] in Hin;
      (erewrite new_events_app in Hin; [|reflexivity]);
      repeat (apply elem_of_cons in Hin as [Hin|Hin];
              [try discriminate Hin|]);
      try (by apply elem_of_nil in Hin); congruence. }
  rewrite Ho. apply Z.eqb_neq in Hrc. rewrite Hrc. cbn [fst snd fs].
  split; [done|]. split; [done|]. split.
  - intros n -> Hparent Hnotdir. unfold written_fs. rewrite Hout.
    unfold FS.write_file. rewrite Hparent, Hnotdir. simpl.
    apply lookup_insert_eq.
  - intros p. apply written_fs_keeps.
Qed.

(** *** The whole program *)

Lemma get_video_info_emits (P : event → Prop) (file_path : path) :
  (∀ line, P (Print line)) → (∀ argv o, P (Run argv o)) →
  emits P (get_video_info O file_path).
Proof.
  intros HP HR. unfold get_video_info. apply emits_try_except.
  - apply emits_bind; [by apply emits_subprocess_run|]. intros c.
    destruct (parse_streams O (stdout c)); [apply emits_ret|apply emits_raise].
  - intros e h He. destruct e; simplify_eq;
      (apply emits_bind; [by apply emits_print|]); intros _; apply emits_ret.
Qed.

Lemma get_video_info_raises (file_path : path) :
  raises_only (λ _, False) (get_video_info O file_path).
Proof.
  unfold get_video_info.
  apply (raises_only_try_except _ (λ e, ∀ n, e ≠ SystemExit n)).
  - apply raises_only_bind.
    + by apply raises_only_subprocess_run.
    + intros c. destruct (parse_streams O (stdout c));
        [apply raises_only_ret|by apply raises_only_raise].
  - intros e He. destruct e; try (by destruct (He code));
      (apply raises_only_bind; [apply raises_only_print|]);
      intros _; apply raises_only_ret.
Qed.

Lemma enhance_video_emits (P : event → Prop) (input_path output_path : path) :
  (∀ line, P (Print line)) → (∀ argv o, P (Run argv o)) →
  emits P (enhance_video cfg O input_path output_path).
Proof.
  intros HP HR. unfold enhance_video. apply emits_try_except.
  - apply emits_bind; [by apply emits_print|]. intros _.
    apply emits_bind; [by apply emits_print|]. intros _.
    apply emits_bind; [by apply emits_subprocess_run|]. intros c.
    destruct (returncode c =? 0); [apply emits_ret|].
    apply emits_bind; [by apply emits_print|]. intros _.
    apply emits_bind; [by apply emits_print|]. intros _. apply emits_ret.
  - intros e h He. destruct e; simplify_eq.
    apply emits_bind; [by apply emits_print|]. intros _. apply emits_ret.
Qed.

Lemma enhance_video_raises (input_path output_path : path) :
  raises_only (λ e, is_OSError e = true)
              (enhance_video cfg O input_path output_path).
Proof.
  unfold enhance_video.
  apply (raises_only_try_except _ (λ e, e = FileNotFoundError)).
  - apply raises_only_bind; [apply raises_only_print|]. intros _.
    apply raises_only_bind; [apply raises_only_print|]. intros _.
    apply raises_only_bind; [by apply raises_only_subprocess_run|]. intros c.
    destruct (returncode c =? 0); [apply raises_only_ret|].
    apply raises_only_bind; [apply raises_only_print|]. intros _.
    apply raises_only_bind; [apply raises_only_print|]. intros _.
    apply raises_only_ret.
  - by intros e ->.
Qed.

Lemma print_info_emits (P : event → Prop) (a b : string) (info : video_info) :
  (∀ line, P (Print line)) → emits P (print_info a b info).
Proof.
  intros HP. unfold print_info. apply emits_bind; [by apply emits_print|].
  intros _. destruct (bitrate info =? 0); [apply emits_ret|by apply emits_print].
Qed.

Lemma print_info_raises (P : exn → Prop) (a b : string) (info : video_info) :
  raises_only P (print_info a b info).
Proof.
  unfold print_info. apply raises_only_bind; [apply raises_only_print|].
  intros _. destruct (bitrate info =? 0);
    [apply raises_only_ret|apply raises_only_print].
Qed.

Lemma enhance_job_emits (P : event → Prop) (total : nat) (job : Z * path) :
  (∀ line, P (Print line)) → (∀ argv o, P (Run argv o)) →
  emits P (process_one cfg O total job).
Proof.
  intros HP HR. destruct job as [i video_path]. unfold process_one.
  apply emits_bind; [by apply emits_print|]. intros _.
  apply emits_bind; [by apply get_video_info_emits|]. intros info.
  apply emits_bind.
  { destruct info; [by apply print_info_emits|apply emits_ret]. }
  intros _. apply emits_bind; [by apply emits_print|]. intros _.
  apply emits_bind; [by apply enhance_video_emits|].
  intros []; [|apply emits_ret].
  apply emits_bind; [by apply get_video_info_emits|]. intros info'.
  apply emits_bind; [|intros _; apply emits_ret].
  destruct info'; [|by apply emits_print].
  apply emits_bind; [by apply emits_print|]. intros _.
  by apply print_info_emits.
Qed.

Lemma enhance_job_raises (total : nat) (job : Z * path) :
  raises_only (λ e, is_OSError e = true) (process_one cfg O total job).
Proof.
  assert (Hinfo : ∀ p, raises_only (λ e, is_OSError e = true)
                                   (get_video_info O p)).
  { intros p. eapply raises_only_mono; [|apply get_video_info_raises]. done. }
  destruct job as [i video_path]. unfold process_one.
  apply raises_only_bind; [apply raises_only_print|]. intros _.
  apply raises_only_bind; [apply Hinfo|]. intros info.
  apply raises_only_bind.
  { destruct info; [apply print_info_raises|apply raises_only_ret]. }
  intros _. apply raises_only_bind; [apply raises_only_print|]. intros _.
  apply raises_only_bind; [apply enhance_video_raises|].
  intros []; [|apply raises_only_ret].
  apply raises_only_bind; [apply Hinfo|]. intros info'.
  apply raises_only_bind; [|intros _; apply raises_only_ret].
  destruct info'; [|apply raises_only_print].
  apply raises_only_bind; [apply raises_only_print|]. intros _.
  apply print_info_raises.
Qed.

Lemma process_all_emits (P : event → Prop) (total : nat)
    (jobs : list (Z * path)) (ok bad : Z) :
  (∀ line, P (Print line)) → (∀ argv o, P (Run argv o)) →
  emits P (process_all cfg O total jobs ok bad).
Proof.
  intros HP HR. revert ok bad.
  induction jobs as [|job jobs IH]; intros ok bad; simpl; [apply emits_ret|].
  apply emits_bind; [by apply enhance_job_emits|]. intros []; apply IH.
Qed.

Lemma process_all_raises (total : nat) (jobs : list (Z * path)) (ok bad : Z) :
  raises_only (λ e, is_OSError e = true)
              (process_all cfg O total jobs ok bad).
Proof.
  revert ok bad.
  induction jobs as [|job jobs IH]; intros ok bad; simpl;
    [apply raises_only_ret|].
  apply raises_only_bind; [apply enhance_job_raises|]. intros []; apply IH.
Qed.

Lemma scan_and_enhance_emits (P : event → Prop) :
  (∀ line, P (Print line)) → (∀ argv o, P (Run argv o)) →
  emits P (scan_and_enhance cfg O).
Proof.
  intros HP HR. unfold scan_and_enhance.
  apply emits_bind; [apply emits_read_fs|]. intros []; simpl.
  - apply emits_bind; [apply emits_update_fs|]. intros _.
    apply emits_bind; [apply emits_try_fs|]. intros entries.
    apply emits_bind; [apply emits_read_fs|]. intros [|video videos].
    { do 2 (apply emits_bind; [by apply emits_print|]; intros _).
      by apply emits_print. }
    do 7 (apply emits_bind; [by apply emits_print|]; intros _).
    apply emits_bind; [by apply process_all_emits|]. intros counts.
    do 3 (apply emits_bind; [by apply emits_print|]; intros _).
    apply emits_bind; [|intros _; by apply emits_print].
    destruct (0 <? counts.2); [by apply emits_print|apply emits_ret].
  - apply emits_bind; [apply emits_update_fs|]. intros _.
    apply emits_bind; [by apply emits_print|]. intros _. by apply emits_print.
Qed.

Lemma scan_and_enhance_raises :
  raises_only (λ e, is_OSError e = true) (scan_and_enhance cfg O).
Proof.
  unfold scan_and_enhance.
  apply raises_only_bind; [apply raises_only_read_fs|]. intros []; simpl.
  - apply raises_only_bind.
    { apply raises_only_update_fs. intros fs e.
      apply (mkdir_OSError true true). }
    intros _. apply raises_only_bind.
    { apply raises_only_try_fs. intros fs e. apply iterdir_OSError. }
    intros entries.
    apply raises_only_bind; [apply raises_only_read_fs|].
    intros [|video videos].
    { do 2 (apply raises_only_bind; [apply raises_only_print|]; intros _).
      apply raises_only_print. }
    do 7 (apply raises_only_bind; [apply raises_only_print|]; intros _).
    apply raises_only_bind; [apply process_all_raises|]. intros counts.
    do 3 (apply raises_only_bind; [apply raises_only_print|]; intros _).
    apply raises_only_bind; [|intros _; apply raises_only_print].
    destruct (0 <? counts.2); [apply raises_only_print|apply raises_only_ret].
  - apply raises_only_bind.
    { apply raises_only_update_fs. intros fs e.
      apply (mkdir_OSError true false). }
    intros _. apply raises_only_bind; [apply raises_only_print|]. intros _.
    apply raises_only_print.
Qed.

Lemma check_ffmpeg_version (w : world) :
  let cmd := [Lit "ffmpeg"; Lit "-version"] in
  check_ffmpeg O w
  = (Ok (tool_available (spawn O w cmd)),
     World (fs w) (trace w ++ [Run cmd (spawn O w cmd)])).
Proof.
  unfold check_ffmpeg, try_except, mbind, M_bind, subprocess_run. simpl.
  destruct (spawn O w _) as [|c wr]; simpl; [done|].
  by destruct (returncode c =? 0).
Qed.

(** What [main] comes to: its first command is the version check; if
    that fails the program exits with status 1, and otherwise it ends
    as the batch ends, normally or with an [OSError], and normally
    when the input folder is absent and can be made. *)
Lemma enhancer_main_outcome (w : world) :
  let r := main cfg O w in
  ∃ o, first_run (new_events w r.2) = Some ([Lit "ffmpeg"; Lit "-version"], o)
       ∧ (tool_available o = false → r.1 = Raise (SystemExit 1))
       ∧ (tool_available o = true →
          (r.1 = Ok tt ∨ ∃ e, r.1 = Raise e ∧ is_OSError e = true)
          ∧ (FS.exists_ (fs w) (INPUT_FOLDER cfg) = false →
             (∃ fs', FS.mkdir true false (fs w) (INPUT_FOLDER cfg) = Ok fs') →
             r.1 = Ok tt)).
Proof.
  simpl. destruct (main cfg O w) as [r w'] eqn:Hrun. simpl.
  unfold main in Hrun. rewrite !bind_print in Hrun. cbn [fs trace] in Hrun.
  unfold mbind at 1, M_bind at 1 in Hrun. rewrite check_ffmpeg_version in Hrun.
  cbn [fs trace] in Hrun.
  match type of Hrun with
  | context [ tool_available ?x ] => set (o := x) in Hrun
  end.
  exists o. destruct (tool_available o) eqn:Hok; simpl in Hrun.
  - rewrite bind_print in Hrun. cbn [fs trace] in Hrun.
    match type of Hrun with
    | scan_and_enhance cfg O ?v = _ => set (wc := v) in Hrun
    end.
    destruct (scan_and_enhance_emits (λ _, True) (λ _, I) (λ _ _, I) wc)
      as (l & Hl & _).
    rewrite Hrun in Hl. simpl in Hl.
    split; [|split; [done|]].
    + erewrite new_events_app; [|rewrite Hl;
        rewrite <- !(assoc_L (++)); simpl; reflexivity].
      reflexivity.
    + intros _. split.
      * destruct r as [[]|e]; [by left|right].
        exists e. split; [done|]. by eapply scan_and_enhance_raises.
      * intros Hex [fs' Hmk].
        unfold scan_and_enhance, mbind, M_bind, read_fs, update_fs in Hrun.
        simpl in Hrun. rewrite Hex in Hrun. simpl in Hrun.
        rewrite Hmk in Hrun. unfold print in Hrun.
        by injection Hrun as <- _.
  - rewrite !bind_print in Hrun. unfold raise in Hrun.
    injection Hrun as <- <-. split; [|by split].
    erewrite new_events_app; [|simpl; rewrite <- !(assoc_L (++)); simpl;
                                reflexivity].
    reflexivity.
Qed.

End WithConfig.

End EnhancerFacts.

(** ** The exit status of the two programs *)

Module ExitStatus.

Import TraceFacts MonadFacts.

(** C7 (amended). The first command of either program is the version
    check of the transcoder.  When it fails the exit status is 1.
    When it succeeds the exit status is 0 exactly when the run
    completes and 1 exactly when an [OSError] escapes it; a job that
    fails ends its turn of the loop normally, and an absent root
    directory is no error: the splitter returns after a message, the
    enhancer after making its input folder, both with status 0. *)
Theorem exit_status_of_main (cfg : Enhancer.config) (O : oracle) (w : world) :
  let version := [Lit "ffmpeg"; Lit "-version"] in
  let rs := Splitter.main O w in
  let re := Enhancer.main cfg O w in
  (∃ o, first_run (new_events w rs.2) = Some (version, o)
        ∧ (tool_available o = false → exit_status rs.1 = 1)
        ∧ (tool_available o = true →
           (exit_status rs.1 = 0 ↔ rs.1 = Ok tt)
           ∧ (exit_status rs.1 = 1
              ↔ ∃ e, rs.1 = Raise e ∧ is_OSError e = true)
           ∧ (exit_status rs.1 = 0 ∨ exit_status rs.1 = 1)
           ∧ (FS.exists_ (fs w) Splitter.TARGET_FOLDER = false →
              exit_status rs.1 = 0)))
  ∧ (∃ o, first_run (new_events w re.2) = Some (version, o)
          ∧ (tool_available o = false → exit_status re.1 = 1)
          ∧ (tool_available o = true →
             (exit_status re.1 = 0 ↔ re.1 = Ok tt)
             ∧ (exit_status re.1 = 1
                ↔ ∃ e, re.1 = Raise e ∧ is_OSError e = true)
             ∧ (exit_status re.1 = 0 ∨ exit_status re.1 = 1)
             ∧ (FS.exists_ (fs w) (Enhancer.INPUT_FOLDER cfg) = false →
                (∃ fs', FS.mkdir true false (fs w) (Enhancer.INPUT_FOLDER cfg)
                        = Ok fs') →
                exit_status re.1 = 0)))
  ∧ (∀ (total : nat) (job : Z * (path * Q)) (w0 w1 w2 : world),
        Splitter.announce_job total job w0 = (Ok tt, w1) →
        Splitter.split_video O job.2.1 None w1 = (Ok false, w2) →
        ∃ w3, Splitter.process_one O total job w0 = (Ok tt, w3))
  ∧ (∀ (total : nat) (job : Z * path) (rest : list (Z * path)) (ok bad : Z)
       (w0 w1 : world),
        Enhancer.process_one cfg O total job w0 = (Ok false, w1) →
        Enhancer.process_all cfg O total (job :: rest) ok bad w0
        = Enhancer.process_all cfg O total rest ok (bad + 1) w1).
Proof.
  assert (Hstatus : ∀ r : result unit,
            r = Ok tt ∨ (∃ e, r = Raise e ∧ is_OSError e = true) →
            (exit_status r = 0 ↔ r = Ok tt)
            ∧ (exit_status r = 1 ↔ ∃ e, r = Raise e ∧ is_OSError e = true)
            ∧ (exit_status r = 0 ∨ exit_status r = 1)).
  { intros r [->|(e & -> & He)].
    - split; [done|]. split; [|by left].
      split; [done|]. by intros (e & ? & _).
    - split; [|split; [|right]]; try by destruct e.
      split; [|by destruct e]. intros _. by exists e. }
  cbv zeta. split; [|split; [|split]].
  - destruct (SplitterFacts.splitter_main_outcome O w) as (o & Hfirst & Hbad & Hgood).
    exists o. split; [done|]. split.
    + intros Hno. by rewrite (Hbad Hno).
    + intros Hyes. destruct (Hgood Hyes) as [Hres Habsent].
      destruct (Hstatus _ Hres) as (H0 & H1 & H01).
      split; [done|]. split; [done|]. split; [done|].
      intros Hex. by rewrite (Habsent Hex).
  - destruct (EnhancerFacts.enhancer_main_outcome cfg O w)
      as (o & Hfirst & Hbad & Hgood).
    exists o. split; [done|]. split.
    + intros Hno. by rewrite (Hbad Hno).
    + intros Hyes. destruct (Hgood Hyes) as [Hres Habsent].
      destruct (Hstatus _ Hres) as (H0 & H1 & H01).
      split; [done|]. split; [done|]. split; [done|].
      intros Hex Hmk. by rewrite (Habsent Hex Hmk).
  - intros total job w0 w1 w2 Hjob Hsplit. eexists.
    unfold Splitter.process_one.
    rewrite (bind_ok _ _ _ _ _ Hjob), (bind_ok _ _ _ _ _ Hsplit).
    reflexivity.
  - intros total job rest ok bad w0 w1 Hone. simpl.
    by rewrite (bind_ok _ _ _ _ _ Hone).
Qed.

End ExitStatus.

(** ** The sample runs *)

Module Runs.

Import Sample Splitter.

(** Closes a decidable closed goal by evaluation. *)
Ltac by_evaluation := apply (bool_decide_unpack _); vm_compute; exact I.

(** A split whose first transcoder run fails: the parts are gone, the
    movie is where it was. *)
Lemma split_failure_sample :
  let run := split_video transcoder_fails movie None start in
  transcode_failed (new_events start run.2)
  ∧ run.1 = Ok false
  ∧ fs run.2 !! part1 = None
  ∧ fs run.2 !! part2 = None
  ∧ fs run.2 !! movie = Some (File (500 * MiB)).
Proof.
  cbv zeta.
  set (run := split_video transcoder_fails movie None start).
  set (probe := get_video_duration transcoder_fails movie start).
  assert (Hprobe : probe = (Ok 3600%float, probe.2)) by (vm_compute; reflexivity).
  assert (Hd : (3600 <=? 0)%float = false) by reflexivity.
  assert (Hdir1 : FS.is_dir (fs start) part1 = false) by (vm_compute; reflexivity).
  assert (Hdir2 : FS.is_dir (fs start) part2 = false) by (vm_compute; reflexivity).
  assert (Hrun : run = (run.1, run.2)) by apply surjective_pairing.
  assert (Hfailed : transcode_failed (new_events start run.2)).
  { exists (Run (cmd1 movie 1800%float part1)
                (Completed (Completed_ 1 "" "Conversion failed!") (Some MiB))), 1.
    split; [|by split].
    apply (list_elem_of_lookup_2 _ 7). vm_compute. reflexivity. }
  split; [exact Hfailed|].
  pose proof (SplitterFacts.split_failure_cleans_up transcoder_fails movie None
                start probe.2 run.2 3600%float run.1
                Hprobe Hd Hdir1 Hdir2 Hrun Hfailed) as (H1 & H2 & H3 & H4).
  split; [exact H1|]. split; [exact H2|]. split; [exact H3|].
  rewrite H4. vm_compute. reflexivity.
Defined.

(** A probe that yields no duration: the job is skipped. *)
Lemma unsplittable_sample :
  split_video no_duration movie None start
  = (Ok false, (get_video_duration no_duration movie start).2)
  ∧ fs (get_video_duration no_duration movie start).2 = fs start.
Proof.
  set (probe := get_video_duration no_duration movie start).
  assert (Hprobe : probe = (Ok 0%float, probe.2)) by (vm_compute; reflexivity).
  assert (Hd : (0 <=? 0)%float = true) by reflexivity.
  pose proof (proj1 (SplitterFacts.unsplittable_job_skipped no_duration movie
                       None) start probe.2 0%float Hprobe Hd) as (H1 & H2 & _).
  split; [exact H1|exact H2].
Defined.

(** A video whose extension is lower-cased by the Unicode tables only
    is a candidate like any other. *)
Lemma kelvin_clip_is_listed :
  ∃ large_videos,
    scan_large_videos kelvin_tools videos 200 kelvin_start
    = (Ok large_videos, kelvin_start)
    ∧ kelvin_clip ∈ large_videos.*1.
Proof.
  eexists. split; [vm_compute; reflexivity|].
  apply (bool_decide_unpack _). vm_compute. exact I.
Qed.

(** C3, refuted as stated: when the inspector cannot be started the
    probe of the first of two candidates returns no duration at all:
    it raises [FileNotFoundError], which nothing catches.  The job is
    not skipped and the batch does not go on: the run ends there with
    exit status 1 and the second candidate is never started. *)
Lemma missing_inspector_stops_the_batch :
  let run := scan_and_split inspector_missing videos 200 two_videos in
  (scan_large_videos inspector_missing videos 200 two_videos).1
  = Ok [(clip, (inject_Z (300 * MiB) / inject_Z (1024 * 1024))%Q);
        (movie, (inject_Z (500 * MiB) / inject_Z (1024 * 1024))%Q)]
  ∧ (get_video_duration inspector_missing clip two_videos).1
    = Raise FileNotFoundError
  ∧ run.1 = Raise FileNotFoundError
  ∧ omap job_started (new_events two_videos run.2) = [clip]
  ∧ exit_status run.1 = 1.
Proof. cbv zeta. repeat split; vm_compute; reflexivity. Qed.

(** C2, refuted as stated: after a successful split of the 500 MiB
    movie a re-scan of the folder finds the archived original and both
    250 MiB parts. *)
Lemma rescan_finds_archive_and_parts :
  let run := split_video tools_ok movie None start in
  run.1 = Ok true
  ∧ ∃ rescan,
      scan_large_videos tools_ok videos 200 run.2 = (Ok rescan, run.2)
      ∧ archived_movie ∈ rescan.*1
      ∧ part1 ∈ rescan.*1
      ∧ part2 ∈ rescan.*1.
Proof.
  cbv zeta. split; [vm_compute; reflexivity|].
  destruct (SplitterFacts.scan_large_videos_run tools_ok videos 200
              (split_video tools_ok movie None start).2)
    as (rescan & Hscan & Hin).
  exists rescan. split; [exact Hscan|].
  assert (Hlarge : ∀ p n,
            fs (split_video tools_ok movie None start).2 !! p = Some (File n) →
            below videos p →
            Str.lower (unicode_lower tools_ok) (suffix p) ∈ VIDEO_EXTENSIONS →
            200 * 1024 * 1024 < n →
            p ∈ rescan.*1).
  { intros p n Hp Hb Hext Hn. apply Hin. split; [vm_compute; reflexivity|].
    split; [exact Hb|]. exists n. split; [exact Hp|]. split; [exact Hext|].
    unfold Qlt, Qmult, inject_Z. cbn [Qnum Qden]. lia. }
  split; [|split].
  - apply (Hlarge _ (500 * MiB)); [vm_compute; reflexivity|by_evaluation..].
  - apply (Hlarge _ (250 * MiB)); [vm_compute; reflexivity|by_evaluation..].
  - apply (Hlarge _ (250 * MiB)); [vm_compute; reflexivity|by_evaluation..].
Qed.

(** The re-scan after that split, by the amended claim. *)
Lemma rescan_sample :
  let run := split_video tools_ok movie None start in
  ∃ rescan,
    scan_large_videos tools_ok videos 200 run.2 = (Ok rescan, run.2)
    ∧ (movie ∉ rescan.*1)
    ∧ (part1 ∈ rescan.*1
       ↔ ∃ m, fs run.2 !! part1 = Some (File m)
              ∧ (200 * inject_Z (1024 * 1024) < inject_Z m)%Q).
Proof.
  cbv zeta.
  set (run := split_video tools_ok movie None start).
  assert (Hcand : is_large_video tools_ok (fs start) videos 200 movie).
  { split; [vm_compute; reflexivity|]. split; [by_evaluation|].
    exists (500 * MiB). split; [vm_compute; reflexivity|].
    split; [by_evaluation|]. by vm_compute. }
  assert (Hfile : fs start !! movie = Some (File (500 * MiB)))
    by (vm_compute; reflexivity).
  assert (Hrun : run = (Ok true, run.2)) by (vm_compute; reflexivity).
  destruct (SplitterFacts.rescan_after_split tools_ok videos 200 movie start
              run.2 (500 * MiB) Hcand Hfile Hrun)
    as (rescan & Hscan & Hgone & _ & Hparts).
  exists rescan. split; [exact Hscan|]. split; [exact Hgone|].
  exact (Hparts "_part1" (or_introl eq_refl)).
Defined.

(** C4, refuted as stated: with a regular file where the archive
    folder would go, both transcoder runs of the first of two
    candidates exit 0, the archival raises [FileExistsError], and the
    batch ends there: the second candidate is never started. *)
Lemma archival_failure_stops_the_batch :
  let run := scan_and_split tools_ok videos 200 blocked_start in
  (scan_large_videos tools_ok videos 200 blocked_start).1
  = Ok [(clip, (inject_Z (300 * MiB) / inject_Z (1024 * 1024))%Q);
        (movie, (inject_Z (500 * MiB) / inject_Z (1024 * 1024))%Q)]
  ∧ run.1 = Raise FileExistsError
  ∧ omap transcoder_exit (new_events blocked_start run.2) = [0; 0]
  ∧ omap job_started (new_events blocked_start run.2) = [clip]
  ∧ exit_status run.1 = 1.
Proof. cbv zeta. repeat split; vm_compute; reflexivity. Qed.

(** The archival failure of that job, by the amended claim. *)
Lemma archival_failure_sample :
  let p1 := part_path (parent clip) clip "_part1" in
  let p2 := part_path (parent clip) clip "_part2" in
  (split_video tools_ok clip None blocked_start).1 = Raise FileExistsError
  ∧ is_Some (fs (split_video tools_ok clip None blocked_start).2 !! p1)
  ∧ is_Some (fs (split_video tools_ok clip None blocked_start).2 !! p2).
Proof.
  cbv zeta.
  set (p1 := part_path (parent clip) clip "_part1").
  set (p2 := part_path (parent clip) clip "_part2").
  set (w1 := (get_video_duration tools_ok clip blocked_start).2).
  set (w2 := (announce_plan 3600 (3600 / 2)%float p1 p2 w1).2).
  set (w3 := (transcode_parts tools_ok clip (3600 / 2)%float p1 p2 w2).2).
  set (w4 := (archive_original clip w3).2).
  assert (Hprobe : get_video_duration tools_ok clip blocked_start
                   = (Ok 3600%float, w1)) by (vm_compute; reflexivity).
  assert (Hd : (3600 <=? 0)%float = false) by reflexivity.
  assert (Hplan : announce_plan 3600 (3600 / 2)%float p1 p2 w1 = (Ok tt, w2))
    by (vm_compute; reflexivity).
  assert (Hparts : transcode_parts tools_ok clip (3600 / 2)%float p1 p2 w2
                   = (Ok tt, w3)) by (vm_compute; reflexivity).
  assert (Harch : archive_original clip w3 = (Raise FileExistsError, w4))
    by (vm_compute; reflexivity).
  pose proof (SplitterFacts.archival_failure_aborts_run tools_ok clip
                blocked_start w1 w2 w3 w4 3600%float FileExistsError
                Hprobe Hd Hplan Hparts Harch)
    as (Hsplit & _ & _ & _ & _ & H1 & H2 & _).
  rewrite Hsplit. cbn [fst snd].
  split; [reflexivity|]. split; [exact H1|exact H2].
Defined.

(** C7, refuted as stated: the target folder is absent, the version
    check succeeds, and the splitter exits with status 0. *)
Lemma absent_root_exits_zero :
  FS.exists_ (fs start) TARGET_FOLDER = false
  ∧ (main tools_ok start).1 = Ok tt
  ∧ exit_status (main tools_ok start).1 = 0.
Proof. repeat split; vm_compute; reflexivity. Qed.

(** C9, refuted as stated: the transcoder writes 1 MiB at the output
    path and exits 1; after the job, and after the whole run, the
    partial output is still there. *)
Lemma failed_enhance_leaves_partial_output :
  Enhancer.get_output_filename profile ["input"; "a.mp4"] = enhanced
  ∧ fs studio !! enhanced = None
  ∧ (Enhancer.enhance_video profile transcoder_fails
       ["input"; "a.mp4"] enhanced studio).1 = Ok false
  ∧ fs (Enhancer.enhance_video profile transcoder_fails
          ["input"; "a.mp4"] enhanced studio).2 !! enhanced
    = Some (File MiB)
  ∧ fs (Enhancer.scan_and_enhance profile transcoder_fails studio).2
    !! enhanced = Some (File MiB).
Proof. repeat split; vm_compute; reflexivity. Qed.

(** The failed enhance job, by the amended claim. *)
Lemma failed_enhance_sample :
  let run := Enhancer.enhance_video profile transcoder_fails
               ["input"; "a.mp4"] enhanced studio in
  run.1 = Ok false ∧ fs run.2 !! enhanced = Some (File MiB).
Proof.
  cbv zeta.
  set (run := Enhancer.enhance_video profile transcoder_fails
                ["input"; "a.mp4"] enhanced studio).
  assert (Hin : Run (Enhancer.enhance_cmd profile ["input"; "a.mp4"] enhanced)
                    (Completed (Completed_ 1 "" "Conversion failed!")
                               (Some MiB))
                ∈ new_events studio run.2).
  { apply (list_elem_of_lookup_2 _ 2). vm_compute. reflexivity. }
  assert (Hrc : returncode (Completed_ 1 "" "Conversion failed!") ≠ 0) by done.
  pose proof (EnhancerFacts.failed_enhance_keeps_partial_output profile
                transcoder_fails ["input"; "a.mp4"] enhanced studio _ _
                Hin Hrc) as (H1 & _ & H2 & _).
  split; [exact H1|].
  apply (H2 MiB eq_refl); vm_compute; reflexivity.
Defined.

(** Characters count, not bytes: a diagnostic of 200 characters
    outside ASCII is printed whole, and of one of 600 the last 500
    are kept. *)
Lemma stderr_tail_counts_characters :
  Enhancer.stderr_tail (Str.times "紫" 200) = Str.times "紫" 200
  ∧ Enhancer.stderr_tail (Str.times "紫" 600) = Str.times "紫" 500.
Proof. split; vm_compute; reflexivity. Qed.

(** The filter chain of the sample profile. *)
Lemma filter_chain_sample :
  Enhancer.build_filter_chain profile
  = "scale=3840:2160:flags=lanczos,unsharp=5:5:1.0:5:5:0".
Proof.
  exact (proj2 (EnhancerFacts.filter_chain_order profile)
           eq_refl eq_refl eq_refl eq_refl eq_refl).
Defined.

End Runs.

Module EvolveFacts.

Import MonadFacts FSFacts.

Section WithRelation.

Context (R : filesystem → filesystem → Prop) `{!PreOrder R}.

Lemma evolves_ret {A : Type} (a : A) : evolves R (mret a).
Proof. intros w. simpl. reflexivity. Qed.

Lemma evolves_raise {A : Type} (e : exn) : evolves R (@raise A e).
Proof. intros w. simpl. reflexivity. Qed.

Lemma evolves_print (line : list piece) : evolves R (print line).
Proof. intros w. simpl. reflexivity. Qed.

Lemma evolves_read_fs {A : Type} (f : filesystem → A) : evolves R (read_fs f).
Proof. intros w. simpl. reflexivity. Qed.

Lemma evolves_try_fs {A : Type} (f : filesystem → result A) : evolves R (try_fs f).
Proof. intros w. simpl. reflexivity. Qed.

Lemma evolves_update_fs (f : filesystem → result filesystem) :
  (∀ fs fs', f fs = Ok fs' → R fs fs') → evolves R (update_fs f).
Proof.
  intros Hf w. unfold update_fs.
  destruct (f (fs w)) as [fs'|e] eqn:Hfs; simpl; [by apply Hf|reflexivity].
Qed.

Lemma evolves_bind {A B : Type} (m : M A) (f : A → M B) :
  evolves R m → (∀ a, evolves R (f a)) → evolves R (m ≫= f).
Proof.
  intros Hm Hf w. specialize (Hm w). unfold mbind, M_bind.
  destruct (m w) as [[a|e] w1]; simpl in *; [|done].
  etrans; [exact Hm|apply Hf].
Qed.

Lemma evolves_try_except {A : Type} (body : M A) (handler : exn → option (M A)) :
  evolves R body → (∀ e h, handler e = Some h → evolves R h) →
  evolves R (try_except body handler).
Proof.
  intros Hm Hh w. specialize (Hm w). unfold try_except.
  destruct (body w) as [[a|e] w1]; simpl in *; [done|].
  destruct (handler e) as [h|] eqn:He; [|done].
  etrans; [exact Hm|by eapply Hh].
Qed.

Lemma evolves_for_each {A : Type} (l : list A) (body : A → M unit) :
  (∀ x, x ∈ l → evolves R (body x)) → evolves R (for_each l body).
Proof.
  induction l as [|x l IH]; intros Hbody; simpl; [apply evolves_ret|].
  apply evolves_bind; [apply Hbody; left|].
  intros _. apply IH. intros y Hy. apply Hbody. by right.
Qed.

Lemma evolves_subprocess_run (O : oracle) (check : bool) (argv : list piece) :
  (∀ fs wr, R fs (written_fs argv wr fs)) →
  evolves R (subprocess_run O check argv).
Proof.
  intros Hw w. unfold subprocess_run.
  destruct (spawn O w argv) as [|c wr]; simpl; [reflexivity|].
  destruct (_ && _); simpl; apply Hw.
Qed.

End WithRelation.

End EvolveFacts.

(** ** What a splitter run leaves alone *)

Module SplitterFrame.

Import Splitter TraceFacts MonadFacts FSFacts PathFacts EvolveFacts.

#[export] Instance same_at_preorder (q : path) : PreOrder (same_at q).
Proof.
  split.
  - by intros fs.
  - intros fs1 fs2 fs3 H12 H23. unfold same_at in *. congruence.
Qed.

(** Every entry of a re-rooted subtree lies at or below the new root. *)
Lemma reroot_lookup (src dst : path) (fs : filesystem) (q : path) (x : node) :
  FS.reroot src dst fs !! q = Some x → dst `prefix_of` q.
Proof.
  unfold FS.reroot. intros H. apply elem_of_list_to_map_2 in H.
  apply list_elem_of_fmap in H as ([k y] & [= -> ->] & _).
  by apply prefix_app_r.
Qed.

(** A move changes entries at or below its source and its destination
    only. *)
Lemma shutil_move_frame (fs fs' : filesystem) (src dst q : path) :
  FS.shutil_move fs src dst = Ok fs' →
  ¬ src `prefix_of` q → ¬ dst `prefix_of` q → fs' !! q = fs !! q.
Proof.
  intros Hmv Hsrc Hdst. unfold FS.shutil_move in Hmv.
  set (real_dst := if FS.is_dir fs dst then joinpath dst (name src) else dst)
    in *.
  assert (Hreal : ¬ real_dst `prefix_of` q).
  { unfold real_dst. destruct (FS.is_dir fs dst); [|done].
    intros Hpre. apply Hdst. etrans; [|exact Hpre]. by apply prefix_app_r. }
  assert (Hq1 : real_dst ≠ q) by (by intros ->).
  assert (Hq2 : src ≠ q) by (by intros ->).
  destruct (_ && _); [done|].
  destruct (fs !! src) as [[n|]|]; [| |done].
  - destruct (negb _); [done|]. injection Hmv as <-.
    by rewrite lookup_insert_ne, lookup_delete_ne.
  - destruct (negb _); [done|]. destruct (FS.exists_ _ _); [done|].
    destruct (bool_decide _); [done|]. injection Hmv as <-.
    destruct (FS.reroot src real_dst fs !! q) as [x|] eqn:Hre.
    { by apply reroot_lookup in Hre. }
    rewrite lookup_union_r by done.
    destruct (fs !! q) as [y|] eqn:Hy.
    + by apply map_lookup_filter_Some_2.
    + apply map_lookup_filter_None. by left.
Qed.

Lemma os_mkdir_frame (fs fs' : filesystem) (p q : path) :
  FS.os_mkdir fs p = Ok fs' → q ≠ p → fs' !! q = fs !! q.
Proof.
  unfold FS.os_mkdir. destruct (fs !! p); [done|].
  destruct (fs !! parent p) as [[]|]; try done.
  intros [= <-] Hne. by rewrite lookup_insert_ne.
Qed.

Lemma mkdir_here_frame (exist_ok : bool) (fs fs' : filesystem) (p q : path) :
  FS.mkdir_here exist_ok fs p = Ok fs' → q ≠ p → fs' !! q = fs !! q.
Proof.
  unfold FS.mkdir_here.
  destruct (FS.os_mkdir fs p) as [fs1|e] eqn:Hmk.
  - intros [= <-]. by apply os_mkdir_frame.
  - destruct e; try done; destruct (_ && _); try done; by intros [= <-].
Qed.

Lemma unlink_frame (fs fs' : filesystem) (p q : path) :
  FS.unlink fs p = Ok fs' → q ≠ p → fs' !! q = fs !! q.
Proof.
  unfold FS.unlink. destruct (fs !! p) as [[]|]; try done.
  intros [= <-] Hne. by rewrite lookup_delete_ne.
Qed.

Section WithOracle.

Context (O : oracle).

(** A command that writes at [p], or nowhere, leaves [q] alone. *)
Lemma run_same_at (q : path) (check : bool) (argv : list piece) :
  written_path argv ≠ Some q →
  evolves (same_at q) (subprocess_run O check argv).
Proof.
  intros Hne. apply evolves_subprocess_run; [apply _|].
  intros fs wr. by apply written_fs_lookup_ne.
Qed.

(** One split job changes nothing outside the paths of its file. *)
Lemma split_video_same_at (c q : path) :
  ¬ touched_by_job c q → evolves (same_at q) (split_video O c None).
Proof.
  intros Hq.
  assert (Hc : ¬ c `prefix_of` q) by (intros ?; apply Hq; by left).
  assert (H1 : q ≠ part_path (parent c) c "_part1")
    by (intros ?; apply Hq; right; by left).
  assert (H2 : q ≠ part_path (parent c) c "_part2")
    by (intros ?; apply Hq; right; right; by left).
  assert (Ha : ¬ joinpath (parent c) ARCHIVE_FOLDER_NAME `prefix_of` q)
    by (intros ?; apply Hq; by repeat right).
  unfold split_video. simpl.
  apply evolves_bind; [apply _| |].
  { unfold get_video_duration. apply evolves_try_except; [apply _| |].
    - apply evolves_bind; [apply _|by apply run_same_at|].
      intros r. destruct (py_float O _);
        [apply evolves_ret|apply evolves_raise]; apply _.
    - intros e h He. destruct e; simplify_eq;
        (apply evolves_bind; [apply _|apply evolves_print; apply _|]);
        intros _; apply evolves_ret; apply _. }
  intros d. destruct (d <=? 0)%float; [apply evolves_ret; apply _|].
  apply evolves_bind; [apply _| |].
  { unfold announce_plan.
    repeat (apply evolves_bind; [apply _|apply evolves_print; apply _|];
            intros _).
    apply evolves_print; apply _. }
  intros _. apply evolves_try_except; [apply _| |].
  - apply evolves_bind; [apply _| |].
    { unfold transcode_parts.
      apply evolves_bind; [apply _|apply evolves_print; apply _|]. intros _.
      apply evolves_bind; [apply _|apply run_same_at; simpl; congruence|].
      intros _.
      apply evolves_bind; [apply _|apply evolves_print; apply _|]. intros _.
      apply evolves_bind; [apply _|apply run_same_at; simpl; congruence|].
      intros _.
      unfold get_file_size_mb.
      do 2 (apply evolves_bind;
            [apply _
            |apply evolves_bind; [apply _|apply evolves_try_fs; apply _|];
             intros ?; apply evolves_ret; apply _|]; intros ?).
      repeat (apply evolves_bind; [apply _|apply evolves_print; apply _|];
              intros _).
      apply evolves_print; apply _. }
    intros _. apply evolves_bind; [apply _| |intros _; apply evolves_ret; apply _].
    unfold archive_original.
    apply evolves_bind; [apply _| |].
    { apply evolves_update_fs; [apply _|]. intros fs fs' Hmk.
      eapply mkdir_here_frame; [exact Hmk|]. by intros ->. }
    intros _. apply evolves_bind; [apply _| |intros _; apply evolves_print; apply _].
    apply evolves_update_fs; [apply _|]. intros fs fs' Hmv.
    eapply shutil_move_frame; [exact Hmv|done|].
    intros Hpre. apply Ha. etrans; [|exact Hpre]. by apply prefix_app_r.
  - intros e h He. destruct e; simplify_eq. unfold cleanup_parts.
    apply evolves_bind; [apply _|apply evolves_print; apply _|]. intros _.
    assert (Hrm : ∀ p, q ≠ p → evolves (same_at q) (remove_if_exists p)).
    { intros p Hp. unfold remove_if_exists.
      apply evolves_bind; [apply _|apply evolves_read_fs; apply _|].
      intros []; [|apply evolves_ret; apply _].
      apply evolves_update_fs; [apply _|]. intros fs fs' Hun.
      by eapply unlink_frame. }
    apply evolves_bind; [apply _|by apply Hrm|]. intros _.
    apply evolves_bind; [apply _|by apply Hrm|]. intros _.
    apply evolves_ret; apply _.
Qed.

Lemma elem_of_enumerate {A : Type} (l : list A) (start : Z) (x : Z * A) :
  x ∈ enumerate l start → x.2 ∈ l.
Proof.
  revert start. induction l as [|a l IH]; intros start; simpl.
  - by intros ?%elem_of_nil.
  - intros [->|Hin]%elem_of_cons; [by left|]. right. by eapply IH.
Qed.

Lemma process_one_same_at (total : nat) (job : Z * (path * Q)) (q : path) :
  ¬ touched_by_job job.2.1 q → evolves (same_at q) (process_one O total job).
Proof.
  intros Hq. unfold process_one.
  apply evolves_bind; [apply _| |].
  { unfold announce_job. destruct job as [i [file_path size_mb]].
    apply evolves_bind; [apply _|apply evolves_print; apply _|]. intros _.
    apply evolves_print; apply _. }
  intros _. apply evolves_bind; [apply _|by apply split_video_same_at|].
  intros []; apply evolves_print; apply _.
Qed.

(** X1. A run of the splitter changes nothing outside the paths of its
    candidates: an entry that is neither at or below a candidate, nor
    one of its two part paths, nor at or below the archive folder
    beside it, is after the run what it was before, however the run
    ends. *)
Theorem splitter_run_frame (folder : path) (size_limit_mb : Q) (w : world)
    (q : path) :
  (∀ c, is_large_video O (fs w) folder size_limit_mb c → ¬ touched_by_job c q) →
  fs (scan_and_split O folder size_limit_mb w).2 !! q = fs w !! q.
Proof.
  intros Hq.
  destruct (SplitterFacts.scan_large_videos_run O folder size_limit_mb w)
    as (lv & Hscan & Hlv).
  unfold scan_and_split.
  unfold mbind at 1, M_bind at 1, read_fs at 1.
  destruct (FS.exists_ (fs w) folder); simpl; [|done].
  rewrite !bind_print. cbn [fs trace].
  match goal with
  | |- context [ World (fs w) ?t ] => set (w3 := World (fs w) t)
  end.
  rewrite (bind_ok _ _ _ _ _
             (SplitterFacts.scan_large_videos_fs O folder size_limit_mb lv w w3
                eq_refl Hscan)).
  destruct lv as [|job lv]; [done|].
  set (jobs := job :: lv) in *.
  rewrite bind_print. cbn [fs trace].
  match goal with
  | |- context [ World (fs w3) ?t ] => set (w4 := World (fs w3) t)
  end.
  assert (Hloop : evolves (same_at q)
                    (for_each (enumerate jobs 1) (process_one O (length jobs)))).
  { apply evolves_for_each; [apply _|]. intros x Hx.
    apply process_one_same_at. apply Hq, Hlv.
    apply elem_of_enumerate in Hx. apply list_elem_of_fmap. by exists x.2. }
  specialize (Hloop w4). unfold same_at in Hloop.
  change (fs w4) with (fs w) in Hloop.
  unfold mbind at 1, M_bind at 1.
  destruct (for_each (enumerate jobs 1) (process_one O (length jobs)) w4)
    as [[[]|e] w5]; [|done].
  by rewrite !bind_print.
Qed.

End WithOracle.

End SplitterFrame.

(** ** More on the splitter *)

Module SplitterMore.

Import Str StrFacts Splitter TraceFacts MonadFacts FSFacts PathFacts.

Lemma take_app_length (s t : string) : take (String.length s) (s +:+ t) = s.
Proof. induction s as [|a s IH]; [by destruct t|]. rewrite app_cons. simpl. by rewrite IH. Qed.

(** Splicing a dot-free tag in before a non-empty suffix extends the
    stem by the tag. *)
Lemma stem_tagged (nm tag : string) :
  suffix_of_name nm ≠ "" → rfind "." tag = None →
  stem_of_name (stem_of_name nm +:+ tag +:+ suffix_of_name nm)
  = stem_of_name nm +:+ tag.
Proof.
  intros Hne Htag. destruct (suffix_shape nm Hne) as (Hdot & Hlen & Hstem).
  set (sfx := suffix_of_name nm) in *. set (stm := stem_of_name nm) in *.
  unfold stem_of_name at 1.
  rewrite !rfind_app, Hdot. rewrite !length_app.
  set (i := (String.length stm + (String.length tag + 0))%nat).
  replace ((0 <? i)%nat) with true by (symmetry; apply Nat.ltb_lt; lia).
  replace (i <? String.length stm + (String.length tag + String.length sfx) - 1)%nat
    with true by (symmetry; apply Nat.ltb_lt; lia).
  simpl. rewrite <- app_assoc.
  replace i with (String.length (stm +:+ tag)) by (rewrite length_app; lia).
  apply take_app_length.
Qed.

(** X2. The two part files of a video are named after it: they lie in
    the output folder, their stem is the stem of the video with
    [_part1] or [_part2] appended, and they keep its extension, so
    they are videos by name themselves; they differ from the video
    and from each other. *)
Theorem part_paths_shape (O : oracle) (out c : path) (tag : string) :
  Str.lower (unicode_lower O) (suffix c) ∈ VIDEO_EXTENSIONS →
  tag = "_part1" ∨ tag = "_part2" →
  let p := part_path out c tag in
  parent p = out
  ∧ stem p = stem c +:+ tag
  ∧ suffix p = suffix c
  ∧ Str.lower (unicode_lower O) (suffix p) ∈ VIDEO_EXTENSIONS
  ∧ p ≠ c
  ∧ part_path out c "_part1" ≠ part_path out c "_part2".
Proof.
  intros Hext Htag p.
  assert (Hne : suffix_of_name (name c) ≠ "").
  { by eapply SplitterFacts.video_extension_nonempty. }
  assert (Hdot : rfind "." tag = None) by (by destruct Htag as [-> | ->]).
  assert (Hnz : tag ≠ "") by (by destruct Htag as [-> | ->]).
  assert (Hsfx : suffix p = suffix c).
  { unfold p, part_path. rewrite suffix_joinpath. by apply suffix_tagged. }
  split; [apply parent_joinpath|]. split.
  { unfold p, part_path, stem at 1. rewrite name_joinpath.
    by apply stem_tagged. }
  split; [done|]. split; [by rewrite Hsfx|].
  split; [by apply SplitterFacts.part_path_ne_source|].
  apply SplitterFacts.part_paths_differ.
Qed.

(** The scan keeps the order of the walk and records each file it keeps
    with its size in MB. *)
Lemma collect_large_videos_sublist (O : oracle) (paths : list path)
    (size_limit_mb : Q) (acc : list (path * Q)) (w : world) :
  ∃ found,
    collect_large_videos O paths size_limit_mb acc w = (Ok (acc ++ found), w)
    ∧ found.*1 `sublist_of` paths
    ∧ ∀ p s, (p, s) ∈ found →
             ∃ n, fs w !! p = Some (File n)
                  ∧ s = (inject_Z n / inject_Z (1024 * 1024))%Q.
Proof.
  revert acc. induction paths as [|p0 paths IH]; intros acc.
  { exists []. rewrite List.app_nil_r. split; [done|]. split; [done|].
    by intros p s ?%elem_of_nil. }
  simpl. unfold read_fs, get_file_size_mb, try_fs, FS.is_file, FS.stat_size,
    mbind, M_bind, mret, M_ret. simpl.
  assert (Hskip : ∃ found,
            collect_large_videos O paths size_limit_mb acc w
            = (Ok (acc ++ found), w)
            ∧ found.*1 `sublist_of` p0 :: paths
            ∧ ∀ p s, (p, s) ∈ found →
                     ∃ n, fs w !! p = Some (File n)
                          ∧ s = (inject_Z n / inject_Z (1024 * 1024))%Q).
  { destruct (IH acc) as (found & Hrun & Hsub & Hsz). exists found.
    split; [done|]. split; [by apply sublist_cons|done]. }
  destruct (fs w !! p0) as [[n|]|] eqn:Hp0; simpl; rewrite ?Hp0; simpl;
    [|done..].
  destruct (bool_decide (Str.lower (unicode_lower O) (suffix p0) ∈ VIDEO_EXTENSIONS)); simpl;
    [|done].
  rewrite Hp0. simpl.
  destruct (Qgtb (inject_Z n / inject_Z (1024 * 1024)) size_limit_mb);
    [|done].
  destruct (IH (acc ++ [(p0, (inject_Z n / inject_Z (1024 * 1024))%Q)]))
    as (found & Hrun & Hsub & Hsz).
  exists ((p0, (inject_Z n / inject_Z (1024 * 1024))%Q) :: found).
  split; [by rewrite Hrun, <- (assoc_L (++))|]. split.
  - rewrite fmap_cons. by apply sublist_skip.
  - intros p s [[= -> ->]|Hin]%elem_of_cons; [by exists n|by apply Hsz].
Qed.

Lemma length_parent (p : path) : length (parent p) = pred (length p).
Proof.
  unfold parent. induction p as [|x p IH]; [done|].
  destruct p as [|y p]; [done|]. simpl in *. by rewrite IH.
Qed.

Lemma rglob_NoDup (fs : filesystem) (folder : path) :
  NoDup (FS.rglob fs folder).
Proof.
  unfold FS.rglob. destruct (FS.is_dir fs folder); [|constructor].
  apply NoDup_filter, NoDup_fst_map_to_list.
Qed.

Section WithOracle.

Context (O : oracle).

(** X3. The inspector [ffprobe] is not covered by the start-up check
    of the transcoder: when it cannot be started, the first candidate
    of a run ends the run with [FileNotFoundError] (exit status 1),
    before any transcoder invocation and with the file system as it
    was. *)
Theorem missing_inspector_aborts_run (folder : path) (size_limit_mb : Q)
    (w : world) (c : path) :
  (∀ v p, spawn O v (duration_cmd p) = NotFound) →
  is_large_video O (fs w) folder size_limit_mb c →
  let run := scan_and_split O folder size_limit_mb w in
  run.1 = Raise FileNotFoundError
  ∧ exit_status run.1 = 1
  ∧ fs run.2 = fs w
  ∧ Forall (λ e, is_transcoder_run e = false) (new_events w run.2)
  ∧ ∃ p, is_large_video O (fs w) folder size_limit_mb p
         ∧ last (new_events w run.2) = Some (Run (duration_cmd p) NotFound).
Proof.
  intros Hno Hc.
  destruct (SplitterFacts.scan_large_videos_run O folder size_limit_mb w)
    as (lv & Hscan & Hlv).
  assert (Hex : FS.exists_ (fs w) folder = true).
  { destruct Hc as (Hd & _). apply exists_spec. unfold FS.is_dir in Hd.
    destruct (fs w !! folder); [by eexists|done]. }
  destruct lv as [|[p0 s0] lv].
  { apply Hlv in Hc. by apply elem_of_nil in Hc. }
  assert (Hp0 : is_large_video O (fs w) folder size_limit_mb p0).
  { apply Hlv. by left. }
  assert (Hrun : ∃ l,
            scan_and_split O folder size_limit_mb w
            = (Raise FileNotFoundError,
               World (fs w) (trace w ++ l ++ [Run (duration_cmd p0) NotFound]))
            ∧ Forall (λ e, ∃ line, e = Print line) l).
  { unfold scan_and_split.
    unfold mbind at 1, M_bind at 1, read_fs at 1. rewrite Hex. cbn [negb].
    rewrite !bind_print. cbn [fs trace].
    match goal with
    | |- context [ World (fs w) ?t ] => set (w3 := World (fs w) t)
    end.
    rewrite (bind_ok _ _ _ _ _
               (SplitterFacts.scan_large_videos_fs O folder size_limit_mb _ w w3
                  eq_refl Hscan)).
    rewrite bind_print. cbn [fs trace].
    set (total := length ((p0, s0) :: lv)).
    change (enumerate ((p0, s0) :: lv) 1)
      with ((1, (p0, s0)) :: enumerate lv (1 + 1)).
    match goal with
    | |- context [ World (fs w3) ?t ] => set (w4 := World (fs w3) t)
    end.
    assert (Hjob : process_one O total (1, (p0, s0)) w4
                   = (Raise FileNotFoundError,
                      World (fs w)
                        (trace w4
                           ++ [Print [Lit "["; IntP 1; Lit "/";
                                      IntP (Z.of_nat total); Lit "] 處理: ";
                                      Lit (name p0)];
                               Print [Lit "  📦 檔案大小: "; Num2f s0;
                                      Lit " MB"];
                               Run (duration_cmd p0) NotFound]))).
    { unfold process_one.
      erewrite bind_ok; [|reflexivity]. apply bind_raise. cbn [fst snd].
      rewrite (SplitterFacts.split_video_no_inspector O) by apply Hno.
      cbn [fs trace]. by rewrite <- !(assoc_L (++)). }
    rewrite (bind_raise _ _ _ _ _ (for_each_raise _ _ _ _ _ _ Hjob)).
    eexists [_; _; _; _; _; _]. split.
    - unfold w4, w3. cbn [trace]. rewrite <- !(assoc_L (++)). reflexivity.
    - repeat (apply Forall_cons_2; [by eexists|]). apply Forall_nil_2. }
  destruct Hrun as (l & Hrun & Hl). cbv zeta. rewrite Hrun. cbn [fst snd fs].
  split; [done|]. split; [done|]. split; [done|].
  erewrite new_events_app; [|reflexivity].
  split.
  - apply Forall_app. split; [|by apply Forall_singleton].
    eapply Forall_impl; [exact Hl|]. by intros e [line ->].
  - exists p0. split; [done|]. by rewrite last_snoc.
Qed.

(** X4. A run that finds no large video -- the folder is absent, is
    no directory, or holds none -- only prints: it returns normally,
    starts no external program and leaves the file system as it
    was. *)
Theorem nothing_to_split (folder : path) (size_limit_mb : Q) (w : world) :
  (∀ p, ¬ is_large_video O (fs w) folder size_limit_mb p) →
  ∃ l, scan_and_split O folder size_limit_mb w
       = (Ok tt, World (fs w) (trace w ++ l))
       ∧ Forall (λ e, ∃ line, e = Print line) l
       ∧ (1 ≤ length l ≤ 4)%nat.
Proof.
  intros Hnone.
  destruct (SplitterFacts.scan_large_videos_run O folder size_limit_mb w)
    as (lv & Hscan & Hlv).
  destruct lv as [|[p0 s0] lv].
  2:{ exfalso. apply (Hnone p0), Hlv. by left. }
  unfold scan_and_split.
  unfold mbind at 1, M_bind at 1, read_fs at 1.
  destruct (FS.exists_ (fs w) folder); cbn [negb].
  2:{ eexists [_]. split; [reflexivity|]. split; [|simpl; lia].
      apply Forall_singleton. by eexists. }
  rewrite !bind_print. cbn [fs trace].
  match goal with
  | |- context [ World (fs w) ?t ] => set (w3 := World (fs w) t)
  end.
  rewrite (bind_ok _ _ _ _ _
             (SplitterFacts.scan_large_videos_fs O folder size_limit_mb _ w w3
                eq_refl Hscan)).
  eexists [_; _; _; _]. split.
  - unfold print, w3. cbn [fs trace]. rewrite <- !(assoc_L (++)). reflexivity.
  - split; [|simpl; lia].
    repeat (apply Forall_cons_2; [by eexists|]). apply Forall_nil_2.
Qed.

(** X5. The candidate list holds every large video, and nothing
    else, exactly once, in the order of the recursive walk, each with
    its size in bytes over 1024 * 1024; so no file is the job of a run
    twice. *)
Theorem candidates_listed_once (folder : path) (size_limit_mb : Q)
    (w : world) :
  ∃ large_videos,
    scan_large_videos O folder size_limit_mb w = (Ok large_videos, w)
    ∧ (∀ p, p ∈ large_videos.*1
            ↔ is_large_video O (fs w) folder size_limit_mb p)
    ∧ large_videos.*1 `sublist_of` FS.rglob (fs w) folder
    ∧ NoDup large_videos.*1
    ∧ (∀ p size_mb, (p, size_mb) ∈ large_videos →
         ∃ n, fs w !! p = Some (File n)
              ∧ size_mb = (inject_Z n / inject_Z (1024 * 1024))%Q)
    ∧ NoDup (omap job_started
               (new_events w (scan_and_split O folder size_limit_mb w).2)).
Proof.
  destruct (SplitterFacts.scan_large_videos_run O folder size_limit_mb w)
    as (lv & Hscan & Hlv).
  exists lv. split; [done|].
  destruct (collect_large_videos_sublist O (FS.rglob (fs w) folder)
              size_limit_mb [] w) as (found & Hrun & Hsub & Hsz).
  assert (found = lv) as ->.
  { unfold scan_large_videos, mbind, M_bind, read_fs in Hscan.
    simpl in Hscan. rewrite Hrun in Hscan. by injection Hscan. }
  assert (Hnd : NoDup lv.*1).
  { eapply sublist_NoDup; [apply rglob_NoDup|exact Hsub]. }
  split; [exact Hlv|]. split; [done|]. split; [done|]. split; [done|].
  destruct (SplitterFacts.scan_and_split_events O folder size_limit_mb w lv
              Hscan Hlv) as (l & Hl & [k Hk] & _).
  rewrite (new_events_app _ _ l Hl). rewrite Hk in Hnd.
  by apply NoDup_app in Hnd as (? & _).
Qed.

(** The transcode block returns only after two transcoder runs that
    both exited 0. *)
Lemma transcode_parts_ok_exits (c : path) (sp : float) (p1 p2 : path)
    (w w3 : world) :
  transcode_parts O c sp p1 p2 w = (Ok tt, w3) →
  omap transcoder_exit (new_events w w3) = [0; 0].
Proof.
  unfold transcode_parts, get_file_size_mb, try_fs, print, subprocess_run,
    mbind, M_bind, mret, M_ret. simpl.
  destruct (spawn O _ (cmd1 c sp p1)) as [|c1 wr1]; simpl; [done|].
  destruct (returncode c1 =? 0) eqn:Hrc1; simpl; [|done].
  destruct (spawn O _ (cmd2 c sp p2)) as [|c2 wr2]; simpl; [done|].
  destruct (returncode c2 =? 0) eqn:Hrc2; simpl; [|done].
  apply Z.eqb_eq in Hrc1, Hrc2.
  destruct (FS.stat_size _ p1) as [n1|e1]; simpl; [|done].
  destruct (FS.stat_size _ p2) as [n2|e2]; simpl; [|done].
  intros [= <-]. erewrite new_events_app;
    [|cbn [trace]; rewrite <- !(assoc_L (++)); reflexivity].
  simpl. by rewrite Hrc1, Hrc2.
Qed.

(** A successful archival of a regular file, step by step. *)
Lemma archive_original_success (c : path) (w3 w4 : world) (n : Z) :
  fs w3 !! c = Some (File n) →
  archive_original c w3 = (Ok tt, w4) →
  let archive_folder := joinpath (parent c) ARCHIVE_FOLDER_NAME in
  let archive_path := joinpath archive_folder (name c) in
  FS.is_dir (fs w4) archive_folder = true
  ∧ fs w4 !! c = None
  ∧ (∃ line, trace w4 = trace w3 ++ [Print line])
  ∧ (FS.is_dir (fs w3) archive_path = false →
     fs w4 !! archive_path = Some (File n))
  ∧ (∀ q, q ≠ c → is_Some (fs w3 !! q) → is_Some (fs w4 !! q)).
Proof.
  intros Hsrc Harch archive_folder archive_path.
  assert (Hlen : (length c ≤ S (length (parent c)))%nat).
  { rewrite length_parent. lia. }
  assert (Hne2 : ∀ dest, dest = archive_path
                         ∨ dest = joinpath archive_path (name c) → dest ≠ c).
  { intros dest Hd Heq. apply (f_equal length) in Heq.
    destruct Hd as [-> | ->]; unfold archive_path, archive_folder in Heq;
      rewrite !length_joinpath in Heq; lia. }
  revert Harch.
  unfold archive_original, update_fs, print, mbind, M_bind, FS.mkdir.
  fold archive_folder. fold archive_path.
  destruct (FS.mkdir_here true (fs w3) archive_folder) as [fsa|e1] eqn:Hmk;
    simpl; [|done].
  destruct (FS.shutil_move fsa c archive_path) as [fsb|e2] eqn:Hmv; simpl;
    [|done].
  intros [= <-]. cbn [fs trace].
  assert (Hfsa : FS.is_dir fsa archive_folder = true
                 ∧ archive_folder ≠ c
                 ∧ ∀ q, q ≠ archive_folder → fsa !! q = fs w3 !! q).
  { apply mkdir_here_ok in Hmk as [[-> Hd]|(-> & Hnone & _)].
    - split; [unfold FS.is_dir; by rewrite Hd|].
      split; [intros Heq; rewrite Heq in Hd; congruence|done].
    - split; [unfold FS.is_dir; by rewrite lookup_insert_eq|].
      split; [intros Heq; rewrite Heq in Hnone; congruence|].
      intros q Hq. by rewrite lookup_insert_ne. }
  destruct Hfsa as (Hdir & Hne1 & Hsame).
  assert (Hsrc' : fsa !! c = Some (File n)) by (by rewrite Hsame).
  destruct (shutil_move_file _ _ _ _ _ Hsrc' Hmv)
    as (dest & Hdest & Hnd & ->).
  pose proof (Hne2 dest Hdest) as Hdc.
  split; [|split; [|split; [|split]]].
  - unfold FS.is_dir in *.
    rewrite lookup_insert_ne by (intros <-; by rewrite Hdir in Hnd).
    by rewrite lookup_delete_ne.
  - rewrite lookup_insert_ne by done. apply lookup_delete_eq.
  - by eexists.
  - intros Hfile.
    assert (Hap : FS.is_dir fsa archive_path = false).
    { unfold FS.is_dir in *. rewrite Hsame; [done|].
      intros Heq. apply (f_equal length) in Heq.
      unfold archive_path in Heq. rewrite length_joinpath in Heq. lia. }
    unfold FS.shutil_move in Hmv. rewrite Hap, Hsrc' in Hmv. simpl in Hmv.
    destruct (negb _); [done|]. injection Hmv as Hmv.
    rewrite <- Hmv. by rewrite lookup_insert_eq.
  - intros q Hq [x Hx].
    destruct (decide (q = dest)) as [->|Hqd];
      [by rewrite lookup_insert_eq|].
    rewrite lookup_insert_ne, lookup_delete_ne by done.
    destruct (decide (q = archive_folder)) as [->|Hqa].
    + unfold FS.is_dir in Hdir. destruct (fsa !! archive_folder); [done|done].
    + rewrite Hsame by done. by rewrite Hx.
Qed.

(** X6. When [split_video] returns [True] for a regular file, both
    transcoder invocations exited 0, both part paths exist, the
    archive folder beside the file is a directory, and the file is
    gone from its path: it sits in the archive folder under its own
    name and with its size (unless a directory of that name is in the
    way), where it replaces whatever an earlier run archived under
    that name. *)
Theorem split_success_outcome (c : path) (w w' : world) (n : Z) :
  fs w !! c = Some (File n) →
  split_video O c None w = (Ok true, w') →
  let p1 := part_path (parent c) c "_part1" in
  let p2 := part_path (parent c) c "_part2" in
  let archive_folder := joinpath (parent c) ARCHIVE_FOLDER_NAME in
  let archive_path := joinpath archive_folder (name c) in
  omap transcoder_exit (new_events w w') = [0; 0]
  ∧ is_Some (fs w' !! p1)
  ∧ is_Some (fs w' !! p2)
  ∧ fs w' !! c = None
  ∧ FS.is_dir (fs w') archive_folder = true
  ∧ (FS.is_dir (fs w) archive_path = false →
     fs w' !! archive_path = Some (File n)).
Proof.
  intros Hfile Hsplit p1 p2 archive_folder archive_path.
  destruct (SplitterFacts.split_video_true_inv O _ _ _ _ Hsplit)
    as (d & w1 & w2 & w3 & Hprobe & Hd & Hplan & Hparts & Harch).
  simpl in Hplan, Hparts. fold p1 p2 in Hplan, Hparts.
  assert (Hne1 : c ≠ p1).
  { intros Heq. by apply (SplitterFacts.part_path_ne_source (parent c) c "_part1"). }
  assert (Hne2 : c ≠ p2).
  { intros Heq. by apply (SplitterFacts.part_path_ne_source (parent c) c "_part2"). }
  (* the worlds of the stages *)
  pose proof (SplitterFacts.get_video_duration_fs O c w) as Hfs1.
  destruct (SplitterFacts.get_video_duration_events O c w)
    as (l1 & Hl1 & _ & Hq1 & _).
  rewrite Hprobe in Hfs1, Hl1. simpl in Hfs1, Hl1.
  destruct (SplitterFacts.announce_plan_run d (d / 2)%float p1 p2 w1)
    as (l2 & Hplan' & Hq2).
  rewrite Hplan in Hplan'. injection Hplan' as ->.
  destruct (SplitterFacts.transcode_parts_outcome O c (d / 2)%float p1 p2
              (World (fs w1) (trace w1 ++ l2))) as (Hframe & Hdirs & _).
  rewrite Hparts in Hframe, Hdirs. cbn [fst snd fs] in Hframe, Hdirs.
  destruct (SplitterFacts.transcode_parts_ok_parts O _ _ _ _ _ _ Hparts)
    as [Hp1 Hp2].
  pose proof (transcode_parts_ok_exits _ _ _ _ _ _ Hparts) as Hexits.
  assert (Hsrc3 : fs w3 !! c = Some (File n)).
  { rewrite Hframe by done. by rewrite Hfs1. }
  destruct (archive_original_success c w3 w' n Hsrc3 Harch)
    as (Hdir & Hgone & [line Htr] & Hdest & Hkeep).
  split; [|split; [|split; [|split; [|split]]]].
  - assert (Hl3 : trace w3
                  = trace (World (fs w1) (trace w1 ++ l2))
                      ++ new_events (World (fs w1) (trace w1 ++ l2)) w3).
    { destruct (SplitterFacts.transcode_parts_outcome O c (d / 2)%float p1 p2
                  (World (fs w1) (trace w1 ++ l2))) as (_ & _ & l3 & Hl3 & _).
      rewrite Hparts in Hl3. cbn [snd] in Hl3.
      by rewrite (new_events_app _ _ l3 Hl3). }
    cbn [trace] in Hl3.
    set (l3 := new_events (World (fs w1) (trace w1 ++ l2)) w3) in *.
    clearbody l3.
    erewrite new_events_app;
      [|rewrite Htr, Hl3, Hl1, <- !(assoc_L (++)); reflexivity].
    rewrite !omap_app, Hexits.
    assert (Hnone : ∀ l, Forall (λ e, transcoder_exit e = None) l →
                         omap transcoder_exit l = []).
    { induction 1 as [|e l He _ IH]; [done|]. simpl. by rewrite He. }
    rewrite (Hnone l1), (Hnone l2); [done|done|].
    eapply Forall_impl; [exact Hq1|].
    intros [line'|argv o]; [done|]. simpl.
    destruct argv as [|[[|a0 s0]| | | | | | |] argv]; try done.
    intros Hrun. unfold transcoder_exit.
    repeat (match goal with
            | |- context [ match ?x with _ => _ end ] => destruct x; try done
            end).
  - apply Hkeep; [done|done].
  - apply Hkeep; [done|done].
  - done.
  - done.
  - intros Hap. apply Hdest. rewrite Hdirs. simpl. by rewrite Hfs1.
Qed.

End WithOracle.

End SplitterMore.

(** ** More on the enhancer *)

Module EnhancerMore.

Import Str StrFacts Enhancer TraceFacts MonadFacts FSFacts PathFacts EvolveFacts.

#[export] Instance overwrites_only_in_preorder (out : path) :
  PreOrder (overwrites_only_in out).
Proof.
  split.
  - intros fs q x Hq. by left.
  - intros fs1 fs2 fs3 H12 H23 q x Hq.
    destruct (H12 q x Hq) as [H2|(Hout & n & m & -> & H2)].
    + apply (H23 q x H2).
    + destruct (H23 q _ H2) as [H3|(_ & n' & m' & _ & H3)];
        right; (split; [done|]); eauto.
Qed.

Lemma os_mkdir_grows (fs fs' : filesystem) (p q : path) (x : node) :
  FS.os_mkdir fs p = Ok fs' → fs !! q = Some x → fs' !! q = Some x.
Proof.
  unfold FS.os_mkdir. destruct (fs !! p) eqn:Hp; [done|].
  destruct (fs !! parent p) as [[]|]; try done.
  intros [= <-] Hq. rewrite lookup_insert_ne; [done|]. intros <-. congruence.
Qed.

Lemma mkdir_here_grows (exist_ok : bool) (fs fs' : filesystem) (p q : path)
    (x : node) :
  FS.mkdir_here exist_ok fs p = Ok fs' → fs !! q = Some x → fs' !! q = Some x.
Proof.
  unfold FS.mkdir_here.
  destruct (FS.os_mkdir fs p) as [fs1|e] eqn:Hmk.
  - intros [= <-]. by eapply os_mkdir_grows.
  - destruct e; try done; destruct (_ && _); try done; by intros [= <-].
Qed.

Lemma mkdir_parents_rev_grows (exist_ok : bool) (fs fs' : filesystem)
    (rp : list string) (q : path) (x : node) :
  FS.mkdir_parents_rev exist_ok fs rp = Ok fs' →
  fs !! q = Some x → fs' !! q = Some x.
Proof.
  revert exist_ok fs fs'.
  induction rp as [|c rp IH]; intros exist_ok fs fs'; simpl.
  - destruct (FS.os_mkdir fs []) as [fs1|e] eqn:Hmk.
    + intros [= <-]. by eapply os_mkdir_grows.
    + destruct e; try done; destruct (_ && _); try done; by intros [= <-].
  - destruct (FS.os_mkdir fs (rev rp ++ [c])) as [fs1|e] eqn:Hmk.
    + intros [= <-]. by eapply os_mkdir_grows.
    + destruct e; try done;
        try (destruct (_ && _); try done; by intros [= <-]).
      destruct (FS.mkdir_parents_rev true fs rp) as [fs1|e] eqn:Hrec; [|done].
      intros Hmk' Hq. eapply mkdir_here_grows; [exact Hmk'|].
      by eapply IH.
Qed.

(** Making directories removes and changes no entry. *)
Lemma mkdir_grows (parents exist_ok : bool) (fs fs' : filesystem)
    (p q : path) (x : node) :
  FS.mkdir parents exist_ok fs p = Ok fs' →
  fs !! q = Some x → fs' !! q = Some x.
Proof.
  unfold FS.mkdir. destruct parents.
  - apply mkdir_parents_rev_grows.
  - apply mkdir_here_grows.
Qed.

Lemma write_file_overwrites (fs : filesystem) (p : path) (n : Z) :
  overwrites_only_in (parent p) fs (FS.write_file fs p n).
Proof.
  intros q x Hq. unfold FS.write_file.
  destruct (FS.is_dir fs (parent p) && negb (FS.is_dir fs p)) eqn:Hc;
    [|by left].
  apply andb_true_iff in Hc as [_ Hp]. apply negb_true_iff in Hp.
  destruct (decide (q = p)) as [->|Hne].
  - right. split; [done|]. unfold FS.is_dir in Hp. rewrite Hq in Hp.
    destruct x as [m|]; [|done]. exists m, n. by rewrite lookup_insert_eq.
  - left. by rewrite lookup_insert_ne.
Qed.

Lemma os_mkdir_files (fs fs' : filesystem) (p q : path) (n : Z) :
  FS.os_mkdir fs p = Ok fs' → fs' !! q = Some (File n) →
  fs !! q = Some (File n).
Proof.
  unfold FS.os_mkdir. destruct (fs !! p) eqn:Hp; [done|].
  destruct (fs !! parent p) as [[]|]; try done.
  intros [= <-]. destruct (decide (p = q)) as [->|Hne].
  - by rewrite lookup_insert_eq.
  - by rewrite lookup_insert_ne.
Qed.

Lemma mkdir_here_files (exist_ok : bool) (fs fs' : filesystem) (p q : path)
    (n : Z) :
  FS.mkdir_here exist_ok fs p = Ok fs' → fs' !! q = Some (File n) →
  fs !! q = Some (File n).
Proof.
  unfold FS.mkdir_here.
  destruct (FS.os_mkdir fs p) as [fs1|e] eqn:Hmk.
  - intros [= <-]. by eapply os_mkdir_files.
  - destruct e; try done; destruct (_ && _); try done; by intros [= <-].
Qed.

Lemma mkdir_parents_rev_files (exist_ok : bool) (fs fs' : filesystem)
    (rp : list string) (q : path) (n : Z) :
  FS.mkdir_parents_rev exist_ok fs rp = Ok fs' →
  fs' !! q = Some (File n) → fs !! q = Some (File n).
Proof.
  revert exist_ok fs fs'.
  induction rp as [|c rp IH]; intros exist_ok fs fs'; simpl.
  - destruct (FS.os_mkdir fs []) as [fs1|e] eqn:Hmk.
    + intros [= <-]. by eapply os_mkdir_files.
    + destruct e; try done; destruct (_ && _); try done; by intros [= <-].
  - destruct (FS.os_mkdir fs (rev rp ++ [c])) as [fs1|e] eqn:Hmk.
    + intros [= <-]. by eapply os_mkdir_files.
    + destruct e; try done;
        try (destruct (_ && _); try done; by intros [= <-]).
      destruct (FS.mkdir_parents_rev true fs rp) as [fs1|e] eqn:Hrec; [|done].
      intros Hmk' Hq. eapply IH; [exact Hrec|].
      by eapply mkdir_here_files.
Qed.

(** Making directories makes no regular file. *)
Lemma mkdir_files (parents exist_ok : bool) (fs fs' : filesystem)
    (p q : path) (n : Z) :
  FS.mkdir parents exist_ok fs p = Ok fs' →
  fs' !! q = Some (File n) → fs !! q = Some (File n).
Proof.
  unfold FS.mkdir. destruct parents.
  - apply mkdir_parents_rev_files.
  - apply mkdir_here_files.
Qed.

(** The entries of a directory are its immediate children. *)
Lemma iterdir_children (fs : filesystem) (folder : path)
    (entries : list path) (p : path) :
  FS.iterdir fs folder = Ok entries → p ∈ entries →
  parent p = folder ∧ is_Some (fs !! p).
Proof.
  unfold FS.iterdir. destruct (fs !! folder) as [[]|]; try done.
  intros [= <-]. rewrite list_elem_of_filter, list_elem_of_fmap.
  intros ([_ Hpar] & [q x] & -> & Hq%elem_of_map_to_list). eauto.
Qed.

Section WithConfig.

Context (cfg : config) (O : oracle).

(** X7. The name of an output file: it lies directly in the output
    folder; with an output format set it depends on the stem of the
    input alone, so inputs that differ in their extension only share
    one output file; with none set the input keeps its extension,
    and the output name differs from the input name exactly when the
    output suffix is not empty. *)
Theorem output_filename_shape (p q : path) :
  parent (get_output_filename cfg p) = OUTPUT_FOLDER cfg
  ∧ (OUTPUT_FORMAT cfg ≠ "" → stem p = stem q →
     get_output_filename cfg p = get_output_filename cfg q)
  ∧ (OUTPUT_FORMAT cfg = "" →
     name (get_output_filename cfg p)
     = stem p +:+ OUTPUT_SUFFIX cfg +:+ suffix p
     ∧ (name (get_output_filename cfg p) = name p ↔ OUTPUT_SUFFIX cfg = "")).
Proof.
  unfold get_output_filename. split; [apply parent_joinpath|]. split.
  - intros Hfmt Hstem. rewrite bool_decide_eq_false_2 by done.
    by rewrite Hstem.
  - intros Hfmt. rewrite bool_decide_eq_true_2 by done.
    rewrite name_joinpath. split; [done|]. split.
    + intros Heq. destruct (OUTPUT_SUFFIX cfg) as [|a s] eqn:Hsfx; [done|].
      exfalso. revert Heq. apply tagged_name_ne. done.
    + intros ->. change ("" +:+ suffix p) with (suffix p). apply stem_suffix.
Qed.

(** An inspector run, or the version check, writes nowhere. *)
Lemma run_keeps (check : bool) (argv : list piece) :
  written_path argv = None →
  evolves (overwrites_only_in (OUTPUT_FOLDER cfg)) (subprocess_run O check argv).
Proof.
  intros Hnone. apply evolves_subprocess_run; [apply _|].
  intros fs wr. rewrite written_fs_no_output by done. reflexivity.
Qed.

Lemma get_video_info_keeps (p : path) :
  evolves (overwrites_only_in (OUTPUT_FOLDER cfg)) (get_video_info O p).
Proof.
  unfold get_video_info. apply evolves_try_except; [apply _| |].
  - apply evolves_bind; [apply _|by apply run_keeps|].
    intros c. destruct (parse_streams O (stdout c));
      [apply evolves_ret|apply evolves_raise]; apply _.
  - intros e h He. destruct e; simplify_eq;
      (apply evolves_bind; [apply _|apply evolves_print; apply _|]);
      intros _; apply evolves_ret; apply _.
Qed.

Lemma print_info_keeps (a b : string) (info : video_info) :
  evolves (overwrites_only_in (OUTPUT_FOLDER cfg)) (print_info a b info).
Proof.
  unfold print_info.
  apply evolves_bind; [apply _|apply evolves_print; apply _|].
  intros _. destruct (bitrate info =? 0);
    [apply evolves_ret|apply evolves_print]; apply _.
Qed.

(** The transcoder writes at the output path of the job only. *)
Lemma enhance_video_keeps (input_path : path) :
  evolves (overwrites_only_in (OUTPUT_FOLDER cfg))
          (enhance_video cfg O input_path (get_output_filename cfg input_path)).
Proof.
  unfold enhance_video. apply evolves_try_except; [apply _| |].
  - apply evolves_bind; [apply _|apply evolves_print; apply _|]. intros _.
    apply evolves_bind; [apply _|apply evolves_print; apply _|]. intros _.
    apply evolves_bind; [apply _| |].
    { apply evolves_subprocess_run; [apply _|]. intros fs wr.
      unfold written_fs.
      assert (Hout : written_path
                       (enhance_cmd cfg input_path
                          (get_output_filename cfg input_path))
                     = Some (get_output_filename cfg input_path)).
      { unfold enhance_cmd. by destruct (0 <? MAX_BITRATE cfg). }
      rewrite Hout. destruct wr as [n|]; [|reflexivity].
      pose proof (write_file_overwrites fs
                    (get_output_filename cfg input_path) n) as Hw.
      unfold get_output_filename in Hw at 1.
      by rewrite parent_joinpath in Hw. }
    intros c. destruct (returncode c =? 0); [apply evolves_ret; apply _|].
    apply evolves_bind; [apply _|apply evolves_print; apply _|]. intros _.
    apply evolves_bind; [apply _|apply evolves_print; apply _|]. intros _.
    apply evolves_ret; apply _.
  - intros e h He. destruct e; simplify_eq.
    apply evolves_bind; [apply _|apply evolves_print; apply _|]. intros _.
    apply evolves_ret; apply _.
Qed.

Lemma enhance_job_keeps (total : nat) (job : Z * path) :
  evolves (overwrites_only_in (OUTPUT_FOLDER cfg)) (process_one cfg O total job).
Proof.
  destruct job as [i video_path]. unfold process_one.
  apply evolves_bind; [apply _|apply evolves_print; apply _|]. intros _.
  apply evolves_bind; [apply _|apply get_video_info_keeps|]. intros info.
  apply evolves_bind; [apply _| |].
  { destruct info; [apply print_info_keeps|apply evolves_ret; apply _]. }
  intros _.
  apply evolves_bind; [apply _|apply evolves_print; apply _|]. intros _.
  apply evolves_bind; [apply _|apply enhance_video_keeps|].
  intros []; [|apply evolves_ret; apply _].
  apply evolves_bind; [apply _|apply get_video_info_keeps|]. intros info'.
  apply evolves_bind; [apply _| |intros _; apply evolves_ret; apply _].
  destruct info'; [|apply evolves_print; apply _].
  apply evolves_bind; [apply _|apply evolves_print; apply _|]. intros _.
  apply print_info_keeps.
Qed.

Lemma process_all_keeps (total : nat) (jobs : list (Z * path)) (ok bad : Z) :
  evolves (overwrites_only_in (OUTPUT_FOLDER cfg))
          (process_all cfg O total jobs ok bad).
Proof.
  revert ok bad.
  induction jobs as [|job jobs IH]; intros ok bad; simpl;
    [apply evolves_ret; apply _|].
  apply evolves_bind; [apply _|apply enhance_job_keeps|]. intros []; apply IH.
Qed.

Lemma mkdir_keeps (parents exist_ok : bool) (p : path) :
  evolves (overwrites_only_in (OUTPUT_FOLDER cfg))
          (update_fs (λ fs, FS.mkdir parents exist_ok fs p)).
Proof.
  apply evolves_update_fs; [apply _|]. intros fs fs' Hmk q x Hq.
  left. by eapply mkdir_grows.
Qed.

Lemma scan_and_enhance_keeps :
  evolves (overwrites_only_in (OUTPUT_FOLDER cfg)) (scan_and_enhance cfg O).
Proof.
  unfold scan_and_enhance.
  apply evolves_bind; [apply _|apply evolves_read_fs; apply _|].
  intros []; simpl.
  - apply evolves_bind; [apply _|apply (mkdir_keeps true true)|]. intros _.
    apply evolves_bind; [apply _|apply evolves_try_fs; apply _|].
    intros entries.
    apply evolves_bind; [apply _|apply evolves_read_fs; apply _|].
    intros [|video videos].
    { do 2 (apply evolves_bind; [apply _|apply evolves_print; apply _|];
            intros _).
      apply evolves_print; apply _. }
    do 7 (apply evolves_bind; [apply _|apply evolves_print; apply _|];
          intros _).
    apply evolves_bind; [apply _|apply process_all_keeps|]. intros counts.
    do 3 (apply evolves_bind; [apply _|apply evolves_print; apply _|];
          intros _).
    apply evolves_bind; [apply _| |intros _; apply evolves_print; apply _].
    destruct (0 <? counts.2); [apply evolves_print|apply evolves_ret]; apply _.
  - apply evolves_bind; [apply _|apply (mkdir_keeps true false)|]. intros _.
    apply evolves_bind; [apply _|apply evolves_print; apply _|]. intros _.
    apply evolves_print; apply _.
Qed.

(** X8. The enhancer removes nothing and writes into its output folder
    only: every entry the file system had before a run is there after
    it, unchanged, unless it is a regular file directly in the output
    folder, which may have been replaced by a regular file; this
    holds however the run ends. *)
Theorem enhancer_writes_output_only (w : world) (q : path) (x : node) :
  fs w !! q = Some x →
  fs (main cfg O w).2 !! q = Some x
  ∨ (parent q = OUTPUT_FOLDER cfg
     ∧ ∃ n m, x = File n ∧ fs (main cfg O w).2 !! q = Some (File m)).
Proof.
  revert q x. change (overwrites_only_in (OUTPUT_FOLDER cfg) (fs w)
                        (fs (main cfg O w).2)).
  revert w. change (evolves (overwrites_only_in (OUTPUT_FOLDER cfg))
                      (main cfg O)).
  unfold main.
  do 3 (apply evolves_bind; [apply _|apply evolves_print; apply _|];
        intros _).
  apply evolves_bind; [apply _| |].
  { unfold check_ffmpeg. apply evolves_try_except; [apply _| |].
    - apply evolves_bind; [apply _|by apply run_keeps|].
      intros _. apply evolves_ret; apply _.
    - intros e h He. destruct e; simplify_eq; apply evolves_ret; apply _. }
  intros []; simpl.
  - apply evolves_bind; [apply _|apply evolves_print; apply _|]. intros _.
    apply scan_and_enhance_keeps.
  - do 5 (apply evolves_bind; [apply _|apply evolves_print; apply _|];
          intros _).
    apply evolves_raise; apply _.
Qed.

(** *** The jobs of the enhancer *)

Lemma quiet_exits (l : list event) :
  Forall (λ e, is_transcoder_run e = false) l → omap transcoder_exit l = [].
Proof.
  induction 1 as [|e l He _ IH]; [done|].
  assert (Hnone : transcoder_exit e = None).
  { destruct e as [line|argv o]; [done|]. unfold transcoder_exit.
    unfold is_transcoder_run in He.
    repeat (match goal with
            | |- context [ match ?x with _ => _ end ] => destruct x; try done
            end). }
  change (omap transcoder_exit (e :: l))
    with (match transcoder_exit e with
          | Some rc => rc :: omap transcoder_exit l
          | None => omap transcoder_exit l
          end).
  by rewrite Hnone.
Qed.

(** A computation that cannot raise and starts no transcoder. *)
Lemma quiet_total {A : Type} (m : M A) (w : world) :
  emits (λ e, is_transcoder_run e = false) m →
  raises_only (λ _, False) m →
  ∃ a w1 l, m w = (Ok a, w1) ∧ trace w1 = trace w ++ l
            ∧ Forall (λ e, is_transcoder_run e = false) l.
Proof.
  intros Hm Hr. destruct (Hm w) as (l & Hl & Hq).
  destruct (m w) as [[a|e] w1] eqn:Hmw; [by exists a, w1, l|].
  destruct (Hr _ _ _ Hmw).
Qed.

Lemma get_video_info_quiet (p : path) :
  emits (λ e, is_transcoder_run e = false) (get_video_info O p).
Proof.
  unfold get_video_info. apply emits_try_except.
  - apply emits_bind; [by apply emits_subprocess_run|]. intros c.
    destruct (parse_streams O (stdout c)); [apply emits_ret|apply emits_raise].
  - intros e h He. destruct e; simplify_eq;
      (apply emits_bind; [by apply emits_print|]); intros _; apply emits_ret.
Qed.

Lemma enhance_cmd_shape (input_path output_path : path) :
  ∃ rest, enhance_cmd cfg input_path output_path
          = Lit "ffmpeg" :: Lit "-y" :: Lit "-i" :: PathP input_path :: rest.
Proof. unfold enhance_cmd. destruct (0 <? MAX_BITRATE cfg); by eexists. Qed.

(** One job of the enhancer: it reports the exit code of its one
    transcoder invocation, whatever the inspector does, and raises
    only when the transcoder cannot be started. *)
Lemma enhance_job_exit (total : nat) (job : Z * path) (w : world) :
  ∃ l, trace (process_one cfg O total job w).2 = trace w ++ l
       ∧ match (process_one cfg O total job w).1 with
         | Ok b => ∃ rc, omap transcoder_exit l = [rc] ∧ b = (rc =? 0)
         | Raise e => e = FileNotFoundError ∧ omap transcoder_exit l = []
         end.
Proof.
  destruct job as [i p].
  destruct (process_one cfg O total (i, p) w) as [r w'] eqn:Hrun. cbn [fst snd].
  unfold process_one in Hrun. rewrite bind_print in Hrun. cbn [fs trace] in Hrun.
  match type of Hrun with
  | context [ World (fs w) ?t ] => set (wa := World (fs w) t) in Hrun
  end.
  destruct (quiet_total (get_video_info O p) wa (get_video_info_quiet p)
              (EnhancerFacts.get_video_info_raises O p))
    as (info & wb & lb & Hb & Htb & Hqb).
  rewrite (bind_ok _ _ _ _ _ Hb) in Hrun.
  match type of Hrun with
  | (?m ≫= _) wb = _ =>
      destruct (quiet_total m wb) as ([] & wc & lc & Hc & Htc & Hqc)
  end.
  { destruct info; [by apply EnhancerFacts.print_info_emits|apply emits_ret]. }
  { destruct info; [apply EnhancerFacts.print_info_raises
                   |apply raises_only_ret]. }
  rewrite (bind_ok _ _ _ _ _ Hc) in Hrun.
  rewrite bind_print in Hrun.
  unfold mbind at 1, M_bind at 1 in Hrun.
  rewrite EnhancerFacts.enhance_video_run in Hrun. cbv zeta in Hrun.
  destruct (enhance_cmd_shape p (get_output_filename cfg p)) as [rest Hcmd].
  assert (Htd : trace wc
                  ++ [Print [Lit "  📁 輸出: ";
                             Lit (name (get_output_filename cfg p))]]
                = trace w
                    ++ ([Print [Lit newline; Lit "["; IntP i; Lit "/";
                                IntP (Z.of_nat total); Lit "] 處理: ";
                                Lit (name p)]]
                          ++ lb ++ lc
                          ++ [Print [Lit "  📁 輸出: ";
                                     Lit (name (get_output_filename cfg p))]])).
  { rewrite Htc, Htb. unfold wa. cbn [trace].
    by rewrite <- !(assoc_L (++)). }
  match type of Hrun with
  | context [ spawn O ?v ?a ] => destruct (spawn O v a) as [|c wr]
  end.
  { (* the transcoder cannot be started *)
    injection Hrun as <- <-. eexists. split.
    - cbn [trace]. rewrite Htd, <- !(assoc_L (++)). reflexivity.
    - split; [done|]. rewrite !omap_app.
      rewrite (quiet_exits lb), (quiet_exits lc) by done.
      rewrite Hcmd. reflexivity. }
  destruct (returncode c =? 0) eqn:Hrc.
  2:{ (* the transcoder failed *)
      injection Hrun as <- <-. eexists. split.
      - cbn [trace]. rewrite Htd, <- !(assoc_L (++)). reflexivity.
      - exists (returncode c). split; [|by rewrite Hrc].
        rewrite !omap_app.
        rewrite (quiet_exits lb), (quiet_exits lc) by done.
        rewrite Hcmd. reflexivity. }
  (* the transcoder succeeded: the output is inspected *)
  cbn [fs trace] in Hrun.
  match type of Hrun with
  | context [ World (written_fs ?a ?b ?f) ?t ] =>
      set (we := World (written_fs a b f) t) in Hrun
  end.
  destruct (quiet_total (get_video_info O (get_output_filename cfg p)) we
              (get_video_info_quiet _)
              (EnhancerFacts.get_video_info_raises O _))
    as (info' & wf & lf & Hf & Htf & Hqf).
  rewrite (bind_ok _ _ _ _ _ Hf) in Hrun.
  match type of Hrun with
  | (?m ≫= _) wf = _ =>
      destruct (quiet_total m wf) as ([] & wg & lg & Hg & Htg & Hqg)
  end.
  { destruct info'; [|by apply emits_print].
    apply emits_bind; [by apply emits_print|]. intros _.
    by apply EnhancerFacts.print_info_emits. }
  { destruct info'; [|apply raises_only_print].
    apply raises_only_bind; [apply raises_only_print|]. intros _.
    apply EnhancerFacts.print_info_raises. }
  rewrite (bind_ok _ _ _ _ _ Hg) in Hrun.
  injection Hrun as <- <-. eexists. split.
  - rewrite Htg, Htf. unfold we. cbn [trace].
    rewrite Htd, <- !(assoc_L (++)). reflexivity.
  - exists (returncode c). split; [|by rewrite Hrc].
    rewrite !omap_app.
    rewrite (quiet_exits lb), (quiet_exits lc), (quiet_exits lf),
      (quiet_exits lg) by done.
    rewrite Hcmd. reflexivity.
Qed.

Lemma process_all_cons (total : nat) (job : Z * path)
    (jobs : list (Z * path)) (ok bad : Z) (w : world) :
  process_all cfg O total (job :: jobs) ok bad w
  = match process_one cfg O total job w with
    | (Ok true, w1) => process_all cfg O total jobs (ok + 1) bad w1
    | (Ok false, w1) => process_all cfg O total jobs ok (bad + 1) w1
    | (Raise e, w1) => (Raise e, w1)
    end.
Proof.
  simpl. unfold mbind, M_bind.
  by destruct (process_one cfg O total job w) as [[[]|e] w1].
Qed.

Lemma process_all_exits (total : nat) (jobs : list (Z * path)) (ok bad : Z)
    (w : world) :
  ∃ l, trace (process_all cfg O total jobs ok bad w).2 = trace w ++ l
       ∧ match (process_all cfg O total jobs ok bad w).1 with
         | Ok (ok', bad') =>
             length (omap transcoder_exit l) = length jobs
             ∧ ok' = ok + Z.of_nat (length (filter (λ rc, rc = 0)
                                              (omap transcoder_exit l)))
             ∧ bad' = bad + Z.of_nat (length (filter (λ rc, rc ≠ 0)
                                                (omap transcoder_exit l)))
         | Raise e =>
             e = FileNotFoundError
             ∧ (length (omap transcoder_exit l) < length jobs)%nat
         end.
Proof.
  revert ok bad w. induction jobs as [|job jobs IH]; intros ok bad w.
  { exists []. rewrite List.app_nil_r. simpl. split; [done|]. lia. }
  destruct (enhance_job_exit total job w) as (l1 & Hl1 & Hjob).
  rewrite process_all_cons.
  destruct (process_one cfg O total job w) as [[b|e] w1]; cbn [fst snd] in *.
  2:{ exists l1. split; [done|]. destruct Hjob as [-> ->]. simpl.
      split; [done|lia]. }
  destruct Hjob as (rc & Hrc & ->).
  destruct (rc =? 0) eqn:Hz.
  - apply Z.eqb_eq in Hz. subst rc.
    destruct (IH (ok + 1) bad w1) as (l2 & Hl2 & Hrest).
    exists (l1 ++ l2). split; [by rewrite Hl2, Hl1, <- (assoc_L (++))|].
    rewrite omap_app, Hrc.
    destruct (process_all cfg O total jobs (ok + 1) bad w1).1 as [[ok' bad']|e].
    + destruct Hrest as (Hlen & -> & ->). simpl.
      rewrite ?filter_cons_True by done.
      rewrite ?filter_cons_False by (intros Hnz; by apply Hnz).
      simpl. split; [by rewrite Hlen|]. split; lia.
    + destruct Hrest as [-> Hlen]. split; [done|]. simpl. lia.
  - apply Z.eqb_neq in Hz.
    destruct (IH ok (bad + 1) w1) as (l2 & Hl2 & Hrest).
    exists (l1 ++ l2). split; [by rewrite Hl2, Hl1, <- (assoc_L (++))|].
    rewrite omap_app, Hrc.
    destruct (process_all cfg O total jobs ok (bad + 1) w1).1 as [[ok' bad']|e].
    + destruct Hrest as (Hlen & -> & ->). simpl.
      rewrite ?filter_cons_False by done. rewrite ?filter_cons_True by done.
      simpl. split; [by rewrite Hlen|]. split; lia.
    + destruct Hrest as [-> Hlen]. split; [done|]. simpl. lia.
Qed.

(** X9. The two counters of the enhancer are counts of transcoder exit
    codes: when the job loop completes, each job has had exactly one
    transcoder invocation, the successes are the invocations that
    exited 0 and the failures those that did not, whatever the
    inspector reported; together they are the number of jobs.  The
    loop raises only when the transcoder cannot be started. *)
Theorem enhance_counts (total : nat) (jobs : list (Z * path)) (ok bad : Z)
    (w : world) :
  let r := process_all cfg O total jobs ok bad w in
  let exits := omap transcoder_exit (new_events w r.2) in
  match r.1 with
  | Ok (ok', bad') =>
      length exits = length jobs
      ∧ ok' = ok + Z.of_nat (length (filter (λ rc, rc = 0) exits))
      ∧ bad' = bad + Z.of_nat (length (filter (λ rc, rc ≠ 0) exits))
      ∧ ok' + bad' = ok + bad + Z.of_nat (length jobs)
  | Raise e =>
      e = FileNotFoundError ∧ (length exits < length jobs)%nat
  end.
Proof.
  cbv zeta. destruct (process_all_exits total jobs ok bad w) as (l & Hl & H).
  rewrite (new_events_app _ _ l Hl).
  destruct (process_all cfg O total jobs ok bad w).1 as [[ok' bad']|e];
    [|done].
  destruct H as (Hlen & Hok & Hbad). split; [done|]. split; [done|].
  split; [done|]. rewrite Hok, Hbad, <- Hlen.
  assert (Hsplit : ∀ xs : list Z,
            (length (filter (λ rc : Z, rc = 0%Z) xs)
             + length (filter (λ rc : Z, rc ≠ 0%Z) xs) = length xs)%nat).
  { induction xs as [|x xs IHx]; [done|].
    destruct (decide (x = 0)) as [->|Hx].
    - rewrite filter_cons_True by done.
      rewrite filter_cons_False by (intros Hnz; by apply Hnz). simpl. lia.
    - rewrite filter_cons_False by done.
      rewrite filter_cons_True by done. simpl. lia. }
  specialize (Hsplit (omap transcoder_exit l)). lia.
Qed.

(** An event that, if it is a transcoder invocation, is the one of a
    job of the list. *)
Lemma enhance_job_runs (total : nat) (jobs : list (Z * path))
    (job : Z * path) :
  job ∈ jobs →
  emits (λ e, is_transcoder_run e = true →
              ∃ j o, j ∈ jobs
                     ∧ e = Run (enhance_cmd cfg j.2
                                  (get_output_filename cfg j.2)) o)
        (process_one cfg O total job).
Proof.
  intros Hin.
  assert (Hquiet : ∀ {A : Type} (m : M A),
            emits (λ e, is_transcoder_run e = false) m →
            emits (λ e, is_transcoder_run e = true →
                        ∃ j o, j ∈ jobs
                               ∧ e = Run (enhance_cmd cfg j.2
                                            (get_output_filename cfg j.2)) o)
                  m).
  { intros A m. apply emits_mono. intros e ->. done. }
  destruct job as [i video_path]. unfold process_one.
  apply emits_bind; [by apply emits_print|]. intros _.
  apply emits_bind; [apply Hquiet, get_video_info_quiet|]. intros info.
  apply emits_bind.
  { destruct info; [by apply EnhancerFacts.print_info_emits|apply emits_ret]. }
  intros _. apply emits_bind; [by apply emits_print|]. intros _.
  apply emits_bind.
  { unfold enhance_video. apply emits_try_except.
    - apply emits_bind; [by apply emits_print|]. intros _.
      apply emits_bind; [by apply emits_print|]. intros _.
      apply emits_bind.
      { apply emits_subprocess_run. intros o _. by exists (i, video_path), o. }
      intros c. destruct (returncode c =? 0); [apply emits_ret|].
      apply emits_bind; [by apply emits_print|]. intros _.
      apply emits_bind; [by apply emits_print|]. intros _. apply emits_ret.
    - intros e h He. destruct e; simplify_eq.
      apply emits_bind; [by apply emits_print|]. intros _. apply emits_ret. }
  intros []; [|apply emits_ret].
  apply emits_bind; [apply Hquiet, get_video_info_quiet|]. intros info'.
  apply emits_bind; [|intros _; apply emits_ret].
  destruct info'; [|by apply emits_print].
  apply emits_bind; [by apply emits_print|]. intros _.
  by apply EnhancerFacts.print_info_emits.
Qed.

Lemma process_all_runs (total : nat) (all jobs : list (Z * path))
    (ok bad : Z) :
  jobs ⊆ all →
  emits (λ e, is_transcoder_run e = true →
              ∃ j o, j ∈ all
                     ∧ e = Run (enhance_cmd cfg j.2
                                  (get_output_filename cfg j.2)) o)
        (process_all cfg O total jobs ok bad).
Proof.
  revert ok bad.
  induction jobs as [|job jobs IH]; intros ok bad Hsub; simpl;
    [apply emits_ret|].
  apply emits_bind.
  - apply enhance_job_runs. apply Hsub. by left.
  - intros []; apply IH; intros j Hj; apply Hsub; by right.
Qed.

(** X10. The enhancer transcodes the videos directly in its input
    folder and nothing else: every transcoder invocation of a run
    reads a regular file that was an immediate child of the input
    folder when the run began (the walk does not descend), has an
    extension of the allow-list, and writes to the output name
    computed for it. *)
Theorem enhancer_jobs (w : world) (argv : list piece) (o : outcome) :
  Run argv o ∈ new_events w (scan_and_enhance cfg O w).2 →
  is_transcoder_run (Run argv o) = true →
  ∃ p, parent p = INPUT_FOLDER cfg
       ∧ FS.is_file (fs w) p = true
       ∧ Str.lower (unicode_lower O) (suffix p) ∈ VIDEO_EXTENSIONS cfg
       ∧ argv = enhance_cmd cfg p (get_output_filename cfg p).
Proof.
  set (Good := λ e : event,
         is_transcoder_run e = true →
         ∃ p o', parent p = INPUT_FOLDER cfg
                 ∧ FS.is_file (fs w) p = true
                 ∧ Str.lower (unicode_lower O) (suffix p) ∈ VIDEO_EXTENSIONS cfg
                 ∧ e = Run (enhance_cmd cfg p (get_output_filename cfg p)) o').
  assert (Hall : Forall Good (new_events w (scan_and_enhance cfg O w).2)).
  2:{ intros Hin Hrun. rewrite Forall_forall in Hall.
      destruct (Hall _ Hin Hrun) as (p & o' & H1 & H2 & H3 & [= -> _]).
      by exists p. }
  assert (Hprint : ∀ line, Good (Print line)) by (by intros line ?).
  unfold scan_and_enhance.
  unfold mbind at 1, M_bind at 1, read_fs at 1.
  destruct (FS.exists_ (fs w) (INPUT_FOLDER cfg)); cbn [negb].
  2:{ (* the input folder is made: two lines at most *)
      match goal with
      | |- Forall _ (new_events w (?k w).2) => assert (Hk : emits Good k)
      end.
      { apply emits_bind; [apply emits_update_fs|]. intros _.
        apply emits_bind; [by apply emits_print|]. intros _.
        by apply emits_print. }
      by apply emits_new_events. }
  unfold mbind at 1, M_bind at 1, update_fs at 1.
  destruct (FS.mkdir true true (fs w) (OUTPUT_FOLDER cfg)) as [fs1|e1] eqn:Hmk.
  2:{ cbn [snd]. erewrite new_events_app; [|by rewrite List.app_nil_r].
      constructor. }
  unfold mbind at 1, M_bind at 1, try_fs at 1. cbn [fs].
  destruct (FS.iterdir fs1 (INPUT_FOLDER cfg)) as [entries|e2] eqn:Hit.
  2:{ cbn [snd]. erewrite new_events_app; [|by rewrite List.app_nil_r].
      constructor. }
  unfold mbind at 1, M_bind at 1, read_fs at 1. cbn [fs].
  set (videos := filter (λ p, is_video cfg O fs1 p = true) entries).
  assert (Hvideos : ∀ p, p ∈ videos →
            parent p = INPUT_FOLDER cfg
            ∧ FS.is_file (fs w) p = true
            ∧ Str.lower (unicode_lower O) (suffix p) ∈ VIDEO_EXTENSIONS cfg).
  { intros p [Hv Hp]%list_elem_of_filter.
    destruct (iterdir_children _ _ _ _ Hit Hp) as [Hpar _].
    unfold is_video in Hv. apply andb_true_iff in Hv as [Hf Hx].
    apply bool_decide_eq_true in Hx. split; [done|]. split; [|done].
    unfold FS.is_file in *. destruct (fs1 !! p) as [[n|]|] eqn:H1; try done.
    by rewrite (mkdir_files _ _ _ _ _ _ _ Hmk H1). }
  clearbody videos.
  match goal with
  | |- Forall _ (new_events w (?k ?v).2) =>
      assert (Hk : emits Good k); [|change (trace w) with (trace v) in *;
                                     pose proof (emits_new_events Good k v Hk)
                                       as Hnew]
  end.
  { destruct videos as [|video rest].
    { do 2 (apply emits_bind; [by apply emits_print|]; intros _).
      by apply emits_print. }
    set (jobs := video :: rest) in *.
    do 7 (apply emits_bind; [by apply emits_print|]; intros _).
    apply emits_bind.
    { eapply emits_mono; [|apply (process_all_runs _ (enumerate jobs 1));
                           done].
      intros e He Hrun. destruct (He Hrun) as (j & o' & Hj & ->).
      apply SplitterFrame.elem_of_enumerate in Hj.
      destruct (Hvideos _ Hj) as (H1 & H2 & H3). by exists j.2, o'. }
    intros counts.
    do 3 (apply emits_bind; [by apply emits_print|]; intros _).
    apply emits_bind; [|intros _; by apply emits_print].
    destruct (0 <? counts.2); [by apply emits_print|apply emits_ret]. }
  exact Hnew.
Qed.

End WithConfig.

End EnhancerMore.

(** ** Start-up of the two programs *)

Module StartUp.

Import TraceFacts MonadFacts FSFacts PathFacts.

Lemma os_mkdir_is_dir (fs fs' : filesystem) (p : path) :
  FS.os_mkdir fs p = Ok fs' → FS.is_dir fs' p = true.
Proof.
  unfold FS.os_mkdir. destruct (fs !! p); [done|].
  destruct (fs !! parent p) as [[]|]; try done.
  intros [= <-]. unfold FS.is_dir. by rewrite lookup_insert_eq.
Qed.

Lemma mkdir_here_is_dir (exist_ok : bool) (fs fs' : filesystem) (p : path) :
  FS.mkdir_here exist_ok fs p = Ok fs' → FS.is_dir fs' p = true.
Proof.
  unfold FS.mkdir_here.
  destruct (FS.os_mkdir fs p) as [fs1|e] eqn:Hmk.
  - intros [= <-]. by eapply os_mkdir_is_dir.
  - destruct e; try done; destruct (exist_ok && FS.is_dir fs p) eqn:Hc;
      try done; intros [= <-]; by apply andb_true_iff in Hc as [_ ?].
Qed.

(** A directory that was made, or found in place, is a directory. *)
Lemma mkdir_is_dir (parents exist_ok : bool) (fs fs' : filesystem)
    (p : path) :
  FS.mkdir parents exist_ok fs p = Ok fs' → FS.is_dir fs' p = true.
Proof.
  unfold FS.mkdir. destruct parents; [|apply mkdir_here_is_dir].
  rewrite <- (rev_involutive p) at 2. generalize (rev p). intros rp.
  destruct rp as [|c rp]; simpl.
  - destruct (FS.os_mkdir fs []) as [fs1|e] eqn:Hmk.
    + intros [= <-]. by eapply os_mkdir_is_dir.
    + destruct e; try done; destruct (exist_ok && FS.is_dir fs []) eqn:Hc;
        try done; intros [= <-]; by apply andb_true_iff in Hc as [_ ?].
  - destruct (FS.os_mkdir fs (rev rp ++ [c])) as [fs1|e] eqn:Hmk.
    + intros [= <-]. by eapply os_mkdir_is_dir.
    + destruct e; try done;
        try (destruct (exist_ok && FS.is_dir fs (rev rp ++ [c])) eqn:Hc;
             try done; intros [= <-]; by apply andb_true_iff in Hc as [_ ?]).
      destruct (FS.mkdir_parents_rev true fs rp) as [fs1|e]; [|done].
      apply mkdir_here_is_dir.
Qed.

Section WithOracle.

Context (cfg : Enhancer.config) (O : oracle).

(** X11. Without a working transcoder neither program does anything:
    after the banner the version check is the one external command,
    the install hint is printed, the program exits with status 1, and
    the file system is as it was. *)
Theorem no_transcoder_no_work (w : world) :
  let version := [Lit "ffmpeg"; Lit "-version"] in
  let banner (title : string) :=
    [Print [Lit (Str.times "=" 50)]; Print [Lit title];
     Print [Lit (Str.times "=" 50)]] in
  let ws := World (fs w) (trace w ++ banner "🎬 影片分割程式") in
  let we := World (fs w) (trace w ++ banner "🎬 影片畫質提升程式 (CPU 版)") in
  (tool_available (spawn O ws version) = false →
   ∃ hint, Splitter.main O w
           = (Raise (SystemExit 1),
              World (fs w)
                (trace ws ++ Run version (spawn O ws version) :: hint))
           ∧ Forall (λ e, ∃ line, e = Print line) hint)
  ∧ (tool_available (spawn O we version) = false →
     ∃ hint, Enhancer.main cfg O w
             = (Raise (SystemExit 1),
                World (fs w)
                  (trace we ++ Run version (spawn O we version) :: hint))
             ∧ Forall (λ e, ∃ line, e = Print line) hint).
Proof.
  cbv zeta. split.
  - intros Hbad. unfold Splitter.main.
    rewrite !bind_print. cbn [fs trace].
    unfold mbind at 1, M_bind at 1.
    rewrite SplitterFacts.check_ffmpeg_run. cbv zeta. cbn [fs trace].
    rewrite <- !(assoc_L (++)). cbn [app]. rewrite Hbad. cbn [negb].
    eexists [_; _; _]. split.
    + rewrite !bind_print. unfold raise. cbn [fs trace].
      rewrite <- !(assoc_L (++)). reflexivity.
    + repeat (apply Forall_cons_2; [by eexists|]). apply Forall_nil_2.
  - intros Hbad. unfold Enhancer.main.
    rewrite !bind_print. cbn [fs trace].
    unfold mbind at 1, M_bind at 1.
    rewrite EnhancerFacts.check_ffmpeg_version. cbv zeta. cbn [fs trace].
    rewrite <- !(assoc_L (++)). cbn [app]. rewrite Hbad. cbn [negb].
    eexists [_; _; _; _; _]. split.
    + rewrite !bind_print. unfold raise. cbn [fs trace].
      rewrite <- !(assoc_L (++)). reflexivity.
    + repeat (apply Forall_cons_2; [by eexists|]). apply Forall_nil_2.
Qed.

(** X12. The first run of the enhancer, with no input folder yet: the
    folder is made, with the ancestors it lacks, and the run ends
    there.  No external command is started; on return the input
    folder is a directory, every entry there was is unchanged and no
    regular file is new; if the folder cannot be made, an [OSError]
    escapes and the file system is as it was. *)
Theorem first_run_makes_input_folder (w : world) :
  FS.exists_ (fs w) (Enhancer.INPUT_FOLDER cfg) = false →
  let r := Enhancer.scan_and_enhance cfg O w in
  Forall (λ e, ∃ line, e = Print line) (new_events w r.2)
  ∧ ((∃ e, r.1 = Raise e ∧ is_OSError e = true ∧ r.2 = w)
     ∨ (r.1 = Ok tt
        ∧ FS.is_dir (fs r.2) (Enhancer.INPUT_FOLDER cfg) = true
        ∧ fs w ⊆ fs r.2
        ∧ ∀ q n, fs r.2 !! q = Some (File n) → fs w !! q = Some (File n))).
Proof.
  intros Hex. cbv zeta.
  destruct (Enhancer.scan_and_enhance cfg O w) as [r w'] eqn:Hrun.
  cbn [fst snd].
  unfold Enhancer.scan_and_enhance in Hrun.
  unfold mbind at 1, M_bind at 1, read_fs at 1 in Hrun.
  rewrite Hex in Hrun. cbn [negb] in Hrun.
  unfold mbind at 1, M_bind at 1, update_fs at 1 in Hrun.
  destruct (FS.mkdir true false (fs w) (Enhancer.INPUT_FOLDER cfg))
    as [fs1|e] eqn:Hmk.
  - rewrite !bind_print in Hrun. unfold print in Hrun. cbn [fs trace] in Hrun.
    injection Hrun as <- <-. cbn [fs trace]. split.
    + erewrite new_events_app;
        [|cbn [trace]; rewrite <- !(assoc_L (++)); reflexivity].
      repeat (apply Forall_cons_2; [by eexists|]). apply Forall_nil_2.
    + right. split; [done|]. split; [by eapply mkdir_is_dir|]. split.
      * apply map_subseteq_spec. intros q x Hq.
        by eapply EnhancerMore.mkdir_grows.
      * intros q n Hq. by eapply EnhancerMore.mkdir_files.
  - injection Hrun as <- <-. split.
    + erewrite new_events_app; [|by rewrite List.app_nil_r]. constructor.
    + left. exists e. split; [done|]. split; [|done].
      by eapply (mkdir_OSError true false).
Qed.

End WithOracle.

End StartUp.

(** ** The Markdown export *)

Module ExportFacts.

Import Str StrFacts ExportCode.

Lemma replace_char_length (old new : ascii) (s : string) :
  String.length (replace_char old new s) = String.length s.
Proof. induction s as [|a s IH]; simpl; auto. Qed.

Lemma replace_char_app (old new : ascii) (s t : string) :
  replace_char old new (s +:+ t)
  = replace_char old new s +:+ replace_char old new t.
Proof.
  induction s as [|a s IH]; [done|]. rewrite app_cons. simpl.
  by rewrite IH, app_cons.
Qed.

Lemma anchor_of_cons (a : ascii) (s : string) :
  anchor_of (String a s)
  = String (if Ascii.eqb a "/" || Ascii.eqb a "\" || Ascii.eqb a "."
            then "-"%char else a)
           (anchor_of s).
Proof.
  unfold anchor_of. simpl. f_equal.
  destruct (Ascii.eqb a "/") eqn:H1; [done|].
  destruct (Ascii.eqb a "\") eqn:H2; [done|].
  by destruct (Ascii.eqb a ".") eqn:H3.
Qed.

Lemma anchor_of_app (s t : string) :
  anchor_of (s +:+ t) = anchor_of s +:+ anchor_of t.
Proof. unfold anchor_of. by rewrite !replace_char_app. Qed.

(** X13. The anchor of a file in the table of contents is its relative
    path with every slash, backslash and dot replaced by a hyphen: it
    is as long as the path, holds none of the three characters, and
    is its own anchor.  Anchors are not unique: paths that differ
    only in which of slash, backslash, dot and hyphen stands at a
    place have the same anchor. *)
Theorem anchor_shape (s : string) :
  String.length (anchor_of s) = String.length s
  ∧ rfind "/" (anchor_of s) = None
  ∧ rfind "\" (anchor_of s) = None
  ∧ rfind "." (anchor_of s) = None
  ∧ anchor_of (anchor_of s) = anchor_of s
  ∧ ∀ t sep, sep = "/" ∨ sep = "\" ∨ sep = "." →
             anchor_of (s +:+ sep +:+ t) = anchor_of (s +:+ "-" +:+ t).
Proof.
  split; [unfold anchor_of; by rewrite !replace_char_length|].
  assert (Hclean : ∀ c : ascii,
            c = "/"%char ∨ c = "\"%char ∨ c = "."%char →
            rfind c (anchor_of s) = None).
  { intros c Hc. induction s as [|a s IH]; [done|].
    rewrite anchor_of_cons. simpl. rewrite IH.
    destruct (Ascii.eqb a "/") eqn:H1; simpl;
      [by destruct Hc as [->|[->| ->]]|].
    destruct (Ascii.eqb a "\") eqn:H2; simpl;
      [by destruct Hc as [->|[->| ->]]|].
    destruct (Ascii.eqb a ".") eqn:H3; simpl;
      [by destruct Hc as [->|[->| ->]]|].
    destruct Hc as [->|[->| ->]]; by rewrite ?H1, ?H2, ?H3. }
  split; [apply Hclean; tauto|]. split; [apply Hclean; tauto|].
  split; [apply Hclean; tauto|]. clear Hclean. split.
  - induction s as [|a s IH]; [done|].
    rewrite !anchor_of_cons, IH. f_equal.
    destruct (Ascii.eqb a "/") eqn:H1; simpl; [done|].
    destruct (Ascii.eqb a "\") eqn:H2; simpl; [done|].
    destruct (Ascii.eqb a ".") eqn:H3; simpl; [done|].
    by rewrite H1, H2, H3.
  - intros t sep Hsep. rewrite !anchor_of_app. f_equal. f_equal.
    by destruct Hsep as [->|[->| ->]].
Qed.

Lemma ends_with_newline_app (s : string) :
  ends_with_newline (s +:+ newline) = true.
Proof.
  induction s as [|a s IH]; [done|]. rewrite app_cons.
  change (ends_with_newline (String a (s +:+ newline)))
    with (match s +:+ newline with
          | EmptyString => Ascii.eqb a (ascii_of_nat 10)
          | String _ _ => ends_with_newline (s +:+ newline)
          end).
  rewrite IH. destruct s; done.
Qed.

(** Once [content] is assigned the loop runs to its end. *)
Lemma file_sections_assigned (py_files : list (string * read_result))
    (text : string) (md_content : list string) :
  ∃ md, file_sections py_files (Some text) md_content = Written md.
Proof.
  revert text md_content.
  induction py_files as [|[rel_path read] rest IH]; intros text md_content.
  { by eexists. }
  simpl. destruct read as [text'|e]; apply IH.
Qed.

(** X14. The export fails exactly when the first file cannot be read:
    the handler of the read leaves the local [content] unassigned,
    and the test of its last character raises [UnboundLocalError]
    before anything is written.  An unreadable file after a readable
    one is recorded in the document and the export goes on. *)
Theorem export_fails_on_first_unreadable (source_name generated : string)
    (py_files : list (string * read_result)) :
  collect_py_files_to_md source_name generated py_files = UnboundLocalError
  ↔ ∃ rel_path message rest,
      py_files = (rel_path, Unreadable message) :: rest.
Proof.
  unfold collect_py_files_to_md. cbv zeta.
  match goal with
  | |- file_sections _ None ?m = _ ↔ _ => generalize m
  end.
  intros md. destruct py_files as [|[rel_path [text|message]] rest].
  - split; [done|]. by intros (? & ? & ? & ?).
  - simpl. split; [|by intros (? & ? & ? & ?)].
    match goal with
    | |- file_sections rest (Some text) ?m = _ → _ =>
        destruct (file_sections_assigned rest text m) as [md' ->]
    end.
    done.
  - simpl. split; [|done]. intros _. by exists rel_path, message, rest.
Qed.

(** The chunks so far leave no line open: each ends with a newline
    or is followed by the chunk that is one newline. *)
Lemma chunks_snoc (md : list string) (t : string) :
  (∀ i s, md !! i = Some s →
          ends_with_newline s = true ∨ md !! S i = Some newline) →
  (∀ s, last md = Some s → ends_with_newline s = true) →
  ends_with_newline t = true →
  (∀ i s, (md ++ [t]) !! i = Some s →
          ends_with_newline s = true ∨ (md ++ [t]) !! S i = Some newline)
  ∧ (∀ s, last (md ++ [t]) = Some s → ends_with_newline s = true).
Proof.
  intros Hmd Hlast Ht. split.
  - intros i s Hi. apply lookup_app_Some in Hi as [Hi|[Hge Hi]].
    + destruct (Hmd i s Hi) as [?|Hnext]; [by left|].
      right. by apply lookup_app_l_Some.
    + apply list_lookup_singleton_Some in Hi as [_ <-]. by left.
  - intros s. rewrite last_snoc. by intros [= <-].
Qed.

Lemma chunks_snoc_open (md : list string) (c : string) :
  (∀ i s, md !! i = Some s →
          ends_with_newline s = true ∨ md !! S i = Some newline) →
  (∀ s, last md = Some s → ends_with_newline s = true) →
  (∀ i s, ((md ++ [c]) ++ [newline]) !! i = Some s →
          ends_with_newline s = true
          ∨ ((md ++ [c]) ++ [newline]) !! S i = Some newline)
  ∧ (∀ s, last ((md ++ [c]) ++ [newline]) = Some s →
          ends_with_newline s = true).
Proof.
  intros Hmd Hlast. split.
  - intros i s Hi. rewrite <- (assoc_L (++)) in *.
    apply lookup_app_Some in Hi as [Hi|[Hge Hi]].
    + destruct (Hmd i s Hi) as [?|Hnext]; [by left|].
      right. by apply lookup_app_l_Some.
    + destruct (i - length md)%nat as [|[|k]] eqn:Hk; simpl in Hi.
      * right. rewrite lookup_app_r by lia.
        by replace (S i - length md)%nat with 1%nat by lia.
      * injection Hi as <-. by left.
      * done.
  - intros s. rewrite last_snoc. by intros [= <-].
Qed.

(** X15. The document of the export is made of whole lines: every
    chunk written ends with a newline or is followed by a chunk that
    is one newline (the text of a file that lacks its last newline),
    so each heading and each closing fence starts on a line of its
    own. *)
Theorem export_keeps_lines (source_name generated : string)
    (py_files : list (string * read_result)) (md_content : list string) :
  collect_py_files_to_md source_name generated py_files = Written md_content →
  ∀ i chunk, md_content !! i = Some chunk →
             ends_with_newline chunk = true
             ∨ md_content !! S i = Some newline.
Proof.
  unfold collect_py_files_to_md. cbv zeta.
  set (Good := λ md : list string,
         (∀ i s, md !! i = Some s →
                 ends_with_newline s = true ∨ md !! S i = Some newline)
         ∧ (∀ s, last md = Some s → ends_with_newline s = true)).
  assert (Hnil : Good []) by (by split).
  assert (Hline : ∀ md t, Good md → Good (md ++ [t +:+ newline])).
  { intros md t [H1 H2]. apply chunks_snoc; [done..|].
    apply ends_with_newline_app. }
  assert (Hloop : ∀ files content md md',
            Good md → file_sections files content md = Written md' →
            Good md').
  { induction files as [|[rel_path read] rest IH];
      intros content md md' Hmd; simpl.
    { by intros [= <-]. }
    pose proof (Hline _ "```python"
                  (Hline _ ("**路徑**: `" +:+ rel_path +:+ "`" +:+ newline)
                     (Hline _ (newline +:+ "## " +:+ rel_path +:+ " {#"
                                 +:+ anchor_of rel_path +:+ "}") Hmd)))
      as Hhead.
    rewrite <- !(assoc_L (++)) in Hhead. simpl app in Hhead.
    rewrite !app_assoc in Hhead.
    assert (Hclose : ∀ m, Good m →
              Good (m ++ ["```" +:+ newline; newline +:+ "---" +:+ newline])).
    { intros m Hm.
      pose proof (Hline _ (newline +:+ "---") (Hline _ "```" Hm)) as H.
      rewrite <- !(assoc_L (++)) in H. simpl app in H.
      by rewrite !app_assoc in H. }
    destruct read as [text|e].
    - destruct (ends_with_newline text) eqn:Hnl.
      + apply IH. apply Hclose.
        destruct Hhead as [H1 H2]. by apply chunks_snoc.
      + apply IH. apply Hclose.
        destruct Hhead as [H1 H2]. by apply chunks_snoc_open.
    - destruct content as [text|]; [|done].
      pose proof (Hline _ ("# 讀取失敗: " +:+ e) Hhead) as Hmsg.
      rewrite !app_assoc in Hmsg.
      destruct (ends_with_newline text) eqn:Hnl.
      + apply IH. by apply Hclose.
      + apply IH. apply Hclose.
        by apply (Hline _ "" Hmsg). }
  intros Hrun. eapply Hloop in Hrun; [by destruct Hrun|].
  assert (Htoc : ∀ files i md, Good md → Good (md ++ toc files i)).
  { induction files as [|[rel_path read] rest IH]; intros i md Hmd; simpl.
    - by rewrite List.app_nil_r.
    - rewrite (cons_middle _ md), (assoc_L (++)).
      apply IH.
      pose proof (Hline md (of_int i +:+ ". [" +:+ rel_path +:+ "](#"
                              +:+ anchor_of rel_path +:+ ")") Hmd) as H.
      by rewrite !app_assoc in H. }
  apply (Hline _ (newline +:+ "---")), Htoc.
  apply (Hline [_; _; _; _] "## 目錄").
  pose proof (Hline _ "---"
                (Hline _ ("共 " +:+ of_int (Z.of_nat (length py_files))
                            +:+ " 個檔案")
                   (Hline _ ("產生時間: " +:+ generated)
                      (Hline _ ("# " +:+ source_name +:+ " 程式碼整合")
                         Hnil)))) as H.
  simpl app in H. by rewrite !app_assoc in H.
Qed.

End ExportFacts.

(** ** The data mover *)

Module MoveDataFacts.

Import Str StrFacts MoveData.

(** X16. The label of a view count never overstates it: it is the
    count in whole millions with [M] from a million on, in whole
    thousands (1 to 999) with [K] from a thousand on, and the count
    itself below that, always rounded down. *)
Theorem view_count_label_floor (count : Z) :
  ∃ q unit sfx,
    format_view_count_simple count = of_int q +:+ sfx
    ∧ ((unit = 1000000 ∧ sfx = "M" ∧ 1 ≤ q)
       ∨ (unit = 1000 ∧ sfx = "K" ∧ 1 ≤ q < 1000)
       ∨ (unit = 1 ∧ sfx = "" ∧ count < 1000))
    ∧ q * unit ≤ count < (q + 1) * unit.
Proof.
  unfold format_view_count_simple.
  destruct (1000000 <=? count) eqn:Hm.
  { apply Z.leb_le in Hm. exists (count / 1000000), 1000000, "M".
    pose proof (Z.div_mod count 1000000 ltac:(lia)) as Hdm.
    pose proof (Z.mod_pos_bound count 1000000 ltac:(lia)) as Hb.
    split; [done|]. split; [left; repeat split; lia|lia]. }
  apply Z.leb_gt in Hm.
  destruct (1000 <=? count) eqn:Hk.
  { apply Z.leb_le in Hk. exists (count / 1000), 1000, "K".
    pose proof (Z.div_mod count 1000 ltac:(lia)) as Hdm.
    pose proof (Z.mod_pos_bound count 1000 ltac:(lia)) as Hb.
    split; [done|]. split; [right; left; repeat split; lia|lia]. }
  apply Z.leb_gt in Hk. exists count, 1, "".
  split; [by rewrite app_nil_r|]. split; [right; right; repeat split; lia|lia].
Qed.

Lemma py_min_spec (first : Z) (rest : list Z) :
  py_min first rest ∈ first :: rest
  ∧ ∀ v, v ∈ first :: rest → py_min first rest ≤ v.
Proof.
  unfold py_min. revert first.
  induction rest as [|x rest IH]; intros first; simpl.
  { split; [by left|]. intros v ->%list_elem_of_singleton. lia. }
  destruct (IH (Z.min first x)) as [Hin Hle]. split.
  - apply elem_of_cons in Hin as [Heq|Hin]; [|by do 2 right].
    rewrite Heq. destruct (Z.min_spec first x) as [[_ ->]|[_ ->]];
      [by left|right; by left].
  - intros v Hv.
    assert (Hmin : fold_left Z.min rest (Z.min first x) ≤ Z.min first x)
      by (apply Hle; by left).
    apply elem_of_cons in Hv as [->|[->|Hv]%elem_of_cons]; [lia|lia|].
    apply Hle. by right.
Qed.

Lemma py_max_spec (first : Z) (rest : list Z) :
  py_max first rest ∈ first :: rest
  ∧ ∀ v, v ∈ first :: rest → v ≤ py_max first rest.
Proof.
  unfold py_max. revert first.
  induction rest as [|x rest IH]; intros first; simpl.
  { split; [by left|]. intros v ->%list_elem_of_singleton. lia. }
  destruct (IH (Z.max first x)) as [Hin Hle]. split.
  - apply elem_of_cons in Hin as [Heq|Hin]; [|by do 2 right].
    rewrite Heq. destruct (Z.max_spec first x) as [[_ ->]|[_ ->]];
      [right; by left|by left].
  - intros v Hv.
    assert (Hmax : Z.max first x ≤ fold_left Z.max rest (Z.max first x))
      by (apply Hle; by left).
    apply elem_of_cons in Hv as [->|[->|Hv]%elem_of_cons]; [lia|lia|].
    apply Hle. by right.
Qed.

(** X17. The view-count range of the analysis file: items without a
    [viewCount] are passed over; with none left the function raises
    [ValueError]; otherwise it returns two of the counts, the first
    no larger than any count and the second no smaller, so the first
    is at most the second.  An error of opening or parsing the file
    passes through. *)
Theorem view_count_range (load : path → result (list item))
    (json_path : path) :
  match load json_path with
  | Raise e => get_view_count_range load json_path = Raise e
  | Ok data =>
      let view_counts := omap (λ it : item, it !! "viewCount") data in
      (view_counts = [] →
       get_view_count_range load json_path = Raise ValueError)
      ∧ (view_counts ≠ [] →
         ∃ lo hi, get_view_count_range load json_path = Ok (lo, hi)
                  ∧ lo ∈ view_counts ∧ hi ∈ view_counts ∧ lo ≤ hi
                  ∧ ∀ v, v ∈ view_counts → lo ≤ v ≤ hi)
  end.
Proof.
  unfold get_view_count_range.
  destruct (load json_path) as [data|e]; [|done]. cbv zeta.
  destruct (omap (λ it : item, it !! "viewCount") data) as [|first rest].
  { by split. }
  split; [done|]. intros _.
  destruct (py_min_spec first rest) as [Hmin Hle].
  destruct (py_max_spec first rest) as [Hmax Hge].
  exists (py_min first rest), (py_max first rest).
  split; [done|]. split; [done|]. split; [done|]. split.
  - etrans; [apply Hle; by left|apply Hge; by left].
  - intros v Hv. split; [by apply Hle|by apply Hge].
Qed.

(** X18. On a plain file name the video test of the data mover is the
    suffix test of the splitter and the enhancer: for a name without
    separators that has some character other than a dot before its
    last dot, and a list of extensions that holds neither the empty
    text nor a lone dot, [is_video_file] holds exactly when the
    lower-cased suffix of the name is in the list, whatever the
    lower-casing of text outside ASCII is. *)
Theorem is_video_file_agrees (unicode_lower : string → string) (sep : ascii)
    (altsep : option ascii) (VIDEO_EXTENSIONS : gset string)
    (filename : string) :
  rfind sep filename = None →
  (∀ a, altsep = Some a → rfind a filename = None) →
  (∀ i, rfind "." filename = Some i → (0 < i)%nat →
        all_dots (take i filename) = false) →
  "" ∉ VIDEO_EXTENSIONS → "." ∉ VIDEO_EXTENSIONS →
  is_video_file unicode_lower sep altsep VIDEO_EXTENSIONS filename
  = bool_decide (lower unicode_lower (PurePath.suffix_of_name filename)
                 ∈ VIDEO_EXTENSIONS).
Proof.
  intros Hsep Halt Hlead Hempty Hdotless.
  unfold is_video_file, splitext_ext, PurePath.suffix_of_name, rfind_index.
  rewrite Hsep.
  assert (Hsi : match altsep with
                | Some a => Z.max (-1) match rfind a filename with
                                       | Some i => Z.of_nat i
                                       | None => -1
                                       end
                | None => -1
                end = -1).
  { destruct altsep as [a|]; [|done]. by rewrite (Halt a eq_refl). }
  cbv zeta. rewrite Hsi.
  destruct (rfind "." filename) as [i|] eqn:Hdot; [|done].
  pose proof (rfind_lt _ _ _ Hdot) as Hlt.
  replace (-1 <? Z.of_nat i) with true by (symmetry; apply Z.ltb_lt; lia).
  replace (Z.to_nat (Z.of_nat i - (-1 + 1))) with i by lia.
  replace (Z.to_nat (-1 + 1)) with 0%nat by lia.
  rewrite Nat2Z.id. change (drop 0 filename) with filename.
  destruct i as [|i].
  { by destruct filename. }
  rewrite (Hlead (S i) eq_refl) by lia.
  replace (0 <? S i)%nat with true by done. cbn [andb].
  destruct (S i <? String.length filename - 1)%nat eqn:Hlast; [done|].
  apply Nat.ltb_ge in Hlast.
  assert (Hd : drop (S i) filename = ".").
  { pose proof (rfind_drop _ _ _ Hdot) as Hfirst.
    pose proof (length_drop (S i) filename) as Hlen.
    destruct (drop (S i) filename) as [|a [|b t]]; simpl in Hlen;
      [lia| |lia].
    simpl in Hfirst. destruct (Ascii.eqb a ".") eqn:Ha; [|done].
    by apply Ascii.eqb_eq in Ha as ->. }
  rewrite Hd. change (lower unicode_lower ".") with ".".
  change (lower unicode_lower "") with "".
  by rewrite !bool_decide_eq_false_2.
Qed.

End MoveDataFacts.

(** ** More sample runs *)

Module MoreRuns.

Import Sample Fixtures.

Ltac evaluated := apply (bool_decide_unpack _); vm_compute; exact I.

Lemma movie_is_large (O : oracle) :
  is_large_video O (fs start) videos 200 movie.
Proof.
  split; [vm_compute; reflexivity|]. split; [evaluated|].
  exists (500 * MiB). split; [vm_compute; reflexivity|].
  split; [evaluated|]. by vm_compute.
Qed.

(** The large videos of the sample folder: the movie alone. *)
Lemma only_movie_is_large (O : oracle) (c : path) :
  is_large_video O (fs start) videos 200 c → c = movie.
Proof.
  intros (_ & _ & n & Hn & _ & Hsz).
  change (fs start) with tree in Hn. unfold tree in Hn.
  apply elem_of_list_to_map_2 in Hn.
  repeat (apply elem_of_cons in Hn as [Hn|Hn]);
    try (by apply elem_of_nil in Hn); try discriminate Hn.
  - by injection Hn as -> _.
  - injection Hn as -> ->. exfalso. revert Hsz.
    unfold Qlt, Qmult, inject_Z. cbn [Qnum Qden]. lia.
Qed.

(** A run that splits the movie leaves the notes beside it alone. *)
Lemma notes_left_alone :
  fs (Splitter.scan_and_split tools_ok videos 200 start).2 !! notes
  = Some (File 12).
Proof.
  rewrite (SplitterFrame.splitter_run_frame tools_ok videos 200 start notes).
  - vm_compute. reflexivity.
  - intros c ->%only_movie_is_large. unfold touched_by_job. evaluated.
Defined.

(** The first part of the movie. *)
Lemma movie_part_shape :
  stem (Splitter.part_path videos movie "_part1") = "movie_part1"
  ∧ suffix (Splitter.part_path videos movie "_part1") = ".mp4".
Proof.
  assert (Hext : Str.lower (unicode_lower tools_ok) (suffix movie)
                 ∈ Splitter.VIDEO_EXTENSIONS)
    by evaluated.
  destruct (SplitterMore.part_paths_shape tools_ok videos movie "_part1" Hext
              (or_introl eq_refl)) as (_ & H1 & H2 & _).
  split; [exact H1|exact H2].
Defined.

(** Without the inspector the run ends at the movie. *)
Lemma run_without_inspector :
  (Splitter.scan_and_split no_inspector videos 200 start).1
  = Raise FileNotFoundError
  ∧ fs (Splitter.scan_and_split no_inspector videos 200 start).2 = fs start.
Proof.
  destruct (SplitterMore.missing_inspector_aborts_run no_inspector videos 200
              start movie (λ _ _, eq_refl) (movie_is_large _))
    as (H1 & _ & H2 & _).
  split; [exact H1|exact H2].
Defined.

(** The target folder of the program is not on the sample machine. *)
Lemma run_on_absent_folder :
  ∃ l, Splitter.scan_and_split tools_ok Splitter.TARGET_FOLDER 200 start
       = (Ok tt, World (fs start) (trace start ++ l))
       ∧ (1 ≤ length l ≤ 4)%nat.
Proof.
  destruct (SplitterMore.nothing_to_split tools_ok Splitter.TARGET_FOLDER 200
              start) as (l & Hrun & _ & Hlen).
  - intros p [Hd _]. vm_compute in Hd. discriminate Hd.
  - by exists l.
Defined.

(** The split of the movie. *)
Lemma movie_split :
  omap transcoder_exit
    (new_events start (Splitter.split_video tools_ok movie None start).2)
  = [0; 0]
  ∧ fs (Splitter.split_video tools_ok movie None start).2 !! movie = None
  ∧ fs (Splitter.split_video tools_ok movie None start).2 !! archived_movie
    = Some (File (500 * MiB)).
Proof.
  set (run := Splitter.split_video tools_ok movie None start).
  assert (Hfile : fs start !! movie = Some (File (500 * MiB)))
    by (vm_compute; reflexivity).
  assert (Hrun : run = (Ok true, run.2)) by (vm_compute; reflexivity).
  destruct (SplitterMore.split_success_outcome tools_ok movie start run.2
              (500 * MiB) Hfile Hrun) as (H1 & _ & _ & H2 & _ & H3).
  split; [exact H1|]. split; [exact H2|].
  apply H3. vm_compute. reflexivity.
Defined.

(** A failed enhancement leaves the input video as it was. *)
Lemma input_video_kept :
  fs (Enhancer.main profile transcoder_fails studio).2 !! ["input"; "a.mp4"]
  = Some (File (10 * MiB)).
Proof.
  destruct (EnhancerMore.enhancer_writes_output_only profile transcoder_fails
              studio ["input"; "a.mp4"] (File (10 * MiB)))
    as [H|(Hout & _)].
  - vm_compute. reflexivity.
  - exact H.
  - vm_compute in Hout. discriminate Hout.
Defined.

(** The one transcoder invocation of the sample studio. *)
Lemma studio_job :
  ∃ p, parent p = ["input"]
       ∧ FS.is_file (fs studio) p = true
       ∧ Enhancer.enhance_cmd profile ["input"; "a.mp4"] enhanced
         = Enhancer.enhance_cmd profile p
             (Enhancer.get_output_filename profile p).
Proof.
  set (o := Completed (Completed_ 1 "" "Conversion failed!") (Some MiB)).
  assert (Hin : Run (Enhancer.enhance_cmd profile ["input"; "a.mp4"] enhanced)
                    o
                ∈ new_events studio
                    (Enhancer.scan_and_enhance profile transcoder_fails
                       studio).2).
  { apply (list_elem_of_lookup_2 _ 13). vm_compute. reflexivity. }
  destruct (EnhancerMore.enhancer_jobs profile transcoder_fails studio _ _
              Hin eq_refl) as (p & H1 & H2 & _ & H3).
  exists p. split; [exact H1|]. split; [exact H2|exact H3].
Defined.

(** The first run on a bare machine makes the input folder. *)
Lemma first_run_on_bare_machine :
  (Enhancer.scan_and_enhance profile tools_ok bare).1 = Ok tt
  ∧ FS.is_dir (fs (Enhancer.scan_and_enhance profile tools_ok bare).2)
      ["input"] = true.
Proof.
  destruct (StartUp.first_run_makes_input_folder profile tools_ok bare)
    as (_ & [(e & He & _)|(H1 & H2 & _)]).
  - vm_compute. reflexivity.
  - vm_compute in He. discriminate He.
  - split; [exact H1|exact H2].
Defined.

(** The export of one file without a last newline: the text is
    followed by a newline of its own. *)
Lemma one_file_export :
  ∃ md, ExportCode.collect_py_files_to_md "src" "2025-01-01 00:00:00" one_file
        = ExportCode.Written md
        ∧ md !! 10%nat = Some "x = 1"
        ∧ md !! 11%nat = Some Str.newline.
Proof.
  eexists. split; [vm_compute; reflexivity|]. split; [reflexivity|].
  destruct (ExportFacts.export_keeps_lines "src" "2025-01-01 00:00:00"
              one_file _ eq_refl 10%nat "x = 1" eq_refl) as [H|H].
  - vm_compute in H. discriminate H.
  - exact H.
Defined.

(** An ordinary file name. *)
Lemma mp4_is_video :
  MoveData.is_video_file ascii_names "/" None {[ ".mp4"; ".mkv" ]} "Clip.MP4"
  = true.
Proof.
  rewrite (MoveDataFacts.is_video_file_agrees ascii_names "/" None
             {[ ".mp4"; ".mkv" ]} "Clip.MP4").
  - evaluated.
  - reflexivity.
  - intros a Ha. discriminate Ha.
  - intros i [= <-] _. reflexivity.
  - evaluated.
  - evaluated.
Defined.

End MoreRuns.

(** ** The move of the data mover *)

Module MoverFacts.

Import Str StrFacts MoveData TraceFacts MonadFacts FSFacts PathFacts
  EvolveFacts.

#[export] Instance kept_at_preorder (q : path) (x : node) :
  PreOrder (kept_at q x).
Proof.
  split.
  - intros fs Hq. exact Hq.
  - intros fs1 fs2 fs3 H12 H23 Hq. by apply H23, H12.
Qed.

Lemma listdir_OSError (fs : filesystem) (p : path) (e : exn) :
  listdir fs p = Raise e → is_OSError e = true.
Proof.
  unfold listdir. destruct (FS.iterdir fs p) as [l|e'] eqn:Hit; [done|].
  intros [= <-]. by eapply iterdir_OSError.
Qed.

Lemma rmdir_OSError (fs : filesystem) (p : path) (e : exn) :
  rmdir fs p = Raise e → is_OSError e = true.
Proof.
  unfold rmdir. destruct (fs !! p) as [[]|]; try (by intros [= <-]).
  destruct (filter _ _); [done|by intros [= <-]].
Qed.

Lemma rmdir_ok (fs fs' : filesystem) (p : path) :
  rmdir fs p = Ok fs' → fs !! p = Some Dir ∧ fs' = delete p fs.
Proof.
  unfold rmdir. destruct (fs !! p) as [[]|]; try done.
  destruct (filter _ _); [|done]. by intros [= <-].
Qed.

Lemma raises_only_for_fold {A S : Type} (P : exn → Prop) (l : list A)
    (body : A → S → M S) (s : S) :
  (∀ x s, raises_only P (body x s)) → raises_only P (for_fold l body s).
Proof.
  intros Hbody. revert s. induction l as [|x l IH]; intros s; simpl;
    [apply raises_only_ret|].
  apply raises_only_bind; [apply Hbody|]. intros s'. apply IH.
Qed.

Lemma evolves_for_fold {A S : Type} (R : filesystem → filesystem → Prop)
    `{!PreOrder R} (l : list A) (body : A → S → M S) (s : S) :
  (∀ x s, evolves R (body x s)) → evolves R (for_fold l body s).
Proof.
  intros Hbody. revert s. induction l as [|x l IH]; intros s; simpl;
    [by apply evolves_ret|].
  apply evolves_bind; [done|apply Hbody|]. intros s'. apply IH.
Qed.

Lemma bind_read_fs {A B : Type} (f : filesystem → A) (k : A → M B)
    (w : world) :
  (read_fs f ≫= k) w = k (f (fs w)) w.
Proof. reflexivity. Qed.

#[export] Instance gone_at_preorder (q : path) : PreOrder (gone_at q).
Proof.
  split.
  - intros fs Hq. exact Hq.
  - intros fs1 fs2 fs3 H12 H23 Hq. by apply H23, H12.
Qed.

Lemma bind_ok_inv {A B : Type} (m : M A) (f : A → M B) (w w' : world)
    (b : B) :
  (m ≫= f) w = (Ok b, w') → ∃ a w1, m w = (Ok a, w1) ∧ f a w1 = (Ok b, w').
Proof.
  unfold mbind, M_bind. destruct (m w) as [[a|e] w1]; [|done].
  intros H. by exists a, w1.
Qed.

Lemma update_fs_ok_inv (f : filesystem → result filesystem) (w w' : world)
    (u : unit) :
  update_fs f w = (Ok u, w') → ∃ fs', f (fs w) = Ok fs' ∧ w' = World fs' (trace w).
Proof.
  unfold update_fs. destruct (f (fs w)) as [fs'|e]; [|done].
  intros [= _ <-]. by exists fs'.
Qed.

(** The names [os.listdir] gives include every entry of the folder. *)
Lemma listdir_lists (fs : filesystem) (d : path) (items : list string)
    (x : string) :
  listdir fs d = Ok items → is_Some (fs !! joinpath d x) → x ∈ items.
Proof.
  unfold listdir, FS.iterdir. destruct (fs !! d) as [[]|]; try done.
  intros [= <-] [y Hy]. apply list_elem_of_fmap. exists (joinpath d x).
  split; [by rewrite name_joinpath|]. apply list_elem_of_filter.
  split; [split; [by apply below_joinpath|apply parent_joinpath]|].
  apply list_elem_of_fmap. exists (joinpath d x, y).
  split; [done|]. by apply elem_of_map_to_list.
Qed.

(** The only new entry of [os.mkdir] is the directory itself. *)
Lemma os_mkdir_new (fs fs' : filesystem) (p q : path) :
  FS.os_mkdir fs p = Ok fs' → fs !! q = None → is_Some (fs' !! q) → q = p.
Proof.
  unfold FS.os_mkdir. destruct (fs !! p); [done|].
  destruct (fs !! parent p) as [[]|]; try done.
  intros [= <-] Hq [x Hx]. destruct (decide (q = p)) as [|Hne]; [done|].
  rewrite lookup_insert_ne in Hx by done. congruence.
Qed.

Lemma mkdir_here_new (exist_ok : bool) (fs fs' : filesystem) (p q : path) :
  FS.mkdir_here exist_ok fs p = Ok fs' → fs !! q = None →
  is_Some (fs' !! q) → q = p.
Proof.
  unfold FS.mkdir_here.
  destruct (FS.os_mkdir fs p) as [fs1|e] eqn:Hmk.
  - intros [= <-]. by eapply os_mkdir_new.
  - destruct e; try done; destruct (_ && _); try done;
      intros [= <-] Hq [x Hx]; congruence.
Qed.

(** The new entries of [makedirs] are the directory and ancestors of it. *)
Lemma mkdir_parents_rev_new (exist_ok : bool) (fs fs' : filesystem)
    (rp : list string) (q : path) :
  FS.mkdir_parents_rev exist_ok fs rp = Ok fs' → fs !! q = None →
  is_Some (fs' !! q) → q `prefix_of` rev rp.
Proof.
  revert exist_ok fs fs'.
  induction rp as [|c rp IH]; intros exist_ok fs fs'; simpl.
  - destruct (FS.os_mkdir fs []) as [fs1|e] eqn:Hmk.
    + intros [= <-] Hq Hs. by rewrite (os_mkdir_new _ _ _ _ Hmk Hq Hs).
    + destruct e; try done; destruct (_ && _); try done;
        intros [= <-] Hq [x Hx]; congruence.
  - destruct (FS.os_mkdir fs (rev rp ++ [c])) as [fs1|e] eqn:Hmk.
    + intros [= <-] Hq Hs. by rewrite (os_mkdir_new _ _ _ _ Hmk Hq Hs).
    + destruct e; try done;
        try (destruct (_ && _); try done;
             intros [= <-] Hq [x Hx]; congruence).
      destruct (FS.mkdir_parents_rev true fs rp) as [fs1|e] eqn:Hrec; [|done].
      intros Hmk' Hq Hs. destruct (fs1 !! q) as [y|] eqn:Hy.
      * apply prefix_app_r. eapply IH; [exact Hrec|exact Hq|by eexists].
      * by rewrite (mkdir_here_new _ _ _ _ _ Hmk' Hy Hs).
Qed.

Lemma mkdir_new (parents exist_ok : bool) (fs fs' : filesystem)
    (p q : path) :
  FS.mkdir parents exist_ok fs p = Ok fs' → fs !! q = None →
  is_Some (fs' !! q) → q `prefix_of` p.
Proof.
  unfold FS.mkdir. destruct parents.
  - intros Hmk Hq Hs. rewrite <- (rev_involutive p).
    by eapply mkdir_parents_rev_new.
  - intros Hmk Hq Hs. by rewrite (mkdir_here_new _ _ _ _ _ Hmk Hq Hs).
Qed.

(** A move puts entries at its destination only. *)
Lemma shutil_move_gone (fs fs' : filesystem) (src dst q : path) :
  FS.shutil_move fs src dst = Ok fs' → fs !! q = None →
  ¬ dst `prefix_of` q → fs' !! q = None.
Proof.
  intros Hmv Hq Hdst. unfold FS.shutil_move in Hmv.
  set (real_dst := if FS.is_dir fs dst then joinpath dst (name src) else dst)
    in *.
  assert (Hreal : ¬ real_dst `prefix_of` q).
  { unfold real_dst. destruct (FS.is_dir fs dst); [|done].
    intros Hpre. apply Hdst. etrans; [|exact Hpre]. by apply prefix_app_r. }
  destruct (_ && _); [done|].
  destruct (fs !! src) as [[n|]|]; [| |done].
  - destruct (negb _); [done|]. injection Hmv as <-.
    rewrite lookup_insert_ne by (by intros ->).
    apply lookup_delete_None. by right.
  - destruct (negb _); [done|]. destruct (FS.exists_ _ _); [done|].
    destruct (bool_decide _); [done|]. injection Hmv as <-.
    apply lookup_union_None. split.
    + destruct (FS.reroot src real_dst fs !! q) as [x|] eqn:Hre; [|done].
      by apply SplitterFrame.reroot_lookup in Hre.
    + apply map_lookup_filter_None. by left.
Qed.

(** A move leaves nothing at its source. *)
Lemma shutil_move_source_gone (fs fs' : filesystem) (src dst : path) :
  FS.shutil_move fs src dst = Ok fs' → ¬ dst `prefix_of` src →
  fs' !! src = None.
Proof.
  intros Hmv Hdst. unfold FS.shutil_move in Hmv.
  set (real_dst := if FS.is_dir fs dst then joinpath dst (name src) else dst)
    in *.
  assert (Hreal : ¬ real_dst `prefix_of` src).
  { unfold real_dst. destruct (FS.is_dir fs dst); [|done].
    intros Hpre. apply Hdst. etrans; [|exact Hpre]. by apply prefix_app_r. }
  destruct (_ && _); [done|].
  destruct (fs !! src) as [[n|]|]; [| |done].
  - destruct (negb _); [done|]. injection Hmv as <-.
    rewrite lookup_insert_ne by (by intros ->).
    apply lookup_delete_eq.
  - destruct (negb _); [done|]. destruct (FS.exists_ _ _); [done|].
    destruct (bool_decide _); [done|]. injection Hmv as <-.
    apply lookup_union_None. split.
    + destruct (FS.reroot src real_dst fs !! src) as [x|] eqn:Hre; [|done].
      by apply SplitterFrame.reroot_lookup in Hre.
    + apply map_lookup_filter_None. right. intros x _ Hn. by apply Hn.
Qed.

Section WithConfig.

Context (cfg : config) (E : environment).

(** X19. The three preconditions of the move: when the source folder,
    the target root or the analysis file in the source folder does
    not exist, [move_data] raises [FileNotFoundError] at once, with
    nothing printed and nothing changed, and the program reports the
    error and ends with status 1. *)
Theorem move_data_preconditions (w : world) :
  let source_folder := SOURCE_FOLDER cfg in
  let target_root := TARGET_ROOT_FOLDER cfg in
  let json_path := joinpath source_folder (ANALYSIS_JSON_FILENAME cfg) in
  FS.exists_ (fs w) source_folder = false
  ∨ FS.exists_ (fs w) target_root = false
  ∨ FS.exists_ (fs w) json_path = false →
  (∀ v, fs v = fs w →
        move_data cfg E source_folder target_root v
        = (Raise FileNotFoundError, v))
  ∧ (main cfg E w).1 = Ok 1
  ∧ fs (main cfg E w).2 = fs w
  ∧ last (trace (main cfg E w).2)
    = Some (Print [Lit (newline +:+ "❌ 錯誤: "); ExnP FileNotFoundError]).
Proof.
  intros source_folder target_root json_path Hmissing.
  assert (Hmove : ∀ v, fs v = fs w →
            move_data cfg E source_folder target_root v
            = (Raise FileNotFoundError, v)).
  { intros v Hv. unfold move_data. cbv zeta. fold json_path.
    rewrite bind_read_fs, Hv.
    destruct (FS.exists_ (fs w) source_folder); [|done]. cbn [negb].
    rewrite bind_read_fs, Hv.
    destruct (FS.exists_ (fs w) target_root); [|done]. cbn [negb].
    rewrite bind_read_fs, Hv.
    destruct (FS.exists_ (fs w) json_path); [|done].
    by destruct Hmissing as [?|[?|?]]. }
  split; [done|].
  unfold main. rewrite !bind_print. cbn [fs trace].
  fold source_folder target_root.
  erewrite try_except_bind_raise; [|by apply Hmove].
  cbv beta iota. rewrite bind_print. unfold mret, M_ret.
  cbn [fst snd fs trace].
  split; [done|]. split; [done|]. by rewrite last_snoc.
Qed.

(** *** What the move leaves in place *)

(** Moving a regular file changes its own entry and the destination. *)
Lemma shutil_move_file_frame (fs fs' : filesystem) (src dst q : path)
    (n : Z) :
  fs !! src = Some (File n) → FS.shutil_move fs src dst = Ok fs' →
  q ≠ src → ¬ dst `prefix_of` q → fs' !! q = fs !! q.
Proof.
  intros Hsrc Hmv Hq Hdst.
  destruct (shutil_move_file _ _ _ _ _ Hsrc Hmv) as (real & Hreal & _ & ->).
  rewrite lookup_insert_ne, lookup_delete_ne; [done|done|].
  intros <-. apply Hdst. destruct Hreal as [-> | ->]; [done|].
  by apply prefix_app_r.
Qed.

Lemma guarded_move_kept (q : path) (x : node) (src dst : path) (w : world) :
  FS.is_file (fs w) src = true → (∀ n, x = File n → q ≠ src) →
  ¬ dst `prefix_of` q →
  kept_at q x (fs w) (fs (update_fs (λ fs, FS.shutil_move fs src dst) w).2).
Proof.
  intros Hfile Hne Hdst Hq. unfold update_fs.
  destruct (FS.shutil_move (fs w) src dst) as [fs'|e] eqn:Hmv; [|done].
  cbn [snd fs]. unfold FS.is_file in Hfile.
  destruct (fs w !! src) as [[n|]|] eqn:Hsrc; try done.
  rewrite (shutil_move_file_frame _ _ _ _ q n Hsrc Hmv); [done| |done].
  intros ->. rewrite Hsrc in Hq. injection Hq as <-. by eapply Hne.
Qed.

Lemma move_one_file_keeps (q : path) (x : node)
    (video_folder data_subfolder item_path : path) (file : string)
    (st : stats) :
  (∀ n, x = File n → q ≠ joinpath item_path file) →
  ¬ video_folder `prefix_of` q → ¬ data_subfolder `prefix_of` q →
  evolves (kept_at q x)
          (move_one_file cfg E video_folder data_subfolder item_path file st).
Proof.
  intros Hne Hvf Hds w. unfold move_one_file. cbv zeta.
  rewrite bind_read_fs.
  destruct (FS.is_file (fs w) (joinpath item_path file)) eqn:Hfile;
    [|intros Hq; exact Hq].
  destruct (is_video_file _ _ _ _ file).
  - pose proof (guarded_move_kept q x _ (joinpath video_folder file) w
                  Hfile Hne) as Hk.
    unfold mbind at 1, M_bind at 1.
    destruct (update_fs _ w) as [[[]|e] w1]; cbn [snd] in *.
    + rewrite bind_print. apply Hk.
      intros Hpre. apply Hvf. etrans; [|exact Hpre]. by apply prefix_app_r.
    + apply Hk.
      intros Hpre. apply Hvf. etrans; [|exact Hpre]. by apply prefix_app_r.
  - pose proof (guarded_move_kept q x _ (joinpath data_subfolder file) w
                  Hfile Hne) as Hk.
    unfold mbind at 1, M_bind at 1.
    destruct (update_fs _ w) as [[[]|e] w1]; cbn [snd] in *;
      apply Hk; intros Hpre; apply Hds; (etrans; [|exact Hpre]);
      by apply prefix_app_r.
Qed.

Lemma move_item_keeps (q : path) (x : node)
    (source_folder video_folder data_folder : path) (item : string)
    (st : stats) :
  ¬ joinpath source_folder (ANALYSIS_JSON_FILENAME cfg) `prefix_of` q →
  (x = Dir → ∀ i, q ≠ joinpath source_folder i) →
  (∀ n, x = File n → ∀ i f, q ≠ joinpath (joinpath source_folder i) f) →
  ¬ video_folder `prefix_of` q → ¬ data_folder `prefix_of` q →
  evolves (kept_at q x)
          (move_item cfg E source_folder video_folder data_folder item st).
Proof.
  intros Hjson Hdir Hfile Hvf Hdf. unfold move_item. cbv zeta.
  destruct (bool_decide (item = ANALYSIS_JSON_FILENAME cfg)) eqn:Hitem.
  { apply bool_decide_eq_true in Hitem. subst item.
    apply evolves_bind; [apply _| |].
    - apply evolves_update_fs; [apply _|]. intros fs fs' Hmv Hq.
      rewrite (SplitterFrame.shutil_move_frame _ _ _ _ q Hmv); [done|done|].
      intros Hpre. apply Hdf. etrans; [|exact Hpre]. by apply prefix_app_r.
    - intros _. apply evolves_bind; [apply _|apply evolves_print; apply _|].
      intros _. apply evolves_ret; apply _. }
  apply evolves_bind; [apply _|apply evolves_read_fs; apply _|].
  intros []; [|apply evolves_ret; apply _].
  apply evolves_bind; [apply _| |].
  { apply evolves_update_fs; [apply _|]. intros fs fs' Hmk Hq.
    by eapply EnhancerMore.mkdir_grows. }
  intros _. apply evolves_bind; [apply _|apply evolves_try_fs; apply _|].
  intros files. apply evolves_bind; [apply _| |].
  { apply evolves_for_fold; [apply _|]. intros file st'.
    apply move_one_file_keeps; [by intros n Hn; apply (Hfile n Hn)|done|].
    intros Hpre. apply Hdf. etrans; [|exact Hpre]. by apply prefix_app_r. }
  intros st'. apply evolves_bind; [apply _|apply evolves_try_fs; apply _|].
  intros remaining.
  apply evolves_bind; [apply _| |intros _; apply evolves_ret; apply _].
  destruct remaining; [|apply evolves_ret; apply _].
  apply evolves_update_fs; [apply _|]. intros fs fs' Hrm Hq.
  apply rmdir_ok in Hrm as [Hd ->].
  rewrite lookup_delete_ne; [done|]. intros <-.
  rewrite Hd in Hq. injection Hq as <-. by eapply Hdir.
Qed.

(** X20. What a move leaves in place.  An entry outside the target
    folder is after [move_data] what it was before, however the move
    ends, unless it is the analysis file (or lies below it), a folder
    directly in the source folder, or a regular file directly in such
    a folder.  So regular files directly in the source folder, other
    than the analysis file, are never moved, nor is anything nested
    deeper than one folder. *)
Theorem move_data_leaves (source_folder target_root : path) (w : world)
    (q : path) (x : node) :
  fs w !! q = Some x →
  (∀ lo hi, ¬ joinpath target_root
                (create_target_folder_name (today E) lo hi) `prefix_of` q) →
  ¬ joinpath source_folder (ANALYSIS_JSON_FILENAME cfg) `prefix_of` q →
  (x = Dir → ∀ item, q ≠ joinpath source_folder item) →
  (∀ n, x = File n →
        ∀ item file, q ≠ joinpath (joinpath source_folder item) file) →
  fs (move_data cfg E source_folder target_root w).2 !! q = Some x.
Proof.
  intros Hq Htgt Hjson Hdir Hfile. revert Hq.
  change (kept_at q x (fs w)
            (fs (move_data cfg E source_folder target_root w).2)).
  revert w.
  change (evolves (kept_at q x)
            (move_data cfg E source_folder target_root)).
  assert (Hmk : ∀ parents exist_ok p,
            evolves (kept_at q x)
                    (update_fs (λ fs, FS.mkdir parents exist_ok fs p))).
  { intros parents exist_ok p. apply evolves_update_fs; [apply _|].
    intros fs fs' Hmk Hq. by eapply EnhancerMore.mkdir_grows. }
  unfold move_data. cbv zeta.
  apply evolves_bind; [apply _|apply evolves_read_fs; apply _|].
  intros []; cbn [negb]; [|apply evolves_raise; apply _].
  apply evolves_bind; [apply _|apply evolves_read_fs; apply _|].
  intros []; cbn [negb]; [|apply evolves_raise; apply _].
  apply evolves_bind; [apply _|apply evolves_read_fs; apply _|].
  intros []; cbn [negb]; [|apply evolves_raise; apply _].
  apply evolves_bind; [apply _|apply evolves_try_fs; apply _|].
  intros [lo hi].
  apply evolves_bind; [apply _|apply evolves_print; apply _|]. intros _.
  apply evolves_bind; [apply _|apply evolves_read_fs; apply _|].
  intros folder_exists. apply evolves_bind; [apply _| |].
  { destruct folder_exists; [apply evolves_print; apply _|].
    apply evolves_bind; [apply _|apply (Hmk true false)|]. intros _.
    apply evolves_print; apply _. }
  intros _. apply evolves_bind; [apply _|apply (Hmk true true)|]. intros _.
  apply evolves_bind; [apply _|apply (Hmk true true)|]. intros _.
  apply evolves_bind; [apply _|apply evolves_print; apply _|]. intros _.
  apply evolves_bind; [apply _|apply evolves_try_fs; apply _|].
  intros items. apply evolves_bind; [apply _| |].
  { apply evolves_for_fold; [apply _|]. intros item st.
    apply move_item_keeps; try done;
      intros Hpre; apply (Htgt lo hi); (etrans; [|exact Hpre]);
      by apply prefix_app_r. }
  intros st.
  do 4 (apply evolves_bind; [apply _|apply evolves_print; apply _|];
        intros _).
  apply evolves_ret; apply _.
Qed.

(** *** How the program ends *)

Lemma move_one_file_raises (video_folder data_subfolder item_path : path)
    (file : string) (st : stats) :
  raises_only (λ e, is_OSError e = true)
    (move_one_file cfg E video_folder data_subfolder item_path file st).
Proof.
  unfold move_one_file. cbv zeta.
  apply raises_only_bind; [apply raises_only_read_fs|].
  intros []; [|apply raises_only_ret].
  destruct (is_video_file _ _ _ _ file).
  - apply raises_only_bind.
    { apply raises_only_update_fs. intros fs e. apply shutil_move_OSError. }
    intros _. apply raises_only_bind; [apply raises_only_print|].
    intros _. apply raises_only_ret.
  - apply raises_only_bind.
    { apply raises_only_update_fs. intros fs e. apply shutil_move_OSError. }
    intros _. apply raises_only_ret.
Qed.

Lemma move_item_raises (source_folder video_folder data_folder : path)
    (item : string) (st : stats) :
  raises_only (λ e, is_OSError e = true)
    (move_item cfg E source_folder video_folder data_folder item st).
Proof.
  unfold move_item. cbv zeta.
  destruct (bool_decide (item = ANALYSIS_JSON_FILENAME cfg)).
  { apply raises_only_bind.
    { apply raises_only_update_fs. intros fs e. apply shutil_move_OSError. }
    intros _. apply raises_only_bind; [apply raises_only_print|].
    intros _. apply raises_only_ret. }
  apply raises_only_bind; [apply raises_only_read_fs|].
  intros []; [|apply raises_only_ret].
  apply raises_only_bind.
  { apply raises_only_update_fs. intros fs e. apply (mkdir_OSError true true). }
  intros _. apply raises_only_bind.
  { apply raises_only_try_fs. intros fs e. apply listdir_OSError. }
  intros files. apply raises_only_bind.
  { apply raises_only_for_fold. intros file st'. apply move_one_file_raises. }
  intros st'. apply raises_only_bind.
  { apply raises_only_try_fs. intros fs e. apply listdir_OSError. }
  intros remaining.
  apply raises_only_bind; [|intros _; apply raises_only_ret].
  destruct remaining; [|apply raises_only_ret].
  apply raises_only_update_fs. intros fs e. apply rmdir_OSError.
Qed.

(** The move raises what the reading of the analysis file raises,
    [ValueError] for a file without view counts, or an [OSError]. *)
Lemma move_data_raises (source_folder target_root : path) :
  raises_only (λ e, is_OSError e = true ∨ e = ValueError
                    ∨ ∃ p, load E p = Raise e)
              (move_data cfg E source_folder target_root).
Proof.
  assert (Hos : ∀ {A : Type} (m : M A),
            raises_only (λ e, is_OSError e = true) m →
            raises_only (λ e, is_OSError e = true ∨ e = ValueError
                              ∨ ∃ p, load E p = Raise e) m).
  { intros A m. apply raises_only_mono. by left. }
  unfold move_data. cbv zeta.
  apply raises_only_bind; [apply raises_only_read_fs|].
  intros []; cbn [negb]; [|apply raises_only_raise; by left].
  apply raises_only_bind; [apply raises_only_read_fs|].
  intros []; cbn [negb]; [|apply raises_only_raise; by left].
  apply raises_only_bind; [apply raises_only_read_fs|].
  intros []; cbn [negb]; [|apply raises_only_raise; by left].
  apply raises_only_bind.
  { apply raises_only_try_fs. intros _ e. unfold get_view_count_range.
    destruct (load E _) as [data|e'] eqn:Hload.
    - destruct (omap _ data); [|done]. intros [= <-]. right. by left.
    - intros [= <-]. right. right. by eexists. }
  intros [lo hi].
  apply raises_only_bind; [apply raises_only_print|]. intros _.
  apply raises_only_bind; [apply raises_only_read_fs|].
  intros folder_exists. apply raises_only_bind.
  { destruct folder_exists; [apply raises_only_print|].
    apply raises_only_bind; [|intros _; apply raises_only_print].
    apply Hos, raises_only_update_fs. intros fs e.
    apply (mkdir_OSError true false). }
  intros _. apply raises_only_bind.
  { apply Hos, raises_only_update_fs. intros fs e.
    apply (mkdir_OSError true true). }
  intros _. apply raises_only_bind.
  { apply Hos, raises_only_update_fs. intros fs e.
    apply (mkdir_OSError true true). }
  intros _. apply raises_only_bind; [apply raises_only_print|]. intros _.
  apply raises_only_bind.
  { apply Hos, raises_only_try_fs. intros fs e. apply listdir_OSError. }
  intros items. apply raises_only_bind.
  { apply Hos, raises_only_for_fold. intros item st. apply move_item_raises. }
  intros st.
  do 4 (apply raises_only_bind; [apply raises_only_print|]; intros _).
  apply raises_only_ret.
Qed.

(** X21. The exit status of the data mover.  Provided reading the
    analysis file does not itself end the interpreter, [main] never
    raises: it returns 1 when the move, or the listing of the source
    folder after it, raised, after printing the error, and 0
    otherwise; so a status of 0 means the move ran to its end. *)
Theorem data_mover_exit (w : world) :
  (∀ p n, load E p ≠ Raise (SystemExit n)) →
  let banner :=
    [Print [Lit (times "=" 60)]; Print [Lit "📦 YouTube 分析資料搬移程式"];
     Print [Lit (times "=" 60)];
     Print [Lit (newline +:+ "來源: "); PathP (SOURCE_FOLDER cfg)];
     Print [Lit "目標: "; PathP (TARGET_ROOT_FOLDER cfg); Lit newline]] in
  let moved := move_data cfg E (SOURCE_FOLDER cfg) (TARGET_ROOT_FOLDER cfg)
                 (World (fs w) (trace w ++ banner)) in
  ((main cfg E w).1 = Ok 0 ∨ (main cfg E w).1 = Ok 1)
  ∧ (∀ e, moved.1 = Raise e →
          (main cfg E w).1 = Ok 1
          ∧ (main cfg E w).2
            = World (fs moved.2)
                (trace moved.2 ++ [Print [Lit (newline +:+ "❌ 錯誤: ");
                                          ExnP e]]))
  ∧ ((main cfg E w).1 = Ok 0 →
     ∃ st, moved.1 = Ok st ∧ fs (main cfg E w).2 = fs moved.2).
Proof.
  intros Hload banner moved.
  set (after := λ st : stats,
         (if CLEAR_SOURCE_AFTER_MOVE cfg then
            remaining ← try_fs (λ fs, listdir fs (SOURCE_FOLDER cfg));
            match remaining with
            | [] => print [Lit (newline +:+ "🧹 來源資料夾已清空")]
            | _ :: _ =>
                print [Lit (newline +:+ "⚠️  來源資料夾中仍有 ");
                       IntP (Z.of_nat (length remaining));
                       Lit " 個項目未搬移"]
            end
          else mret tt);;
         print [Lit (newline +:+ "📍 目標資料夾: "); PathP (target_folder st)];;
         mret 0).
  set (handler := λ e : exn,
         match e with
         | SystemExit _ => None
         | _ => Some (print [Lit (newline +:+ "❌ 錯誤: "); ExnP e];; mret 1)
         end).
  assert (Hmain : main cfg E w
                  = try_except
                      (move_data cfg E (SOURCE_FOLDER cfg)
                         (TARGET_ROOT_FOLDER cfg) ≫= after)
                      handler (World (fs w) (trace w ++ banner))).
  { unfold main. rewrite !bind_print. cbn [fs trace].
    by rewrite <- !(assoc_L (++)). }
  rewrite Hmain. clear Hmain.
  assert (Hcaught : ∀ e : exn, is_OSError e = true ∨ e = ValueError
                            ∨ (∃ p, load E p = Raise e) →
            handler e
            = Some (print [Lit (newline +:+ "❌ 錯誤: "); ExnP e];; mret 1)).
  { intros e [He|[->|[p Hp]]]; [by destruct e|done|].
    destruct e; try done. by destruct (Hload p code). }
  pose proof (move_data_raises (SOURCE_FOLDER cfg) (TARGET_ROOT_FOLDER cfg)
                (World (fs w) (trace w ++ banner))) as Hraises.
  fold moved in Hraises.
  destruct moved as [[st|e] w1] eqn:Hmoved; cbn [fst snd] in *.
  - (* the move returned *)
    rewrite (try_except_bind_ok _ _ _ _ _ _ Hmoved).
    assert (Hafter : ∃ w2, fs w2 = fs w1
              ∧ (after st w1 = (Ok 0, w2)
                 ∨ ∃ e, after st w1 = (Raise e, w2) ∧ is_OSError e = true)).
    { unfold after, mbind, M_bind, try_fs, print, mret, M_ret.
      destruct (CLEAR_SOURCE_AFTER_MOVE cfg);
        [|eexists; split; [|left; reflexivity]; done].
      destruct (listdir (fs w1) (SOURCE_FOLDER cfg)) as [[|r rs]|e] eqn:Hls.
      - eexists; split; [|left; reflexivity]; done.
      - eexists; split; [|left; reflexivity]; done.
      - exists w1. split; [done|]. right. exists e. split; [done|].
        by eapply listdir_OSError. }
    destruct Hafter as (w2 & Hfs & [Hok|(e & He & Hos)]).
    + rewrite (try_except_ok _ _ _ _ _ Hok). cbn [fst snd].
      split; [by left|]. split; [done|]. intros _. by exists st.
    + rewrite (try_except_caught _ _ _ _ _ _ He (Hcaught e (or_introl Hos))).
      rewrite bind_print. unfold mret, M_ret. cbn [fst snd].
      split; [by right|]. split; [done|]. done.
  - (* the move raised *)
    rewrite (try_except_bind_raise _ _ _ _ _ _ Hmoved).
    rewrite (Hcaught e (Hraises _ _ eq_refl)).
    rewrite bind_print. unfold mret, M_ret. cbn [fst snd].
    split; [by right|]. split; [|done]. by intros e' [= <-].
Qed.

(** *** The analysis file *)

Lemma move_one_file_gone (q : path)
    (video_folder data_subfolder item_path : path) (file : string)
    (st : stats) :
  ¬ video_folder `prefix_of` q → ¬ data_subfolder `prefix_of` q →
  evolves (gone_at q)
          (move_one_file cfg E video_folder data_subfolder item_path file st).
Proof.
  intros Hvf Hds. unfold move_one_file. cbv zeta.
  apply evolves_bind; [apply _|apply evolves_read_fs; apply _|].
  intros []; [|apply evolves_ret; apply _].
  destruct (is_video_file _ _ _ _ file).
  - apply evolves_bind; [apply _| |].
    + apply evolves_update_fs; [apply _|]. intros fs fs' Hmv Hq.
      eapply shutil_move_gone; [exact Hmv|exact Hq|].
      intros Hpre. apply Hvf. etrans; [|exact Hpre]. by apply prefix_app_r.
    + intros _. apply evolves_bind; [apply _|apply evolves_print; apply _|].
      intros _. apply evolves_ret; apply _.
  - apply evolves_bind; [apply _| |intros _; apply evolves_ret; apply _].
    apply evolves_update_fs; [apply _|]. intros fs fs' Hmv Hq.
    eapply shutil_move_gone; [exact Hmv|exact Hq|].
    intros Hpre. apply Hds. etrans; [|exact Hpre]. by apply prefix_app_r.
Qed.

Lemma move_item_gone (q : path)
    (source_folder video_folder data_folder : path) (item : string)
    (st : stats) :
  ¬ video_folder `prefix_of` q → ¬ data_folder `prefix_of` q →
  (∀ p, data_folder `prefix_of` p → ¬ q `prefix_of` p) →
  evolves (gone_at q)
          (move_item cfg E source_folder video_folder data_folder item st).
Proof.
  intros Hvf Hdf Habove. unfold move_item. cbv zeta.
  destruct (bool_decide (item = ANALYSIS_JSON_FILENAME cfg)).
  { apply evolves_bind; [apply _| |].
    - apply evolves_update_fs; [apply _|]. intros fs fs' Hmv Hq.
      eapply shutil_move_gone; [exact Hmv|exact Hq|].
      intros Hpre. apply Hdf. etrans; [|exact Hpre]. by apply prefix_app_r.
    - intros _. apply evolves_bind; [apply _|apply evolves_print; apply _|].
      intros _. apply evolves_ret; apply _. }
  apply evolves_bind; [apply _|apply evolves_read_fs; apply _|].
  intros []; [|apply evolves_ret; apply _].
  apply evolves_bind; [apply _| |].
  { apply evolves_update_fs; [apply _|]. intros fs fs' Hmk Hq.
    destruct (fs' !! q) as [y|] eqn:Hy; [|done]. exfalso.
    apply (Habove (joinpath data_folder item)); [by apply prefix_app_r|].
    eapply mkdir_new; [exact Hmk|exact Hq|by eexists]. }
  intros _. apply evolves_bind; [apply _|apply evolves_try_fs; apply _|].
  intros files. apply evolves_bind; [apply _| |].
  { apply evolves_for_fold; [apply _|]. intros file st'.
    apply move_one_file_gone; [done|].
    intros Hpre. apply Hdf. etrans; [|exact Hpre]. by apply prefix_app_r. }
  intros st'. apply evolves_bind; [apply _|apply evolves_try_fs; apply _|].
  intros remaining.
  apply evolves_bind; [apply _| |intros _; apply evolves_ret; apply _].
  destruct remaining; [|apply evolves_ret; apply _].
  apply evolves_update_fs; [apply _|]. intros fs fs' Hrm Hq.
  apply rmdir_ok in Hrm as [_ ->]. apply lookup_delete_None. by right.
Qed.

Lemma move_item_moves_json (source_folder video_folder data_folder : path)
    (st st' : stats) (w w' : world) :
  ¬ data_folder `prefix_of` joinpath source_folder (ANALYSIS_JSON_FILENAME cfg) →
  move_item cfg E source_folder video_folder data_folder
    (ANALYSIS_JSON_FILENAME cfg) st w = (Ok st', w') →
  fs w' !! joinpath source_folder (ANALYSIS_JSON_FILENAME cfg) = None.
Proof.
  intros Hdf. unfold move_item. cbv zeta.
  rewrite bool_decide_eq_true_2 by done.
  intros (u & w1 & Hmv & Hrest)%bind_ok_inv.
  apply update_fs_ok_inv in Hmv as (fs' & Hmv & ->).
  rewrite bind_print in Hrest. injection Hrest as _ <-. cbn [fs].
  eapply shutil_move_source_gone; [exact Hmv|].
  intros Hpre. apply Hdf. etrans; [|exact Hpre]. by apply prefix_app_r.
Qed.

Lemma move_items_json (source_folder video_folder data_folder : path)
    (items : list string) (st st' : stats) (w w' : world) :
  let json_path := joinpath source_folder (ANALYSIS_JSON_FILENAME cfg) in
  ¬ video_folder `prefix_of` json_path → ¬ data_folder `prefix_of` json_path →
  (∀ p, data_folder `prefix_of` p → ¬ json_path `prefix_of` p) →
  ANALYSIS_JSON_FILENAME cfg ∈ items →
  for_fold items (move_item cfg E source_folder video_folder data_folder) st w
  = (Ok st', w') →
  fs w' !! json_path = None.
Proof.
  intros json_path Hvf Hdf Habove. revert st w.
  induction items as [|item items IH]; intros st w Hin Hrun.
  { by apply elem_of_nil in Hin. }
  cbn [for_fold] in Hrun.
  apply bind_ok_inv in Hrun as (st1 & w1 & Hitem & Hrest).
  destruct (decide (ANALYSIS_JSON_FILENAME cfg ∈ items)) as [Hin'|Hnin].
  { by eapply IH. }
  apply elem_of_cons in Hin as [<-|Hin]; [|done].
  apply move_item_moves_json in Hitem; [|done].
  pose proof (evolves_for_fold (gone_at json_path) items
                (move_item cfg E source_folder video_folder data_folder) st1
                (λ item st, move_item_gone json_path source_folder
                              video_folder data_folder item st Hvf Hdf Habove)
                w1) as Hgone.
  rewrite Hrest in Hgone. by apply Hgone.
Qed.

(** X22. The analysis file leaves the source folder.  When the target
    folder of the day is neither inside the analysis file's path nor
    above it, a move that runs to its end has taken the analysis file
    out of the source folder. *)
Theorem analysis_file_moved (source_folder target_root : path) (w w' : world)
    (st : stats) :
  let json_path := joinpath source_folder (ANALYSIS_JSON_FILENAME cfg) in
  (∀ lo hi, ¬ joinpath target_root
                (create_target_folder_name (today E) lo hi)
              `prefix_of` json_path) →
  (∀ lo hi, ¬ json_path
              `prefix_of` joinpath target_root
                            (create_target_folder_name (today E) lo hi)) →
  move_data cfg E source_folder target_root w = (Ok st, w') →
  FS.exists_ (fs w) json_path = true ∧ fs w' !! json_path = None.
Proof.
  intros json_path Hin Habove Hrun.
  unfold move_data in Hrun. cbv zeta in Hrun. fold json_path in Hrun.
  rewrite bind_read_fs in Hrun.
  destruct (FS.exists_ (fs w) source_folder); [|done]. cbn [negb] in Hrun.
  rewrite bind_read_fs in Hrun.
  destruct (FS.exists_ (fs w) target_root); [|done]. cbn [negb] in Hrun.
  rewrite bind_read_fs in Hrun.
  destruct (FS.exists_ (fs w) json_path) eqn:Hjson; [|done].
  cbn [negb] in Hrun. split; [done|].
  apply exists_spec in Hjson as [x Hx].
  apply bind_ok_inv in Hrun as ([lo hi] & w1 & Hrange & Hrun).
  unfold try_fs in Hrange. injection Hrange as _ <-.
  rewrite bind_print, bind_read_fs in Hrun. cbn [fs] in Hrun.
  set (tf := joinpath target_root (create_target_folder_name (today E) lo hi))
    in *.
  apply bind_ok_inv in Hrun as (u1 & w2 & Hmk1 & Hrun).
  assert (Hx2 : fs w2 !! json_path = Some x).
  { destruct (FS.exists_ (fs w) tf).
    - injection Hmk1 as _ <-. exact Hx.
    - apply bind_ok_inv in Hmk1 as (u & w1' & Hmk & Hpr).
      apply update_fs_ok_inv in Hmk as (fs' & Hmk & ->).
      injection Hpr as _ <-. cbn [fs] in *.
      by eapply EnhancerMore.mkdir_grows. }
  apply bind_ok_inv in Hrun as (u2 & w3 & Hmk2 & Hrun).
  apply update_fs_ok_inv in Hmk2 as (fs3 & Hmk2 & ->).
  apply bind_ok_inv in Hrun as (u3 & w4 & Hmk3 & Hrun).
  apply update_fs_ok_inv in Hmk3 as (fs4 & Hmk3 & ->).
  cbn [fs trace] in *.
  rewrite bind_print in Hrun. cbn [fs trace] in Hrun.
  apply bind_ok_inv in Hrun as (items & w5 & Hls & Hrun).
  unfold try_fs in Hls. injection Hls as Hls <-. cbn [fs] in Hls.
  apply bind_ok_inv in Hrun as (st1 & w6 & Hloop & Hrun).
  rewrite !bind_print in Hrun. injection Hrun as _ <-. cbn [fs].
  assert (Hx4 : fs4 !! json_path = Some x).
  { eapply EnhancerMore.mkdir_grows; [exact Hmk3|].
    by eapply EnhancerMore.mkdir_grows. }
  assert (Hsub : ∀ sub, ¬ joinpath tf sub `prefix_of` json_path).
  { intros sub Hpre. apply (Hin lo hi). etrans; [|exact Hpre].
    by apply prefix_app_r. }
  eapply move_items_json; [apply Hsub|apply Hsub| | |exact Hloop].
  - intros p Hdf Hjp.
    assert (Htf : tf `prefix_of` p).
    { etrans; [|exact Hdf]. by apply prefix_app_r. }
    destruct (prefix_weak_total _ _ _ Htf Hjp) as [H|H].
    + by apply (Hin lo hi).
    + by apply (Habove lo hi).
  - eapply listdir_lists; [exact Hls|]. by eexists.
Qed.

(** *** Videos of the same name *)

(** X23. A video whose name is taken.  When a regular file of a
    subfolder has a video extension and the video folder is a
    directory, the file goes to the video folder under its own name,
    the count of videos goes up by one and one line is printed; a
    regular file that had this name in the video folder, such as the
    video of the same name from an earlier subfolder, is replaced by
    it, and nothing is printed about that. *)
Theorem video_replaces_namesake
    (video_folder data_subfolder item_path : path) (file : string)
    (st : stats) (w : world) (n : Z) :
  let file_path := joinpath item_path file in
  let dest_path := joinpath video_folder file in
  fs w !! file_path = Some (File n) →
  is_video_file (to_lower E) (sep E) (altsep E) (VIDEO_EXTENSIONS cfg) file
  = true →
  FS.is_dir (fs w) video_folder = true →
  FS.is_dir (fs w) dest_path = false →
  move_one_file cfg E video_folder data_subfolder item_path file st w
  = (Ok (Stats (videos_moved st + 1) (data_folders_moved st)
               (files_moved st) (target_folder st)),
     World (<[dest_path := File n]> (delete file_path (fs w)))
           (trace w ++ [Print [Lit "🎬 搬移影片: "; Lit file;
                               Lit " -> Video/"]])).
Proof.
  intros file_path dest_path Hsrc Hvideo Hfolder Hdest.
  unfold move_one_file. cbv zeta. fold file_path dest_path.
  rewrite bind_read_fs. unfold FS.is_file. rewrite Hsrc, Hvideo.
  assert (Hmv : FS.shutil_move (fs w) file_path dest_path
                = Ok (<[dest_path := File n]> (delete file_path (fs w)))).
  { unfold FS.shutil_move. rewrite Hdest. cbn [andb]. rewrite Hsrc.
    unfold dest_path at 1. rewrite parent_joinpath, Hfolder. done. }
  erewrite bind_ok; [|unfold update_fs; by rewrite Hmv].
  by rewrite bind_print.
Qed.

End WithConfig.

End MoverFacts.

(** ** Sample runs of the data mover *)

Module MoverRuns.

Import MoveData Fixtures.

(** On a machine without the source folder the program ends with
    status 1 and changes nothing. *)
Lemma mover_on_bare_machine :
  FS.exists_ (fs bare) (SOURCE_FOLDER mover_config) = false
  ∧ (main mover_config mover_env bare).1 = Ok 1
  ∧ fs (main mover_config mover_env bare).2 = fs bare.
Proof.
  assert (Hmissing : FS.exists_ (fs bare) (SOURCE_FOLDER mover_config) = false)
    by (vm_compute; reflexivity).
  destruct (MoverFacts.move_data_preconditions mover_config mover_env bare
              (or_introl Hmissing)) as (_ & H1 & H2 & _).
  split; [exact Hmissing|]. split; [exact H1|exact H2].
Defined.

(** The file beside the channel folders stays where it is. *)
Lemma readme_left_behind :
  fs (move_data mover_config mover_env ["src"] ["out"] export).2
    !! ["src"; "readme.txt"]
  = Some (File 7).
Proof.
  apply (MoverFacts.move_data_leaves mover_config mover_env ["src"] ["out"]
           export ["src"; "readme.txt"] (File 7)).
  - vm_compute. reflexivity.
  - intros lo hi [k Hk]. discriminate Hk.
  - intros [k Hk]. discriminate Hk.
  - intros Hx. discriminate Hx.
  - intros n _ item file Hq. discriminate Hq.
Defined.

(** The sample export is moved, or the move is reported as failed. *)
Lemma sample_export_exit :
  (main mover_config mover_env export).1 = Ok 0
  ∨ (main mover_config mover_env export).1 = Ok 1.
Proof.
  apply (MoverFacts.data_mover_exit mover_config mover_env export).
  intros p n Hp. discriminate Hp.
Defined.

(** The move of the sample export takes the analysis file along. *)
Lemma sample_move_takes_analysis :
  FS.exists_ (fs export) ["src"; "analysis_results.json"] = true
  ∧ fs (move_data mover_config mover_env ["src"] ["out"] export).2
      !! ["src"; "analysis_results.json"]
    = None.
Proof.
  assert (Hrun : move_data mover_config mover_env ["src"] ["out"] export
                 = (Ok (Stats 2 2 2 ["out"; "251217_1K-2M"]),
                    (move_data mover_config mover_env ["src"] ["out"]
                       export).2))
    by (vm_compute; reflexivity).
  apply (MoverFacts.analysis_file_moved mover_config mover_env ["src"] ["out"]
           export _ (Stats 2 2 2 ["out"; "251217_1K-2M"])).
  - intros lo hi [k Hk]. discriminate Hk.
  - intros lo hi [k Hk]. discriminate Hk.
  - exact Hrun.
Defined.

(** A second video called [v.mp4] takes the place of the first. *)
Lemma second_video_replaces_first :
  fs (move_one_file mover_config mover_env
        ["out"; "251217_1K-2M"; "Video"] ["out"; "251217_1K-2M"; "DATA"; "ch1"]
        ["src"; "ch1"] "v.mp4" (Stats 1 1 0 ["out"; "251217_1K-2M"]) taken).2
    !! ["out"; "251217_1K-2M"; "Video"; "v.mp4"]
  = Some (File 100).
Proof.
  rewrite (MoverFacts.video_replaces_namesake mover_config mover_env
             ["out"; "251217_1K-2M"; "Video"]
             ["out"; "251217_1K-2M"; "DATA"; "ch1"] ["src"; "ch1"] "v.mp4"
             (Stats 1 1 0 ["out"; "251217_1K-2M"]) taken 100).
  - cbn [snd fs]. apply lookup_insert_eq.
  - vm_compute. reflexivity.
  - vm_compute. reflexivity.
  - vm_compute. reflexivity.
  - vm_compute. reflexivity.
Defined.

End MoverRuns.
